(** * Virtual microphone manager (src/main.py): model and verified properties

    The development embeds the non-GUI core of [src/main.py]:
    - [run_cmd], the wrapper around [subprocess.run];
    - the class [VirtualMicManager] ([cleanup_all], [setup],
      [play_audio_vlc], [stop_playback] and the three polling accessors);
    - the polling step [VirtualMicApp.update_progress].

    Modelling conventions.
    - Text is 7-bit ASCII: [pactl] prints module numbers, module names and
      arguments in ASCII.  The string methods below behave as Python's on
      that repertoire; characters above 127 are treated as ordinary
      characters (neither blank, nor digit, nor cased).
    - Everything outside the Python process (the [pactl] subprocess, the
      file system, libVLC, the clock, standard output, the progress bar
      widget) is an environment [Env] of oracles that answer a call from the
      history of calls made so far.  Every call is appended to a log, so
      that orderings of external steps are statements about that log.
    - Python exceptions are explicit: a computation yields [Ret v] or
      [Raise e] together with the state reached when it stopped.
    - Backend calls that the source wraps in [try]/[except] may raise; the
      three getters polled by the GUI timer return a number.
    - Objects handed out by libVLC are numbered handles; a new object gets
      a number never used before (Python object identity). *)

From Stdlib Require Import String Ascii List ZArith Lia Bool Arith.
From Stdlib Require Import Sorting.Sorted Sorting.Permutation.
From Stdlib Require Import DecimalString.
Import ListNotations.

Open Scope string_scope.
Open Scope Z_scope.

(** ** Python string methods used by the source *)

Module PyStr.

  (** [c.isspace()] on ASCII: TAB, LF, VT, FF, CR, FS, GS, RS, US, SPACE. *)
Definition isspace (c : ascii) : bool :=
    let n := nat_of_ascii c in
    ((9 <=? n) && (n <=? 13))%nat || ((28 <=? n) && (n <=? 32))%nat.

Definition is_decimal (c : ascii) : bool :=
    let n := nat_of_ascii c in ((48 <=? n) && (n <=? 57))%nat.

Definition is_upper (c : ascii) : bool :=
    let n := nat_of_ascii c in ((65 <=? n) && (n <=? 90))%nat.

Definition lower_char (c : ascii) : ascii :=
    if is_upper c then ascii_of_nat (nat_of_ascii c + 32) else c.

  (** [s.lower()] *)
Fixpoint lower (s : string) : string :=
    match s with
    | EmptyString => EmptyString
    | String c s' => String (lower_char c) (lower s')
    end.

Definition is_empty (s : string) : bool :=
    match s with EmptyString => true | _ => false end.

Fixpoint lstrip (s : string) : string :=
    match s with
    | EmptyString => EmptyString
    | String c s' => if isspace c then lstrip s' else s
    end.

Fixpoint rstrip (s : string) : string :=
    match s with
    | EmptyString => EmptyString
    | String c s' =>
        match rstrip s' with
        | EmptyString => if isspace c then EmptyString else String c EmptyString
        | r => String c r
        end
    end.

  (** [s.strip()] *)
Definition strip (s : string) : string := rstrip (lstrip s).

  (** [s.split(sep)] for a one-character separator; [cur] is the field
      being read.  The result is never empty. *)
Fixpoint split_on (sep : ascii) (s cur : string) : list string :=
    match s with
    | EmptyString => [cur]
    | String c s' =>
        if Ascii.eqb c sep then cur :: split_on sep s' EmptyString
        else split_on sep s' (cur ++ String c EmptyString)
    end.

Definition newline : ascii := ascii_of_nat 10.

  (** [s.split('\n')] *)
Definition split_lines (s : string) : list string :=
    split_on newline s EmptyString.

  (** [s.split()]: runs of blanks separate the fields, and leading and
      trailing blanks produce no field. *)
Fixpoint split_ws (s cur : string) : list string :=
    match s with
    | EmptyString => if is_empty cur then [] else [cur]
    | String c s' =>
        if isspace c
        then (if is_empty cur then split_ws s' EmptyString
              else cur :: split_ws s' EmptyString)
        else split_ws s' (cur ++ String c EmptyString)
    end.

Definition split (s : string) : list string := split_ws s EmptyString.

  (** [sep.join(l)] *)
Definition join (sep : string) (l : list string) : string :=
    String.concat sep l.

  (** [needle in hay] *)
Fixpoint contains (needle hay : string) : bool :=
    String.prefix needle hay
    || match hay with
       | EmptyString => false
       | String _ hay' => contains needle hay'
       end.

Fixpoint all_decimal (s : string) : bool :=
    match s with
    | EmptyString => true
    | String c s' => is_decimal c && all_decimal s'
    end.

  (** [s.isdigit()]: at least one character, and all of them digits. *)
Definition isdigit (s : string) : bool :=
    negb (is_empty s) && all_decimal s.

Definition digit_value (c : ascii) : Z := Z.of_nat (nat_of_ascii c) - 48.

Definition underscore : ascii := "_"%char.

  (** Digits of an integer literal, most significant first: underscores are
      allowed between two digits only.  [acc] is the value read so far,
      [n] the number of digits read, [prev_digit] whether the previous
      character was a digit. *)
Fixpoint int_digits (s : string) (acc : Z) (n : nat) (prev_digit : bool)
    : option (Z * nat) :=
    match s with
    | EmptyString => if prev_digit then Some (acc, n) else None
    | String c s' =>
        if is_decimal c then int_digits s' (10 * acc + digit_value c) (S n) true
        else if Ascii.eqb c underscore
             then (if prev_digit then int_digits s' acc n false else None)
             else None
    end.

  (** Default of [sys.int_info.default_max_str_digits]. *)
Definition max_str_digits : nat := 4300.

  (** [int(s)] in base ten; [None] stands for [ValueError]. *)
Definition int (s : string) : option Z :=
    let body (t : string) :=
      match int_digits t 0 0%nat false with
      | Some (v, n) => if (max_str_digits <? n)%nat then None else Some v
      | None => None
      end in
    match strip s with
    | String "+" t => body t
    | String "-" t => option_map Z.opp (body t)
    | t => body t
    end.

  (** [os.path.basename(p)]: what follows the last slash. *)
Fixpoint basename_aux (p cur : string) : string :=
    match p with
    | EmptyString => cur
    | String c p' =>
        if Ascii.eqb c "/"%char then basename_aux p' EmptyString
        else basename_aux p' (cur ++ String c EmptyString)
    end.

Definition basename (p : string) : string := basename_aux p EmptyString.

End PyStr.


(** ** Exceptions, external calls and the environment *)

(** The exceptions derived from [Exception] that the source can meet.
    Interrupts ([KeyboardInterrupt], [SystemExit]), which are not derived
    from it, are outside the model. *)
Inductive Exn : Type :=
| TimeoutExpired                 (* subprocess.TimeoutExpired *)
| ValueError (literal : string)  (* int() on a malformed literal *)
| ZeroDivisionError
| OtherError (msg : string).     (* any other Exception, with its str() *)

(** [str(e)] *)
Definition str (e : Exn) : string :=
  match e with
  | TimeoutExpired => "Command timed out"
  | ValueError literal => "invalid literal for int() with base 10: '" ++ literal ++ "'"
  | ZeroDivisionError => "division by zero"
  | OtherError msg => msg
  end.

Inductive PyResult (A : Type) : Type :=
| Ret (a : A)
| Raise (e : Exn).
Arguments Ret {A} a.
Arguments Raise {A} e.

Definition Instance := nat.
Definition Player := nat.
Definition Media := nat.
Definition Process := nat.

(** The calls that leave the Python process.  Sleeps are in milliseconds,
    timeouts in seconds. *)
Inductive Call : Type :=
| CPrint (s : string)
| CSleep (ms : Z)
| CRun (cmd : list string) (timeout : Z)
| CExists (path : string)
| CInstance (args : list string) (i : Instance)
| CPlayerNew (i : Instance) (p : Player)
| CAudioOutputSet (p : Player) (name : string)
| CAudioOutputDeviceSet (p : Player) (device : string)
| CMediaNew (i : Instance) (path : string) (m : Media)
| CSetMedia (p : Player) (m : Media)
| CPlay (p : Player)
| CStop (p : Player)
| CRelease (p : Player)
| CGetTime (p : Player)
| CGetLength (p : Player)
| CIsPlaying (p : Player)
| CTerminate (q : Process)
| CWait (q : Process) (timeout : Z)
| CKill (q : Process)
| CSetValue (v : Z).

(** A logged call, with whether it returned or raised. *)
Inductive Event : Type :=
| Done (c : Call)
| Failed (c : Call).

(** [subprocess.CompletedProcess] *)
Record CompletedProcess : Type := {
  returncode : Z;
  stdout : string;
  stderr : string
}.

Record Env : Type := {
  subprocess_run : list Event -> list string -> Z -> PyResult CompletedProcess;
  os_path_exists : list Event -> string -> bool;
  (* libVLC and process-handle methods called under try/except *)
  backend : list Event -> Call -> PyResult Z;
  (* get_time, get_length, is_playing *)
  backend_get : list Event -> Call -> Z
}.

(** ** The manager object and the state monad *)

Record Manager : Type := {
  mic_name : string;
  vlc_instance : option Instance;
  vlc_player : option Player;
  current_process : option Process
}.

Record World : Type := {
  self : Manager;
  next_handle : nat;
  trace : list Event
}.

Definition M (A : Type) : Type := World -> PyResult A * World.

Definition ret {A} (a : A) : M A := fun w => (Ret a, w).

Definition raise {A} (e : Exn) : M A := fun w => (Raise e, w).

Definition bind {A B} (c : M A) (k : A -> M B) : M B :=
  fun w =>
    match c w with
    | (Ret a, w') => k a w'
    | (Raise e, w') => (Raise e, w')
    end.

(** [try: c  except ... as e: h e]; the handler starts from the state in
    which the exception was raised. *)
Definition try_except {A} (c : M A) (h : Exn -> M A) : M A :=
  fun w =>
    match c w with
    | (Ret a, w') => (Ret a, w')
    | (Raise e, w') => h e w'
    end.

Declare Scope py_scope.
Delimit Scope py_scope with py.
Notation "x <- c ;; k" := (bind c (fun x => k))
  (at level 100, c at next level, right associativity) : py_scope.
Notation "c ;; k" := (bind c (fun _ => k))
  (at level 100, right associativity) : py_scope.
Open Scope py_scope.

Definition log (ev : Event) : M unit :=
  fun w => (Ret tt, {| self := self w; next_handle := next_handle w;
                       trace := trace w ++ [ev] |}).

Definition get_self : M Manager := fun w => (Ret (self w), w).

Definition put_self (m : Manager) : M unit :=
  fun w => (Ret tt, {| self := m; next_handle := next_handle w; trace := trace w |}).

Definition set_vlc_instance (i : option Instance) : M unit :=
  m <- get_self ;;
  put_self {| mic_name := mic_name m; vlc_instance := i;
              vlc_player := vlc_player m; current_process := current_process m |}.

Definition set_vlc_player (p : option Player) : M unit :=
  m <- get_self ;;
  put_self {| mic_name := mic_name m; vlc_instance := vlc_instance m;
              vlc_player := p; current_process := current_process m |}.

Definition set_current_process (q : option Process) : M unit :=
  m <- get_self ;;
  put_self {| mic_name := mic_name m; vlc_instance := vlc_instance m;
              vlc_player := vlc_player m; current_process := q |}.

(** A fresh object number. *)
Definition fresh : M nat :=
  fun w => (Ret (next_handle w),
            {| self := self w; next_handle := S (next_handle w); trace := trace w |}).

Definition print (s : string) : M unit := log (Done (CPrint s)).

Definition sleep (ms : Z) : M unit := log (Done (CSleep ms)).

Section Program.

Variable E : Env.

Definition subprocess_run_call (cmd : list string) (timeout : Z)
    : M CompletedProcess :=
    fun w =>
      match subprocess_run E (trace w) cmd timeout with
      | Ret r => (log (Done (CRun cmd timeout)) ;; ret r) w
      | Raise e => (log (Failed (CRun cmd timeout)) ;; raise e) w
      end.

Definition path_exists (path : string) : M bool :=
    fun w => (log (Done (CExists path)) ;; ret (os_path_exists E (trace w) path)) w.

  (** A backend method that may raise. *)
Definition call (c : Call) : M Z :=
    fun w =>
      match backend E (trace w) c with
      | Ret v => (log (Done c) ;; ret v) w
      | Raise e => (log (Failed c) ;; raise e) w
      end.

  (** A backend getter. *)
Definition query (c : Call) : M Z :=
    fun w => (log (Done c) ;; ret (backend_get E (trace w) c)) w.

  (** *** run_cmd (lines 13-22) *)
Definition run_cmd (cmd : list string) (timeout : Z) : M (Z * string * string) :=
    try_except
      (result <- subprocess_run_call cmd timeout ;;
       ret (returncode result, PyStr.strip (stdout result), PyStr.strip (stderr result)))
      (fun e =>
         match e with
         | TimeoutExpired => ret (1, "", "Timeout")
         | _ => ret (1, "", str e)
         end).

End Program.

(** The default of [run_cmd]'s keyword argument [timeout]. *)
Definition default_timeout : Z := 5.

(** ** class VirtualMicManager *)

Module VirtualMicManager.

(** [__init__] (lines 27-31) *)
Definition init : Manager :=
  {| mic_name := "Real4n54n";
     vlc_instance := None;
     vlc_player := None;
     current_process := None |}.

(** The keyword list of lines 57-58. *)
Definition keywords : list string :=
  ["null-sink"; "virtual"; "mic"; "real4n54n"; "remap"; "loopback"].

(** [any(keyword in module_info.lower() for keyword in [...])] *)
Definition is_virtual_module (module_info : string) : bool :=
  existsb (fun keyword => PyStr.contains keyword (PyStr.lower module_info)) keywords.

(** The loop of lines 45-59 over the lines of the listing. *)
Fixpoint scan_modules (lines : list string) (modules_to_remove : list (string * string))
  : list (string * string) :=
  match lines with
  | [] => modules_to_remove
  | line :: rest =>
      if PyStr.is_empty (PyStr.strip line) then scan_modules rest modules_to_remove
      else
        let parts := PyStr.split line in
        if (length parts <? 2)%nat then scan_modules rest modules_to_remove
        else
          let module_id := hd "" parts in
          let module_info := PyStr.join " " (tl parts) in
          if is_virtual_module module_info
          then scan_modules rest (modules_to_remove ++ [(module_id, module_info)])
          else scan_modules rest modules_to_remove
  end.

(** [sorted] evaluates [key] on every element first; the first malformed
    module number raises [ValueError]. *)
Fixpoint sort_keys (l : list (string * string))
  : PyResult (list (Z * (string * string))) :=
  match l with
  | [] => Ret []
  | x :: rest =>
      match PyStr.int (fst x) with
      | None => Raise (ValueError (fst x))
      | Some k =>
          match sort_keys rest with
          | Ret ks => Ret ((k, x) :: ks)
          | Raise e => Raise e
          end
      end
  end.

(** Stable insertion in descending key order: [x], which came earlier in
    the input than every element of [l], moves past greater keys only. *)
Fixpoint insert_desc {A} (x : Z * A) (l : list (Z * A)) : list (Z * A) :=
  match l with
  | [] => [x]
  | y :: l' => if fst x <? fst y then y :: insert_desc x l' else x :: l
  end.

Definition sort_desc {A} (l : list (Z * A)) : list (Z * A) :=
  fold_right insert_desc [] l.

(** [sorted(modules_to_remove, key=lambda x: int(x[0]), reverse=True)] *)
Definition sorted_by_id_desc (modules_to_remove : list (string * string))
  : M (list (string * string)) :=
  match sort_keys modules_to_remove with
  | Ret ks => ret (map snd (sort_desc ks))
  | Raise e => raise e
  end.

Definition list_modules_cmd : list string := ["pactl"; "list"; "modules"; "short"].

Definition unload_cmd (module_id : string) : list string :=
  ["pactl"; "unload-module"; module_id].

Definition load_cmd (name : string) : list string :=
  ["pactl"; "load-module"; "module-null-sink";
   "sink_name=" ++ name;
   "sink_properties=device.description=Virtual_Microphone_Real4n54n";
   "format=s16le"; "rate=48000"; "channels=2"].

Definition set_default_source_cmd (monitor_name : string) : list string :=
  ["pactl"; "set-default-source"; monitor_name].

Definition list_sources_cmd : list string := ["pactl"; "list"; "sources"; "short"].

Section Methods.

Variable E : Env.

(** [stop_playback] (lines 141-162) *)
Definition stop_playback : M unit :=
  m <- get_self ;;
  match vlc_player m with
  | Some p =>
      try_except
        (call E (CStop p) ;; call E (CRelease p) ;; ret tt)
        (fun _ => ret tt) ;;
      set_vlc_player None
  | None => ret tt
  end ;;
  m <- get_self ;;
  match current_process m with
  | Some q =>
      try_except
        (call E (CTerminate q) ;; call E (CWait q 1) ;; ret tt)
        (fun _ => try_except (call E (CKill q) ;; ret tt) (fun _ => ret tt)) ;;
      set_current_process None
  | None => ret tt
  end.

(** The loop of lines 62-66. *)
Fixpoint unload_each (l : list (string * string)) : M unit :=
  match l with
  | [] => ret tt
  | (module_id, module_info) :: rest =>
      print ("Removing: " ++ module_id ++ " - " ++ module_info) ;;
      run_cmd E (unload_cmd module_id) default_timeout ;;
      sleep 100 ;;
      unload_each rest
  end.

(** [cleanup_all] (lines 33-68) *)
Definition cleanup_all : M unit :=
  print "Cleaning up virtual audio devices..." ;;
  stop_playback ;;
  r <- run_cmd E list_modules_cmd default_timeout ;;
  let '(rc, out, err) := r in
  (if rc =? 0 then
     ordered <- sorted_by_id_desc (scan_modules (PyStr.split_lines out) []) ;;
     unload_each ordered
   else ret tt) ;;
  sleep 2000.

(** [setup] (lines 70-106) *)
Definition setup : M (bool * string) :=
  m <- get_self ;;
  print ("Creating virtual microphone: " ++ mic_name m) ;;
  cleanup_all ;;
  sleep 2000 ;;
  r <- run_cmd E (load_cmd (mic_name m)) default_timeout ;;
  let '(rc, out, err) := r in
  if negb (rc =? 0) || negb (PyStr.isdigit out)
  then ret (false, "Failed to create virtual microphone: " ++ err)
  else
    print ("Created virtual microphone: " ++ out) ;;
    let monitor_name := mic_name m ++ ".monitor" in
    run_cmd E (set_default_source_cmd monitor_name) default_timeout ;;
    sleep 2000 ;;
    r2 <- run_cmd E list_sources_cmd default_timeout ;;
    let '(rc2, sources, err2) := r2 in
    if PyStr.contains monitor_name sources
    then ret (true, "Virtual Microphone Created '" ++ mic_name m ++ "'")
    else ret (false, "Failed to create virtual microphone").

(** The body of the [try] block of [play_audio_vlc] (lines 117-136). *)
Definition play_body (audio_path : string) : M (bool * string) :=
  m <- get_self ;;
  inst <- match vlc_instance m with
          | Some i => ret i
          | None =>
              i <- fresh ;;
              call E (CInstance ["--no-video"; "--quiet"] i) ;;
              set_vlc_instance (Some i) ;;
              ret i
          end ;;
  p <- fresh ;;
  call E (CPlayerNew inst p) ;;
  set_vlc_player (Some p) ;;
  call E (CAudioOutputSet p "pulse") ;;
  call E (CAudioOutputDeviceSet p (mic_name m)) ;;
  media <- fresh ;;
  call E (CMediaNew inst audio_path media) ;;
  call E (CSetMedia p media) ;;
  r <- call E (CPlay p) ;;
  if r =? -1 then ret (false, "Failed to play audio with VLC")
  else ret (true, "Sending audio '" ++ PyStr.basename audio_path ++ "'").

(** [play_audio_vlc] (lines 108-139) *)
Definition play_audio_vlc (audio_path : string) : M (bool * string) :=
  found <- path_exists E audio_path ;;
  if negb found then ret (false, "File not found")
  else
    stop_playback ;;
    try_except (play_body audio_path)
               (fun e => ret (false, "VLC error: " ++ str e)).

(** [get_playback_time] (lines 164-168) *)
Definition get_playback_time : M Z :=
  m <- get_self ;;
  match vlc_player m with
  | Some p => query E (CGetTime p)
  | None => ret 0
  end.

(** [get_media_length] (lines 170-174) *)
Definition get_media_length : M Z :=
  m <- get_self ;;
  match vlc_player m with
  | Some p => query E (CGetLength p)
  | None => ret 0
  end.

(** [is_playing] (lines 176-180); the backend's answer is used as a truth
    value only. *)
Definition is_playing : M bool :=
  m <- get_self ;;
  match vlc_player m with
  | Some p => v <- query E (CIsPlaying p) ;; ret (negb (v =? 0))
  | None => ret false
  end.

End Methods.

End VirtualMicManager.

(** ** VirtualMicApp.update_progress *)

Module VirtualMicApp.

(** The two attributes of the window that [update_progress] reads or
    writes: the flag [self.is_playing] and the value shown by
    [self.progress_bar]. *)
Record App : Type := {
  is_playing : bool;
  progress_bar : Z
}.

Section Methods.

Variable E : Env.

(** [int((a / b) * 100)] in IEEE double arithmetic, for [b <> 0]. *)
Variable float_percent : Z -> Z -> Z.

(** The expression [int((current_time / total_time) * 100)]: Python's
    true division raises [ZeroDivisionError] on a zero divisor. *)
Definition percent (current_time total_time : Z) : M Z :=
  if total_time =? 0 then raise ZeroDivisionError
  else ret (float_percent current_time total_time).

(** [self.progress_bar.setValue(v)] *)
Definition setValue (app : App) (v : Z) : M App :=
  log (Done (CSetValue v)) ;;
  ret {| is_playing := is_playing app; progress_bar := v |}.

(** [update_progress] (lines 845-853) *)
Definition update_progress (app : App) : M App :=
  if is_playing app then
    playing <- VirtualMicManager.is_playing E ;;
    if (playing : bool) then
      current_time <- VirtualMicManager.get_playback_time E ;;
      total_time <- VirtualMicManager.get_media_length E ;;
      if total_time >? 0 then
        progress <- percent current_time total_time ;;
        setValue app progress
      else ret app
    else ret app
  else ret app.

End Methods.

End VirtualMicApp.

(** The state of a process that has just built its manager. *)
Definition initial_world : World :=
  {| self := VirtualMicManager.init; next_handle := 0%nat; trace := [] |}.

(** ** Derived notions used in the statements *)

(** [w] after the events [evs] have been logged. *)
Definition extend (w : World) (evs : list Event) : World :=
  {| self := self w; next_handle := next_handle w; trace := trace w ++ evs |}.

(** The events logged between [w] and a later state [w']. *)
Definition new_events (w w' : World) : list Event :=
  skipn (length (trace w)) (trace w').

Definition call_of (ev : Event) : Call :=
  match ev with Done c => c | Failed c => c end.

(** What [run_cmd] returns and logs when the history is [t]. *)
Definition run_cmd_result (E : Env) (t : list Event) (cmd : list string) (timeout : Z)
  : Z * string * string :=
  match subprocess_run E t cmd timeout with
  | Ret r => (returncode r, PyStr.strip (stdout r), PyStr.strip (stderr r))
  | Raise TimeoutExpired => (1, "", "Timeout")
  | Raise e => (1, "", str e)
  end.

Definition run_cmd_event (E : Env) (t : list Event) (cmd : list string) (timeout : Z)
  : Event :=
  match subprocess_run E t cmd timeout with
  | Ret _ => Done (CRun cmd timeout)
  | Raise _ => Failed (CRun cmd timeout)
  end.

(** The manager with both handles dropped. *)
Definition cleared (m : Manager) : Manager :=
  {| mic_name := mic_name m; vlc_instance := vlc_instance m;
     vlc_player := None; current_process := None |}.

(** What [stop_playback] logs for the player [p] when the history is [t]. *)
Definition player_stop_events (E : Env) (t : list Event) (p : Player) : list Event :=
  match backend E t (CStop p) with
  | Raise _ => [Failed (CStop p)]
  | Ret _ =>
      match backend E (t ++ [Done (CStop p)]) (CRelease p) with
      | Ret _ => [Done (CStop p); Done (CRelease p)]
      | Raise _ => [Done (CStop p); Failed (CRelease p)]
      end
  end.

Definition kill_events (E : Env) (t : list Event) (q : Process) : list Event :=
  match backend E t (CKill q) with
  | Ret _ => [Done (CKill q)]
  | Raise _ => [Failed (CKill q)]
  end.

(** What [stop_playback] logs for the process [q]. *)
Definition process_stop_events (E : Env) (t : list Event) (q : Process) : list Event :=
  match backend E t (CTerminate q) with
  | Raise _ => Failed (CTerminate q) :: kill_events E (t ++ [Failed (CTerminate q)]) q
  | Ret _ =>
      match backend E (t ++ [Done (CTerminate q)]) (CWait q 1) with
      | Ret _ => [Done (CTerminate q); Done (CWait q 1)]
      | Raise _ =>
          Done (CTerminate q) :: Failed (CWait q 1)
          :: kill_events E ((t ++ [Done (CTerminate q)]) ++ [Failed (CWait q 1)]) q
      end
  end.

(** Everything [stop_playback] logs from the state [w]. *)
Definition stop_events (E : Env) (w : World) : list Event :=
  let a := match vlc_player (self w) with
           | Some p => player_stop_events E (trace w) p
           | None => []
           end in
  a ++ match current_process (self w) with
       | Some q => process_stop_events E (trace w ++ a) q
       | None => []
       end.

(** Stop, release, terminate, wait and kill requests. *)
Definition is_stop_call (c : Call) : bool :=
  match c with
  | CStop _ | CRelease _ | CTerminate _ | CWait _ _ | CKill _ => true
  | _ => false
  end.

(** The first three statements of [cleanup_all]: the announcement, the
    playback stop and the module listing, whose result is returned. *)
Definition list_modules (E : Env) : M (Z * string * string) :=
  print "Cleaning up virtual audio devices..." ;;
  VirtualMicManager.stop_playback E ;;
  run_cmd E VirtualMicManager.list_modules_cmd default_timeout.

(** What the unload loop logs for the list [l] when the history is [t]. *)
Fixpoint unload_events (E : Env) (t : list Event) (l : list (string * string))
  : list Event :=
  match l with
  | [] => []
  | (module_id, module_info) :: rest =>
      let evs :=
        [Done (CPrint ("Removing: " ++ module_id ++ " - " ++ module_info));
         run_cmd_event E
           (t ++ [Done (CPrint ("Removing: " ++ module_id ++ " - " ++ module_info))])
           (VirtualMicManager.unload_cmd module_id) default_timeout;
         Done (CSleep 100)] in
      evs ++ unload_events E (t ++ evs) rest
  end.

(** The module number of an unload request. *)
Definition unload_target (c : Call) : option string :=
  match c with
  | CRun [tool; verb; module_id] _ =>
      if (tool =? "pactl")%string && (verb =? "unload-module")%string
      then Some module_id else None
  | _ => None
  end.

Definition is_unload_call (c : Call) : bool :=
  match unload_target c with Some _ => true | None => false end.

(** The module numbers of the unload requests among [evs], in order. *)
Fixpoint unloaded_ids (evs : list Event) : list string :=
  match evs with
  | [] => []
  | ev :: rest =>
      match unload_target (call_of ev) with
      | Some module_id => module_id :: unloaded_ids rest
      | None => unloaded_ids rest
      end
  end.

(** The module number and the descriptive metadata of a listing line: the
    first field, and the remaining fields joined by single spaces; a line
    with fewer than two fields describes no module. *)
Definition module_fields (line : string) : option (string * string) :=
  match PyStr.split line with
  | module_id :: (_ :: _) as rest => Some (module_id, PyStr.join " " rest)
  | _ => None
  end.

Definition module_info_of (line : string) : option string :=
  option_map snd (module_fields line).

Definition line_matches (line : string) : bool :=
  match module_info_of line with
  | Some module_info => VirtualMicManager.is_virtual_module module_info
  | None => false
  end.

(** The number of lines of a listing whose metadata matches the keywords. *)
Definition matching_lines (out : string) : nat :=
  length (filter line_matches (PyStr.split_lines out)).

(** [w] with both handles of the manager dropped. *)
Definition clear_world (w : World) : World :=
  {| self := cleared (self w); next_handle := next_handle w; trace := trace w |}.

(** What [cleanup_all] logs before it asks for the module listing. *)
Definition cleanup_prefix (E : Env) (w : World) : list Event :=
  Done (CPrint "Cleaning up virtual audio devices...")
  :: stop_events E (extend w [Done (CPrint "Cleaning up virtual audio devices...")]).
Arguments cleanup_prefix : simpl never.

(** Descending order of the sort keys. *)
Definition key_ge {A} (a b : Z * A) : Prop := fst a >= fst b.

(** The result of the module listing requested by [cleanup_all] from [w]. *)
Definition listing_result (E : Env) (w : World) : Z * string * string :=
  run_cmd_result E (trace w ++ cleanup_prefix E w)
    VirtualMicManager.list_modules_cmd default_timeout.

(** What [cleanup_all] logs up to and including the listing request. *)
Definition listing_events (E : Env) (w : World) : list Event :=
  cleanup_prefix E w
  ++ [run_cmd_event E (trace w ++ cleanup_prefix E w)
        VirtualMicManager.list_modules_cmd default_timeout].
Arguments listing_events : simpl never.

(** What [cleanup_all] logs after the listing: the unload loop and the
    final sleep, or nothing if sorting raised. *)
Definition purge_events (E : Env) (w : World) : list Event :=
  let '(rc, out, _) := listing_result E w in
  if rc =? 0 then
    match VirtualMicManager.sort_keys
            (VirtualMicManager.scan_modules (PyStr.split_lines out) []) with
    | Ret ks =>
        unload_events E (trace w ++ listing_events E w)
          (map snd (VirtualMicManager.sort_desc ks))
        ++ [Done (CSleep 2000)]
    | Raise _ => []
    end
  else [Done (CSleep 2000)].
Arguments purge_events : simpl never.

(** What [cleanup_all] returns from [w]. *)
Definition cleanup_result (E : Env) (w : World) : PyResult unit :=
  let '(rc, out, _) := listing_result E w in
  if rc =? 0 then
    match VirtualMicManager.sort_keys
            (VirtualMicManager.scan_modules (PyStr.split_lines out) []) with
    | Ret _ => Ret tt
    | Raise e => Raise e
    end
  else Ret tt.

(** The tokens of the denylist for a device called [name]. *)
Definition denylist (name : string) : list string :=
  ["null-sink"; "virtual"; "mic"; name; "remap"; "loopback"].

(** [token] occurs in [text] up to the case of letters. *)
Definition occurs_ignoring_case (token text : string) : Prop :=
  exists pre mid post,
    text = pre ++ mid ++ post /\ PyStr.lower mid = PyStr.lower token.

(** The modules marked for removal by a run of [cleanup_all] from [w]. *)
Definition marked (E : Env) (w : World) : list (string * string) :=
  let '(rc, out, _) := listing_result E w in
  if rc =? 0 then VirtualMicManager.scan_modules (PyStr.split_lines out) [] else [].

(** The statements of [setup] up to and including the creation call
    (lines 72-86), whose result is returned. *)
Definition create_device (E : Env) : M (Z * string * string) :=
  m <- get_self ;;
  print ("Creating virtual microphone: " ++ mic_name m) ;;
  VirtualMicManager.cleanup_all E ;;
  sleep 2000 ;;
  run_cmd E (VirtualMicManager.load_cmd (mic_name m)) default_timeout.

(** The statements of [setup] between the creation test and the final
    test (lines 91-101), for the device [name] created with output [out];
    the result of the source listing is returned. *)
Definition settle_and_list (E : Env) (name out : string) : M (Z * string * string) :=
  print ("Created virtual microphone: " ++ out) ;;
  run_cmd E (VirtualMicManager.set_default_source_cmd (name ++ ".monitor"))
    default_timeout ;;
  sleep 2000 ;;
  run_cmd E VirtualMicManager.list_sources_cmd default_timeout.

(** The state in which [setup] calls [cleanup_all]. *)
Definition setup_start (w : World) : World :=
  extend w [Done (CPrint ("Creating virtual microphone: " ++ mic_name (self w)))].

(** Requests to load a module. *)
Definition is_load_call (c : Call) : bool :=
  match c with
  | CRun (tool :: verb :: _) _ =>
      (tool =? "pactl")%string && (verb =? "load-module")%string
  | _ => false
  end.

(** *** Sessions *)

(** The operations of the manager that a caller can invoke. *)
Inductive Op : Type :=
| OpPlay (audio_path : string)
| OpStop
| OpCleanup
| OpSetup
| OpTime
| OpLength
| OpIsPlaying.

(** The state after one operation (whatever it returned or raised). *)
Definition run_op (E : Env) (op : Op) (w : World) : World :=
  match op with
  | OpPlay audio_path => snd (VirtualMicManager.play_audio_vlc E audio_path w)
  | OpStop => snd (VirtualMicManager.stop_playback E w)
  | OpCleanup => snd (VirtualMicManager.cleanup_all E w)
  | OpSetup => snd (VirtualMicManager.setup E w)
  | OpTime => snd (VirtualMicManager.get_playback_time E w)
  | OpLength => snd (VirtualMicManager.get_media_length E w)
  | OpIsPlaying => snd (VirtualMicManager.is_playing E w)
  end.

Definition run_ops (E : Env) (ops : list Op) (w : World) : World :=
  fold_left (fun w op => run_op E op w) ops w.

(** The players the backend created, in order of creation. *)
Fixpoint created (evs : list Event) : list Player :=
  match evs with
  | [] => []
  | Done (CPlayerNew _ p) :: rest => p :: created rest
  | _ :: rest => created rest
  end.

(** One step of the bookkeeping of sessions: a created player is added, a
    player asked to stop (whether or not the request raised) is removed. *)
Definition session_step (acc : list Player) (ev : Event) : list Player :=
  match ev with
  | Done (CPlayerNew _ p) => acc ++ [p]
  | Done (CStop p) | Failed (CStop p) => remove Nat.eq_dec p acc
  | _ => acc
  end.

(** The players created and not yet asked to stop. *)
Definition unstopped (t : list Event) : list Player :=
  fold_left session_step t [].

Definition opt_list {A} (o : option A) : list A :=
  match o with Some a => [a] | None => [] end.

(** The two calls that open or close a session. *)
Definition is_session_call (c : Call) : bool :=
  match c with
  | CPlayerNew _ _ | CStop _ => true
  | _ => false
  end.

Definition neutral (ev : Event) : Prop := is_session_call (call_of ev) = false.

(** The invariant of the manager's states. *)
Definition session_inv (w : World) : Prop :=
  current_process (self w) = None /\
  unstopped (trace w) = opt_list (vlc_player (self w)) /\
  Forall (fun p => (p < next_handle w)%nat) (created (trace w)).

(** The handler of [play_audio_vlc] (lines 138-139). *)
Definition vlc_error (e : Exn) : M (bool * string) :=
  ret (false, "VLC error: " ++ str e).

(** *** Progress polling *)

(** The position and length that [update_progress] polls from [w], if the
    test [self.is_playing and self.mic.is_playing()] passes. *)
Definition progress_inputs (E : Env) (app : VirtualMicApp.App) (w : World)
  : option (Z * Z) :=
  if VirtualMicApp.is_playing app then
    match vlc_player (self w) with
    | Some p =>
        if backend_get E (trace w) (CIsPlaying p) =? 0 then None
        else
          Some (backend_get E (trace w ++ [Done (CIsPlaying p)]) (CGetTime p),
                backend_get E (trace w ++ [Done (CIsPlaying p); Done (CGetTime p)])
                  (CGetLength p))
    | None => None
    end
  else None.

(** The values handed to the progress bar among [evs]. *)
Fixpoint reported (evs : list Event) : list Z :=
  match evs with
  | [] => []
  | Done (CSetValue v) :: rest => v :: reported rest
  | _ :: rest => reported rest
  end.

(** *** Claim C1 as stated, for sequences of Play calls *)

(** The state after playing [paths] one after the other, together with the
    handle held right after the most recent call that returned success. *)
Fixpoint play_all (E : Env) (paths : list string) (w : World) (last : option Player)
  : World * option Player :=
  match paths with
  | [] => (w, last)
  | audio_path :: rest =>
      match VirtualMicManager.play_audio_vlc E audio_path w with
      | (Ret (true, _), w') => play_all E rest w' (vlc_player (self w'))
      | (_, w') => play_all E rest w' last
      end
  end.

(** "Exactly one backend player handle exists and it belongs to the most
    recent successful Play." *)
Definition one_handle_of_last_success (E : Env) (paths : list string) : Prop :=
  let '(w, last) := play_all E paths initial_world None in
  exists p, vlc_player (self w) = Some p /\ last = Some p.

(** ** Sample environments *)

Definition tab : string := String (ascii_of_nat 9) "".
Definition nl : string := String PyStr.newline "".

Fixpoint cmd_eqb (a b : list string) : bool :=
  match a, b with
  | [], [] => true
  | x :: a', y :: b' => (x =? y)%string && cmd_eqb a' b'
  | _, _ => false
  end.

(** A module listing as [pactl list modules short] prints it. *)
Definition sample_modules : string :=
  "7" ++ tab ++ "module-alsa-card" ++ tab ++ "device_id=0 name=pci-0000" ++ nl ++
  "23" ++ tab ++ "module-null-sink" ++ tab ++ "sink_name=Real4n54n rate=48000" ++ nl ++
  "9" ++ tab ++ "module-Loopback" ++ tab ++ "source=alsa_input.pci" ++ nl ++
  "110" ++ tab ++ "module-remap-source" ++ tab ++ "master=alsa_input.pci" ++ nl.

Definition sample_sources : string :=
  "0" ++ tab ++ "alsa_input.pci" ++ tab ++ "module-alsa-card.c" ++ nl ++
  "57" ++ tab ++ "Real4n54n.monitor" ++ tab ++ "module-null-sink.c" ++ nl.

(** [pactl] with the listing above; unloading module 23 times out and
    unloading module 9 is refused. *)
Definition sample_run (t : list Event) (cmd : list string) (timeout : Z)
  : PyResult CompletedProcess :=
  if cmd_eqb cmd VirtualMicManager.list_modules_cmd
  then Ret {| returncode := 0; stdout := sample_modules; stderr := "" |}
  else if cmd_eqb cmd (VirtualMicManager.unload_cmd "23") then Raise TimeoutExpired
  else if cmd_eqb cmd (VirtualMicManager.unload_cmd "9")
  then Ret {| returncode := 1; stdout := "";
              stderr := "Failure: Module unload failed" ++ nl |}
  else if cmd_eqb cmd (VirtualMicManager.load_cmd "Real4n54n")
  then Ret {| returncode := 0; stdout := "26" ++ nl; stderr := "" |}
  else if cmd_eqb cmd VirtualMicManager.list_sources_cmd
  then Ret {| returncode := 0; stdout := sample_sources; stderr := "" |}
  else Ret {| returncode := 0; stdout := ""; stderr := "" |}.

(** A machine on which one clip exists and the backend always obliges. *)
Definition sample_env : Env :=
  {| subprocess_run := sample_run;
     os_path_exists := fun _ path => (path =? "/music/clip.wav")%string;
     backend := fun _ _ => Ret 0;
     backend_get := fun _ c =>
                      match c with
                      | CGetTime _ => 500
                      | CGetLength _ => 2000
                      | _ => 1
                      end |}.

(** The same machine with a backend that refuses to start its second
    player (the player numbered 3: the first Play uses the handles 0, 1
    and 2 for the instance, the player and the media). *)
Definition refusing_env : Env :=
  {| subprocess_run := sample_run;
     os_path_exists := fun _ _ => true;
     backend := fun _ c => match c with
                           | CPlay 3%nat => Ret (-1)
                           | _ => Ret 0
                           end;
     backend_get := fun _ _ => 0 |}.

(** The same machine whose source listing does not show the monitor. *)
Definition hidden_env : Env :=
  {| subprocess_run := fun t cmd timeout =>
                         if cmd_eqb cmd VirtualMicManager.list_sources_cmd
                         then Ret {| returncode := 0; stdout := ""; stderr := "" |}
                         else sample_run t cmd timeout;
     os_path_exists := fun _ _ => false;
     backend := fun _ _ => Raise (OtherError "libvlc unavailable");
     backend_get := fun _ _ => 0 |}.

(** A backend whose [stop] raises. *)
Definition stubborn_env : Env :=
  {| subprocess_run := sample_run;
     os_path_exists := fun _ _ => true;
     backend := fun _ c => match c with
                           | CStop _ => Raise (OtherError "stop failed")
                           | _ => Ret 0
                           end;
     backend_get := fun _ _ => 0 |}.

(** [pactl] answering the module listing with [out]. *)
Definition listing_env (out : string) : Env :=
  {| subprocess_run := fun t cmd timeout =>
                         if cmd_eqb cmd VirtualMicManager.list_modules_cmd
                         then Ret {| returncode := 0; stdout := out; stderr := "" |}
                         else sample_run t cmd timeout;
     os_path_exists := fun _ _ => false;
     backend := fun _ _ => Ret 0;
     backend_get := fun _ _ => 0 |}.

(** The matched modules of the sample listing with their sort keys. *)
Definition sample_keys : list (Z * (string * string)) :=
  Eval vm_compute in
    match VirtualMicManager.sort_keys
            (VirtualMicManager.scan_modules (PyStr.split_lines (PyStr.strip sample_modules)) [])
    with
    | Ret ks => ks
    | Raise _ => []
    end.

(** ** Further notions: the manager beyond the claims *)

Definition is_done (ev : Event) : bool :=
  match ev with Done _ => true | Failed _ => false end.

(** The backend steps of a Play that got as far as [play()]: creation of
    the player, routing to the PulseAudio output and to the device
    [name], loading of the media, and the start request. *)
Definition play_steps (i : Instance) (p : Player) (m : Media) (name audio_path : string)
  : list Event :=
  [Done (CPlayerNew i p);
   Done (CAudioOutputSet p "pulse");
   Done (CAudioOutputDeviceSet p name);
   Done (CMediaNew i audio_path m);
   Done (CSetMedia p m);
   Done (CPlay p)].

(** The libVLC instances created, in order. *)
Fixpoint instances (evs : list Event) : list Instance :=
  match evs with
  | [] => []
  | Done (CInstance _ i) :: rest => i :: instances rest
  | _ :: rest => instances rest
  end.

(** Announcements, sleeps and subprocess calls: the steps of the [pactl]
    side of the manager. *)
Definition is_pactl_step (c : Call) : bool :=
  match c with
  | CPrint _ | CSleep _ | CRun _ _ => true
  | _ => false
  end.

(** Steps that create no libVLC instance. *)
Definition no_instance (ev : Event) : Prop :=
  match ev with Done (CInstance _ _) => False | _ => True end.

(** What holds of the manager in every state reached from the initial
    one: the device name is the one set by [__init__], and the instance
    held, if any, is the only one ever created. *)
Definition manager_inv (w : World) : Prop :=
  mic_name (self w) = mic_name VirtualMicManager.init /\
  instances (trace w) = opt_list (vlc_instance (self w)).

(** No blank character occurs in [s]. *)
Fixpoint no_blank (s : string) : bool :=
  match s with
  | EmptyString => true
  | String c s' => negb (PyStr.isspace c) && no_blank s'
  end.

(** The first matched module whose number is not an integer literal. *)
Fixpoint first_malformed (l : list (string * string)) : option string :=
  match l with
  | [] => None
  | x :: rest =>
      match PyStr.int (fst x) with
      | None => Some (fst x)
      | Some _ => first_malformed rest
      end
  end.

(** [module_id] denotes the integer [n]. *)
Definition has_number (n : Z) (module_id : string) : bool :=
  match PyStr.int module_id with
  | Some k => k =? n
  | None => false
  end.

(** [pactl] timing out on every call. *)
Definition unreachable_env : Env :=
  {| subprocess_run := fun _ _ _ => Raise TimeoutExpired;
     os_path_exists := fun _ _ => true;
     backend := fun _ _ => Ret 0;
     backend_get := fun _ _ => 0 |}.

(** A listing with two spellings of the module number 5 and a line that
    matches no keyword. *)
Definition tied_modules : string :=
  "5" ++ tab ++ "module-loopback" ++ nl ++
  "12" ++ tab ++ "module-remap-sink" ++ nl ++
  "3" ++ tab ++ "module-alsa-card" ++ nl ++
  "05" ++ tab ++ "module-null-sink".

Definition tied_keys : list (Z * (string * string)) :=
  Eval vm_compute in
    match VirtualMicManager.sort_keys
            (VirtualMicManager.scan_modules (PyStr.split_lines tied_modules) [])
    with
    | Ret ks => ks
    | Raise _ => []
    end.

(** A routing request names the PulseAudio output and the device [name]. *)
Definition routed (name : string) (ev : Event) : Prop :=
  match call_of ev with
  | CAudioOutputSet _ output => output = "pulse"
  | CAudioOutputDeviceSet _ device => device = name
  | _ => True
  end.

(** How one operation may change the instance held: an instance held is
    kept and no other is created; without one, the instances created are
    exactly the one held afterwards, if any. *)
Definition instance_step (m m' : Manager) (evs : list Event) : Prop :=
  match vlc_instance m with
  | Some i => instances evs = [] /\ vlc_instance m' = Some i
  | None => instances evs = opt_list (vlc_instance m')
  end.

(** Calls that neither create a libVLC instance nor route a player. *)
Definition is_plain_call (c : Call) : bool :=
  match c with
  | CInstance _ _ | CAudioOutputSet _ _ | CAudioOutputDeviceSet _ _ => false
  | _ => true
  end.

Definition plain (ev : Event) : Prop := is_plain_call (call_of ev) = true.

(** ** class VirtualMicApp: the slots of the window

    The window is the record of the attributes and widget properties that
    the slots read or write.  A [QListWidgetItem] is an object: it
    carries a number that tells it from every other item.  The clock read
    by [log_to_terminal] is the parameter [clock]: the time text at the
    n-th line written to the terminal.  Style sheets are kept as the
    choice between the two that the source uses for the send button; the
    scroll-bar adjustment of the terminal is left out.  The return of a
    Qt dialog, the selection of the list and the result of [os.walk] are
    arguments of the slots that read them.  The worker thread of
    [setup_mic] is not part of the model. *)

Module Window.

(** A list entry: its text and its [Qt.UserRole] data. *)
Record Item : Type := {
  item_id : nat;
  text : string;
  data : string
}.

(** The two style sheets of the send button: the one of [setup_ui],
    [on_playback_finished] and [stop_audio] (background #4a90e2) and the
    one set by a successful [play_audio] (background #2a70c2). *)
Inductive Style : Type := IdleStyle | PlayingStyle.

(** [check_playback_timer] is [None] until the first successful
    [play_audio] creates the attribute; then it holds whether the timer is
    active. *)
Record State : Type := {
  app : VirtualMicApp.App;
  current_file : option string;
  play_btn : bool;
  stop_btn : bool;
  play_btn_style : Style;
  check_playback_timer : option bool;
  file_list : list Item;
  next_item : nat;
  file_count : nat;
  file_count_label : string;
  terminal_display : list string;
  status_label : string
}.

Definition set_app (v : VirtualMicApp.App) (win : State) : State :=
  {| app := v; current_file := current_file win; play_btn := play_btn win;
     stop_btn := stop_btn win; play_btn_style := play_btn_style win;
     check_playback_timer := check_playback_timer win; file_list := file_list win;
     next_item := next_item win; file_count := file_count win;
     file_count_label := file_count_label win;
     terminal_display := terminal_display win; status_label := status_label win |}.

Definition set_current_file (v : option string) (win : State) : State :=
  {| app := app win; current_file := v; play_btn := play_btn win;
     stop_btn := stop_btn win; play_btn_style := play_btn_style win;
     check_playback_timer := check_playback_timer win; file_list := file_list win;
     next_item := next_item win; file_count := file_count win;
     file_count_label := file_count_label win;
     terminal_display := terminal_display win; status_label := status_label win |}.

Definition set_play_btn (v : bool) (win : State) : State :=
  {| app := app win; current_file := current_file win; play_btn := v;
     stop_btn := stop_btn win; play_btn_style := play_btn_style win;
     check_playback_timer := check_playback_timer win; file_list := file_list win;
     next_item := next_item win; file_count := file_count win;
     file_count_label := file_count_label win;
     terminal_display := terminal_display win; status_label := status_label win |}.

Definition set_stop_btn (v : bool) (win : State) : State :=
  {| app := app win; current_file := current_file win; play_btn := play_btn win;
     stop_btn := v; play_btn_style := play_btn_style win;
     check_playback_timer := check_playback_timer win; file_list := file_list win;
     next_item := next_item win; file_count := file_count win;
     file_count_label := file_count_label win;
     terminal_display := terminal_display win; status_label := status_label win |}.

Definition set_play_btn_style (v : Style) (win : State) : State :=
  {| app := app win; current_file := current_file win; play_btn := play_btn win;
     stop_btn := stop_btn win; play_btn_style := v;
     check_playback_timer := check_playback_timer win; file_list := file_list win;
     next_item := next_item win; file_count := file_count win;
     file_count_label := file_count_label win;
     terminal_display := terminal_display win; status_label := status_label win |}.

Definition set_check_playback_timer (v : option bool) (win : State) : State :=
  {| app := app win; current_file := current_file win; play_btn := play_btn win;
     stop_btn := stop_btn win; play_btn_style := play_btn_style win;
     check_playback_timer := v; file_list := file_list win; next_item := next_item win;
     file_count := file_count win; file_count_label := file_count_label win;
     terminal_display := terminal_display win; status_label := status_label win |}.

Definition set_file_list (v : list Item) (win : State) : State :=
  {| app := app win; current_file := current_file win; play_btn := play_btn win;
     stop_btn := stop_btn win; play_btn_style := play_btn_style win;
     check_playback_timer := check_playback_timer win; file_list := v;
     next_item := next_item win; file_count := file_count win;
     file_count_label := file_count_label win;
     terminal_display := terminal_display win; status_label := status_label win |}.

Definition set_next_item (v : nat) (win : State) : State :=
  {| app := app win; current_file := current_file win; play_btn := play_btn win;
     stop_btn := stop_btn win; play_btn_style := play_btn_style win;
     check_playback_timer := check_playback_timer win; file_list := file_list win;
     next_item := v; file_count := file_count win;
     file_count_label := file_count_label win;
     terminal_display := terminal_display win; status_label := status_label win |}.

Definition set_file_count (v : nat) (win : State) : State :=
  {| app := app win; current_file := current_file win; play_btn := play_btn win;
     stop_btn := stop_btn win; play_btn_style := play_btn_style win;
     check_playback_timer := check_playback_timer win; file_list := file_list win;
     next_item := next_item win; file_count := v;
     file_count_label := file_count_label win;
     terminal_display := terminal_display win; status_label := status_label win |}.

Definition set_file_count_label (v : string) (win : State) : State :=
  {| app := app win; current_file := current_file win; play_btn := play_btn win;
     stop_btn := stop_btn win; play_btn_style := play_btn_style win;
     check_playback_timer := check_playback_timer win; file_list := file_list win;
     next_item := next_item win; file_count := file_count win; file_count_label := v;
     terminal_display := terminal_display win; status_label := status_label win |}.

Definition set_terminal_display (v : list string) (win : State) : State :=
  {| app := app win; current_file := current_file win; play_btn := play_btn win;
     stop_btn := stop_btn win; play_btn_style := play_btn_style win;
     check_playback_timer := check_playback_timer win; file_list := file_list win;
     next_item := next_item win; file_count := file_count win;
     file_count_label := file_count_label win; terminal_display := v;
     status_label := status_label win |}.

Definition set_status_label (v : string) (win : State) : State :=
  {| app := app win; current_file := current_file win; play_btn := play_btn win;
     stop_btn := stop_btn win; play_btn_style := play_btn_style win;
     check_playback_timer := check_playback_timer win; file_list := file_list win;
     next_item := next_item win; file_count := file_count win;
     file_count_label := file_count_label win;
     terminal_display := terminal_display win; status_label := v |}.

Definition set_is_playing (b : bool) (win : State) : State :=
  set_app {| VirtualMicApp.is_playing := b;
             VirtualMicApp.progress_bar := VirtualMicApp.progress_bar (app win) |} win.

(** [f"{n}"] for a count. *)
Definition decimal (n : nat) : string := NilEmpty.string_of_uint (Nat.to_uint n).

(** [os.path.join(a, b)] *)
Definition ends_with_slash (s : string) : bool :=
  match String.get (String.length s - 1) s with
  | Some c => Ascii.eqb c "/"%char
  | None => false
  end.

Definition join (a b : string) : string :=
  if String.prefix "/" b then b
  else if PyStr.is_empty a || ends_with_slash a then a ++ b
  else a ++ "/" ++ b.

(** [s.rfind(c)]: the index of the last occurrence, if any. *)
Fixpoint rfind_from (c : ascii) (s : string) (i : nat) (last : option nat) : option nat :=
  match s with
  | EmptyString => last
  | String d s' => rfind_from c s' (S i) (if Ascii.eqb d c then Some i else last)
  end.

Definition rfind (c : ascii) (s : string) : option nat := rfind_from c s 0%nat None.

(** Some character of [s] at a position in [lo, hi) is not [c]; [i] is the
    position of the head of [s]. *)
Fixpoint differs_between (c : ascii) (s : string) (i lo hi : nat) : bool :=
  match s with
  | EmptyString => false
  | String d s' =>
      ((lo <=? i)%nat && (i <? hi)%nat && negb (Ascii.eqb d c))
      || differs_between c s' (S i) lo hi
  end.

(** [os.path.splitext(p)]: the extension starts at the last dot, provided
    that dot comes after the last slash and after a character of the
    file name that is not a dot. *)
Definition splitext (p : string) : string * string :=
  match rfind "."%char p with
  | None => (p, "")
  | Some dotIndex =>
      let filenameIndex :=
        match rfind "/"%char p with Some sepIndex => S sepIndex | None => 0%nat end in
      if (filenameIndex <=? dotIndex)%nat
         && differs_between "."%char p 0 filenameIndex dotIndex
      then (String.substring 0 dotIndex p,
            String.substring dotIndex (String.length p - dotIndex) p)
      else (p, "")
  end.

(** The set of lines 656-659. *)
Definition audio_extensions : list string :=
  [".mp3"; ".wav"; ".ogg"; ".flac"; ".m4a"; ".aac"; ".wma";
   ".mp4"; ".m4v"; ".mkv"; ".avi"; ".mov"; ".wmv"].

Definition is_audio_file (file : string) : bool :=
  existsb (String.eqb (PyStr.lower (snd (splitext file)))) audio_extensions.

(** The loop "Check if already in list" of lines 667-673 and 697-703. *)
Definition existing (file_path : string) (l : list Item) : bool :=
  existsb (fun item => (data item =? file_path)%string) l.

(** Creation of an item and [addItem]. *)
Definition add_item (item_text file_path : string) (win : State) : State :=
  set_next_item (S (next_item win))
    (set_file_list
       (file_list win
        ++ [{| item_id := next_item win; text := item_text; data := file_path |}])
       win).

(** [takeItem(row(item))]: the entry that is this very item leaves the
    list; nothing happens if the item is not in it. *)
Fixpoint take_item (item : Item) (l : list Item) : list Item :=
  match l with
  | [] => []
  | x :: rest =>
      if (item_id x =? item_id item)%nat then rest else x :: take_item item rest
  end.

Section Slots.

Variable E : Env.
Variable clock : nat -> string.

(** [log_to_terminal] (lines 597-611) *)
Definition log_to_terminal (message : string) (win : State) : State :=
  set_status_label message
    (set_terminal_display
       (terminal_display win
        ++ ["[" ++ clock (length (terminal_display win)) ++ "] " ++ message])
       win).

(** [update_file_count] (lines 613-616) *)
Definition update_file_count (win : State) : State :=
  set_file_count_label ("Files: " ++ decimal (length (file_list win)))
    (set_file_count (length (file_list win)) win).

(** The loops of [browse_folder] (lines 662-679): over the files of one
    directory, then over the directories of the walk. *)
Fixpoint browse_files (root : string) (files : list string) (acc : State * nat)
  : State * nat :=
  match files with
  | [] => acc
  | file :: rest =>
      let '(win, added_count) := acc in
      if is_audio_file file then
        let file_path := join root file in
        if existing file_path (file_list win) then browse_files root rest acc
        else browse_files root rest (add_item file file_path win, S added_count)
      else browse_files root rest acc
  end.

Fixpoint browse_walk (walk : list (string * list string * list string))
  (acc : State * nat) : State * nat :=
  match walk with
  | [] => acc
  | (root, dirs, files) :: rest => browse_walk rest (browse_files root files acc)
  end.

(** [browse_folder] (lines 649-685); [folder] is what the directory
    dialog returned and [walk] what [os.walk(folder)] yields. *)
Definition browse_folder (folder : string)
  (walk : list (string * list string * list string)) (win : State) : State :=
  if PyStr.is_empty folder then win
  else
    let '(win', added_count) := browse_walk walk (win, 0%nat) in
    if (0 <? added_count)%nat then
      update_file_count
        (log_to_terminal ("Listed " ++ decimal added_count ++ " audio files from folder")
           win')
    else log_to_terminal "No audio files found in selected folder" win'.

(** The loop of [add_files] (lines 694-709). *)
Fixpoint add_files_loop (files : list string) (acc : State * nat) : M (State * nat) :=
  match files with
  | [] => ret acc
  | file_path :: rest =>
      let '(win, added_count) := acc in
      found <- path_exists E file_path ;;
      if (found : bool) then
        if existing file_path (file_list win) then add_files_loop rest acc
        else add_files_loop rest
               (add_item (PyStr.basename file_path) file_path win, S added_count)
      else add_files_loop rest acc
  end.

(** [add_files] (lines 687-713); [files] is what the file dialog returned. *)
Definition add_files (files : list string) (win : State) : M State :=
  r <- add_files_loop files (win, 0%nat) ;;
  let '(win', added_count) := r in
  if (0 <? added_count)%nat then
    ret (update_file_count
           (log_to_terminal ("Added " ++ decimal added_count ++ " audio files") win'))
  else ret win'.

(** [remove_files] (lines 715-726); [items] is [selectedItems()]. *)
Fixpoint remove_each (items : list Item) (win : State) : State :=
  match items with
  | [] => win
  | item :: rest =>
      remove_each rest
        (log_to_terminal ("Removed '" ++ text item ++ "'")
           (set_file_list (take_item item (file_list win)) win))
  end.

Definition remove_files (items : list Item) (win : State) : State :=
  match items with
  | [] => win
  | _ => update_file_count (remove_each items win)
  end.

(** [clear_files] (lines 728-733) *)
Definition clear_files (win : State) : State :=
  if (0 <? length (file_list win))%nat then
    update_file_count (log_to_terminal "Cleared all audio files" (set_file_list [] win))
  else win.

(** [on_playback_finished] (lines 782-811) *)
Definition on_playback_finished (win : State) : M State :=
  let win1 :=
    set_play_btn_style IdleStyle
      (set_stop_btn false (set_play_btn true (set_is_playing false win))) in
  match current_file win1 with
  | Some file =>
      if PyStr.is_empty file then ret win1
      else
        let win2 :=
          log_to_terminal ("Finished sending '" ++ PyStr.basename file ++ "'") win1 in
        a <- VirtualMicApp.setValue (app win2) 100 ;;
        ret (set_app a win2)
  | None => ret win1
  end.

(** [check_playback_completion] (lines 776-780); stopping a timer that was
    never created is an [AttributeError]. *)
Definition check_playback_completion (win : State) : M State :=
  playing <- VirtualMicManager.is_playing E ;;
  if negb playing then
    match check_playback_timer win with
    | Some _ => on_playback_finished (set_check_playback_timer (Some false) win)
    | None =>
        raise (OtherError
                 "'VirtualMicApp' object has no attribute 'check_playback_timer'")
    end
  else ret win.

(** [play_audio] (lines 735-774); [items] is [selectedItems()]. *)
Definition play_audio (items : list Item) (win : State) : M State :=
  match items with
  | [] => ret (log_to_terminal "Please select an audio file first" win)
  | item :: _ =>
      let win1 := set_current_file (Some (data item)) win in
      let filename := PyStr.basename (data item) in
      let win2 :=
        log_to_terminal ("Sending audio '" ++ filename ++ "'")
          (set_stop_btn true (set_play_btn false win1)) in
      r <- VirtualMicManager.play_audio_vlc E (data item) ;;
      let '(success, message) := r in
      if (success : bool) then
        ret (set_check_playback_timer (Some true)
               (set_play_btn_style PlayingStyle (set_is_playing true win2)))
      else
        ret (set_stop_btn false
               (set_play_btn true (log_to_terminal ("ERROR: " ++ message) win2)))
  end.

(** [stop_audio] (lines 813-843) *)
Definition stop_audio (win : State) : M State :=
  VirtualMicManager.stop_playback E ;;
  let win1 :=
    log_to_terminal "Stopping audio..."
      (set_play_btn_style IdleStyle
         (set_stop_btn false (set_play_btn true (set_is_playing false win)))) in
  a <- VirtualMicApp.setValue (app win1) 0 ;;
  let win2 := set_app a win1 in
  match check_playback_timer win2 with
  | Some _ => ret (set_check_playback_timer (Some false) win2)
  | None => ret win2
  end.

(** [closeEvent] (lines 855-859); it returns once the event is accepted. *)
Definition closeEvent : M unit :=
  VirtualMicManager.stop_playback E ;;
  VirtualMicManager.cleanup_all E ;;
  ret tt.

End Slots.

End Window.

(** ** Further notions: the window *)

(** The slots that drive playback: a click on the send button with the
    current selection, a click on the stop button, a timeout of the
    completion timer and a timeout of the progress timer. *)
Inductive Slot : Type :=
| SlotPlay (items : list Window.Item)
| SlotStop
| SlotTick
| SlotProgress.

(** The window and the world after a slot returned; a slot that raised
    leaves the window as it was. *)
Definition after_slot (win : Window.State) (r : PyResult Window.State * World)
  : Window.State * World :=
  match r with
  | (Ret win', w') => (win', w')
  | (Raise _, w') => (win, w')
  end.

(** One event of the GUI loop.  A button fires its slot only while it is
    enabled, and the completion timer only while it is active. *)
Definition fire (E : Env) (clock : nat -> string) (float_percent : Z -> Z -> Z)
  (slot : Slot) (st : Window.State * World) : Window.State * World :=
  let '(win, w) := st in
  match slot with
  | SlotPlay items =>
      if Window.play_btn win then after_slot win (Window.play_audio E clock items win w)
      else st
  | SlotStop =>
      if Window.stop_btn win then after_slot win (Window.stop_audio E clock win w)
      else st
  | SlotTick =>
      match Window.check_playback_timer win with
      | Some true => after_slot win (Window.check_playback_completion E clock win w)
      | _ => st
      end
  | SlotProgress =>
      match VirtualMicApp.update_progress E float_percent (Window.app win) w with
      | (Ret a, w') => (Window.set_app a win, w')
      | (Raise _, w') => (win, w')
      end
  end.

Definition run_slots (E : Env) (clock : nat -> string) (float_percent : Z -> Z -> Z)
  (slots : list Slot) (st : Window.State * World) : Window.State * World :=
  fold_left (fun st slot => fire E clock float_percent slot st) slots st.

(** How the playing flag is tied to the widgets and to the manager. *)
Definition window_inv (st : Window.State * World) : Prop :=
  let '(win, w) := st in
  let playing := VirtualMicApp.is_playing (Window.app win) in
  (playing = true <-> Window.check_playback_timer win = Some true) /\
  Window.stop_btn win = playing /\
  Window.play_btn_style win = (if playing then Window.PlayingStyle else Window.IdleStyle) /\
  (playing = true -> Window.play_btn win = false /\ vlc_player (self w) <> None).

(** A window right after a successful provisioning: nothing listed,
    nothing playing, the send button enabled. *)
Definition ready_window : Window.State :=
  {| Window.app := {| VirtualMicApp.is_playing := false;
                      VirtualMicApp.progress_bar := 0 |};
     Window.current_file := None;
     Window.play_btn := true;
     Window.stop_btn := false;
     Window.play_btn_style := Window.IdleStyle;
     Window.check_playback_timer := None;
     Window.file_list := [];
     Window.next_item := 0%nat;
     Window.file_count := 0%nat;
     Window.file_count_label := "Files: 0";
     Window.terminal_display := [];
     Window.status_label := "Ready" |}.

(** A clock for the examples. *)
Definition noon (n : nat) : string := "12:00:00".

(** The slots that edit the file list, each with what its dialog or
    the selection handed to it. *)
Inductive FileOp : Type :=
| FAdd (files : list string)
| FBrowse (folder : string) (walk : list (string * list string * list string))
| FRemove (items : list Window.Item)
| FClear.

Definition run_file_op (E : Env) (clock : nat -> string) (op : FileOp)
  (st : Window.State * World) : Window.State * World :=
  let '(win, w) := st in
  match op with
  | FAdd files => after_slot win (Window.add_files E clock files win w)
  | FBrowse folder walk => (Window.browse_folder clock folder walk win, w)
  | FRemove items => (Window.remove_files clock items win, w)
  | FClear => (Window.clear_files clock win, w)
  end.

Definition run_file_ops (E : Env) (clock : nat -> string) (ops : list FileOp)
  (st : Window.State * World) : Window.State * World :=
  fold_left (fun st op => run_file_op E clock op st) ops st.

(** The entries of the list: no path twice, no item twice, every item
    numbered below the next free number. *)
Definition list_inv (win : Window.State) : Prop :=
  NoDup (map Window.data (Window.file_list win)) /\
  NoDup (map Window.item_id (Window.file_list win)) /\
  Forall (fun item => (Window.item_id item < Window.next_item win)%nat)
    (Window.file_list win).

(** The counter and its label show the length of the list. *)
Definition count_inv (win : Window.State) : Prop :=
  Window.file_count win = length (Window.file_list win) /\
  Window.file_count_label win
  = "Files: " ++ Window.decimal (length (Window.file_list win)).

Definition files_inv (win : Window.State) : Prop := list_inv win /\ count_inv win.

(** A directory walk for the examples. *)
Definition sample_walk : list (string * list string * list string) :=
  [("/music", ["old"], ["clip.wav"; "notes.txt"; "Song.MP3"; ".mp3"]);
   ("/music/old", [], ["clip.wav"; "tape.ogg"])].

(** [win'] is [win] with the entries [added] appended to its list, the
    counter and its label not yet refreshed. *)
Definition grows (win win' : Window.State) (added : list Window.Item) : Prop :=
  Window.file_list win' = (Window.file_list win ++ added)%list /\
  Window.next_item win' = (Window.next_item win + length added)%nat /\
  Window.file_count win' = Window.file_count win /\
  Window.file_count_label win' = Window.file_count_label win.

(** [item] is none of [items]. *)
Definition not_selected (items : list Window.Item) (item : Window.Item) : bool :=
  negb (existsb (fun x => (Window.item_id item =? Window.item_id x)%nat) items).

(** [p] is one of [files] and [os.path.exists] said yes when the loop of
    [add_files], started in [w], asked about it. *)
Definition found_at (E : Env) (w : World) (files : list string) (p : string) : Prop :=
  exists before after,
    files = (before ++ p :: after)%list /\
    os_path_exists E
      (trace w ++ map (fun file_path => Done (CExists file_path)) before) p = true.

(** An entry of the list, and the window and the world after a click on
    the send button with that entry selected. *)
Definition sample_item : Window.Item :=
  {| Window.item_id := 0; Window.text := "clip.wav"; Window.data := "/music/clip.wav" |}.

Definition playing_state : Window.State * World :=
  fire sample_env noon (fun _ _ => 50) (SlotPlay [sample_item])
    (ready_window, initial_world).

(** ** Further notions: the claims as stated *)

(** One step of the strict bookkeeping of players: a created player is
    added, and only a stop request that returned removes one. *)
Definition live_step (acc : list Player) (ev : Event) : list Player :=
  match ev with
  | Done (CPlayerNew _ p) => acc ++ [p]
  | Done (CStop p) => remove Nat.eq_dec p acc
  | _ => acc
  end.

(** The players created and not stopped. *)
Definition live (t : list Event) : list Player := fold_left live_step t [].

(** The players whose stop request raised, in the order of the requests:
    [stop_playback] drops their handle without stopping or releasing
    them (lines 145-150). *)
Fixpoint leaked (evs : list Event) : list Player :=
  match evs with
  | [] => []
  | Failed (CStop p) :: rest => p :: leaked rest
  | _ :: rest => leaked rest
  end.

(** The strict invariant of the manager's states. *)
Definition live_inv (w : World) : Prop :=
  current_process (self w) = None /\
  live (trace w) = (leaked (trace w) ++ opt_list (vlc_player (self w)))%list /\
  NoDup (live (trace w)) /\
  Forall (fun p => (p < next_handle w)%nat) (live (trace w)).

(** "The prior backend player, if any, is stopped and its resources
    released before a new player is created", for the call
    [play_audio_vlc audio_path] made in the state [w]. *)
Definition prior_stopped_and_released (E : Env) (w : World) (audio_path : string) : Prop :=
  forall p,
    vlc_player (self w) = Some p ->
    forall pre i q post,
      new_events w (snd (VirtualMicManager.play_audio_vlc E audio_path w))
      = (pre ++ Done (CPlayerNew i q) :: post)%list ->
      In (Done (CStop p)) pre /\ In (Done (CRelease p)) pre.

(** "At most one playback session is active", after playing [paths] one
    after the other. *)
Definition at_most_one_live (E : Env) (paths : list string) : Prop :=
  (length (live (trace (fst (play_all E paths initial_world None)))) <= 1)%nat.

(** "[setup] returns a failure result exactly when the creation call
    reports a non-zero exit status or its stdout is not a string of
    decimal digits", for the call made in the state [w]. *)
Definition failure_iff_bad_creation (E : Env) (w : World) : Prop :=
  forall rc out err,
    fst (create_device E w) = Ret (rc, out, err) ->
    ((exists msg, fst (VirtualMicManager.setup E w) = Ret (false, msg))
     <-> (rc <> 0 \/ PyStr.isdigit out = false)).

(** A backend whose [release] raises. *)
Definition clinging_env : Env :=
  {| subprocess_run := sample_run;
     os_path_exists := fun _ _ => true;
     backend := fun _ c => match c with
                           | CRelease _ => Raise (OtherError "release failed")
                           | _ => Ret 0
                           end;
     backend_get := fun _ _ => 0 |}.

(** Stop, unload and load requests. *)
Definition is_teardown_or_load (ev : Event) : bool :=
  is_stop_call (call_of ev) || is_unload_call (call_of ev) || is_load_call (call_of ev).

(** The sample machine with a [pactl] that answers the creation request
    with status zero and a text that is not a module number. *)
Definition garbled_env : Env :=
  {| subprocess_run := fun t cmd timeout =>
                         if cmd_eqb cmd (VirtualMicManager.load_cmd "Real4n54n")
                         then Ret {| returncode := 0; stdout := "+26" ++ nl;
                                     stderr := "W: odd answer" ++ nl |}
                         else sample_run t cmd timeout;
     os_path_exists := fun _ _ => false;
     backend := fun _ _ => Ret 0;
     backend_get := fun _ _ => 0 |}.

(** ** Basic facts *)

Lemma extend_nil w : extend w [] = w.
Proof. destruct w; unfold extend; simpl; now rewrite app_nil_r. Qed.

Lemma extend_extend w a b : extend (extend w a) b = extend w (a ++ b).
Proof. unfold extend; simpl; now rewrite app_assoc. Qed.

Lemma new_events_extend w evs : new_events w (extend w evs) = evs.
Proof.
  unfold new_events, extend; simpl.
  rewrite skipn_app, skipn_all, Nat.sub_diag; reflexivity.
Qed.

Lemma log_extend ev w : log ev w = (Ret tt, extend w [ev]).
Proof. reflexivity. Qed.

Lemma run_cmd_eq E cmd timeout w :
  run_cmd E cmd timeout w
  = (Ret (run_cmd_result E (trace w) cmd timeout),
     extend w [run_cmd_event E (trace w) cmd timeout]).
Proof.
  unfold run_cmd, try_except, bind, subprocess_run_call, run_cmd_result, run_cmd_event.
  destruct (subprocess_run E (trace w) cmd timeout) as [r|e]; simpl.
  - reflexivity.
  - destruct e; reflexivity.
Qed.

(** *** C10 *)

(** C10. [run_cmd] is total: whatever [subprocess.run] does, it returns a
    triple and never raises.  If the process completed, the triple is its
    exit code with stripped stdout and stderr; on a timeout it is
    [(1, "", "Timeout")]; on any other exception [e] it is [(1, "", str(e))].
    In the two failure cases the code is therefore non-zero. *)
Theorem run_cmd_total (E : Env) (cmd : list string) (timeout : Z) (w : World) :
  exists rc out err,
    fst (run_cmd E cmd timeout w) = Ret (rc, out, err) /\
    match subprocess_run E (trace w) cmd timeout with
    | Ret r =>
        rc = returncode r /\ out = PyStr.strip (stdout r)
        /\ err = PyStr.strip (stderr r)
    | Raise TimeoutExpired => rc = 1 /\ out = "" /\ err = "Timeout"
    | Raise e => rc = 1 /\ out = "" /\ err = str e
    end /\
    match subprocess_run E (trace w) cmd timeout with
    | Ret _ => True
    | Raise _ => rc <> 0
    end.
Proof.
  rewrite run_cmd_eq; unfold run_cmd_result; simpl.
  destruct (subprocess_run E (trace w) cmd timeout) as [r|e].
  - exists (returncode r), (PyStr.strip (stdout r)), (PyStr.strip (stderr r)).
    repeat split.
  - destruct e; eexists 1, "", _; (split; [reflexivity|]); split;
      try (repeat split; reflexivity); discriminate.
Qed.

(** *** stop_playback *)

Lemma cleared_idem m : cleared (cleared m) = cleared m.
Proof. reflexivity. Qed.

Lemma cleared_none m :
  vlc_player m = None -> current_process m = None -> cleared m = m.
Proof. destruct m; simpl; intros -> ->; reflexivity. Qed.

Lemma stop_playback_eq E w :
  VirtualMicManager.stop_playback E w
  = (Ret tt, {| self := cleared (self w); next_handle := next_handle w;
                trace := trace w ++ stop_events E w |}).
Proof.
  destruct w as [[name inst pl pr] nh t].
  unfold VirtualMicManager.stop_playback, stop_events, cleared; simpl.
  destruct pl as [p|]; destruct pr as [q|];
    cbv [bind try_except call get_self set_vlc_player set_current_process
         put_self log ret raise player_stop_events process_stop_events
         kill_events self trace next_handle vlc_player current_process
         mic_name vlc_instance];
    repeat (rewrite <- ?app_assoc, ?app_nil_r; simpl;
            match goal with
            | |- context [backend E ?h ?c] => destruct (backend E h c); simpl
            end);
    rewrite <- ?app_assoc, ?app_nil_r; reflexivity.
Qed.

Lemma stop_events_none E w :
  vlc_player (self w) = None -> current_process (self w) = None ->
  stop_events E w = [].
Proof. unfold stop_events; intros -> ->; reflexivity. Qed.

Lemma player_stop_events_stop E t p :
  Forall (fun ev => is_stop_call (call_of ev) = true) (player_stop_events E t p).
Proof.
  unfold player_stop_events.
  repeat match goal with
    | |- context [backend E ?h ?c] => destruct (backend E h c)
    end; repeat constructor.
Qed.

Lemma process_stop_events_stop E t q :
  Forall (fun ev => is_stop_call (call_of ev) = true) (process_stop_events E t q).
Proof.
  unfold process_stop_events, kill_events.
  repeat match goal with
    | |- context [backend E ?h ?c] => destruct (backend E h c)
    end; repeat constructor.
Qed.

Lemma stop_events_stop E w :
  Forall (fun ev => is_stop_call (call_of ev) = true) (stop_events E w).
Proof.
  unfold stop_events. apply Forall_app; split.
  - destruct (vlc_player (self w)); [apply player_stop_events_stop | constructor].
  - destruct (current_process (self w)); [apply process_stop_events_stop | constructor].
Qed.

Lemma stop_playback_noop E w :
  vlc_player (self w) = None -> current_process (self w) = None ->
  VirtualMicManager.stop_playback E w = (Ret tt, w).
Proof.
  intros Hp Hq. rewrite stop_playback_eq, stop_events_none, app_nil_r by assumption.
  rewrite cleared_none by assumption. now destruct w.
Qed.



(** *** Splitting lines *)

Lemma lstrip_empty_split s :
  PyStr.lstrip s = "" -> PyStr.split_ws s "" = [].
Proof.
  induction s as [|c s IH]; simpl; [reflexivity|].
  destruct (PyStr.isspace c); [exact IH | discriminate].
Qed.

Lemma rstrip_nonempty c s : PyStr.isspace c = false -> PyStr.rstrip (String c s) <> "".
Proof.
  intros Hc; simpl. destruct (PyStr.rstrip s); [rewrite Hc|]; discriminate.
Qed.

Lemma lstrip_head s :
  PyStr.lstrip s = "" \/ exists c r, PyStr.lstrip s = String c r /\ PyStr.isspace c = false.
Proof.
  induction s as [|c s IH]; simpl; [now left|].
  destruct (PyStr.isspace c) eqn:Hc; [exact IH|].
  right; now exists c, s.
Qed.

Lemma strip_empty_split line :
  PyStr.is_empty (PyStr.strip line) = true -> PyStr.split line = [].
Proof.
  unfold PyStr.strip, PyStr.split; intros H.
  apply lstrip_empty_split.
  destruct (lstrip_head line) as [He | (c & r & He & Hc)]; [exact He|].
  rewrite He in H. pose proof (rstrip_nonempty c r Hc) as Hn.
  destruct (PyStr.rstrip (String c r)); [congruence | discriminate].
Qed.

(** The scan keeps exactly the matching lines, in order. *)
Lemma scan_modules_eq lines acc :
  VirtualMicManager.scan_modules lines acc
  = (acc ++ map (fun line => (hd "" (PyStr.split line),
                              PyStr.join " " (tl (PyStr.split line))))
                (filter line_matches lines))%list.
Proof.
  revert acc; induction lines as [|line rest IH]; intros acc; simpl.
  - now rewrite app_nil_r.
  - assert (Hm : line_matches line
                 = match PyStr.split line with
                   | _ :: _ :: _ =>
                       VirtualMicManager.is_virtual_module
                         (PyStr.join " " (tl (PyStr.split line)))
                   | _ => false
                   end).
    { unfold line_matches, module_info_of, module_fields.
      now destruct (PyStr.split line) as [|a [|b parts]]. }
    rewrite Hm; clear Hm.
    destruct (PyStr.is_empty (PyStr.strip line)) eqn:Hb.
    + rewrite (strip_empty_split _ Hb). apply IH.
    + destruct (PyStr.split line) as [|a [|b parts]] eqn:Hs; simpl; try apply IH.
      destruct (VirtualMicManager.is_virtual_module _); simpl.
      * rewrite IH, <- app_assoc, Hs. reflexivity.
      * apply IH.
Qed.

Lemma scan_modules_length out :
  length (VirtualMicManager.scan_modules (PyStr.split_lines out) []) = matching_lines out.
Proof. rewrite scan_modules_eq; simpl. now rewrite length_map. Qed.

(** *** Sorting by module number *)

Lemma insert_desc_perm {A} (x : Z * A) l :
  Permutation (VirtualMicManager.insert_desc x l) (x :: l).
Proof.
  induction l as [|y l IH]; simpl; [reflexivity|].
  destruct (fst x <? fst y); [|reflexivity].
  rewrite IH. apply perm_swap.
Qed.

Lemma sort_desc_perm {A} (l : list (Z * A)) :
  Permutation (VirtualMicManager.sort_desc l) l.
Proof.
  induction l as [|x l IH]; simpl; [reflexivity|].
  rewrite insert_desc_perm. now constructor.
Qed.

Lemma insert_desc_sorted {A} (x : Z * A) l :
  StronglySorted key_ge l -> StronglySorted key_ge (VirtualMicManager.insert_desc x l).
Proof.
  induction 1 as [|y l Hs IH Hy]; simpl.
  - repeat constructor.
  - destruct (fst x <? fst y) eqn:Hlt.
    + constructor; [exact IH|].
      rewrite (insert_desc_perm x l). constructor; [|exact Hy].
      apply Z.ltb_lt in Hlt. unfold key_ge. lia.
    + apply Z.ltb_ge in Hlt.
      constructor; [now constructor|].
      constructor; [unfold key_ge; lia|].
      eapply Forall_impl; [|exact Hy]. unfold key_ge; intros z Hz. lia.
Qed.

Lemma sort_desc_sorted {A} (l : list (Z * A)) :
  StronglySorted key_ge (VirtualMicManager.sort_desc l).
Proof.
  induction l as [|x l IH]; simpl; [constructor | now apply insert_desc_sorted].
Qed.

Lemma sorted_nodup_strict {A} (l : list (Z * A)) :
  StronglySorted key_ge l -> NoDup (map fst l) -> StronglySorted Z.gt (map fst l).
Proof.
  induction 1 as [|y l Hs IH Hy]; simpl; intros Hnd; [constructor|].
  inversion Hnd as [|? ? Hnotin Hnd']; subst.
  constructor; [now apply IH|].
  apply Forall_forall; intros k Hk.
  apply in_map_iff in Hk as (z & <- & Hz).
  rewrite Forall_forall in Hy. specialize (Hy z Hz). unfold key_ge in Hy.
  assert (fst y <> fst z) by (intros Heq; apply Hnotin; rewrite Heq; now apply in_map).
  lia.
Qed.

Lemma sort_keys_ok l ks :
  VirtualMicManager.sort_keys l = Ret ks ->
  map snd ks = l /\ Forall (fun kx => PyStr.int (fst (snd kx)) = Some (fst kx)) ks.
Proof.
  revert ks; induction l as [|x l IH]; simpl; intros ks H.
  - injection H as <-. now split.
  - destruct (PyStr.int (fst x)) as [k|] eqn:Hk; [|discriminate].
    destruct (VirtualMicManager.sort_keys l) as [ks'|e]; [|discriminate].
    injection H as <-. destruct (IH ks' eq_refl) as [Hm Hf].
    simpl; split; [now rewrite Hm | now constructor].
Qed.

(** *** cleanup_all *)

Lemma call_of_run_cmd_event E t cmd timeout :
  call_of (run_cmd_event E t cmd timeout) = CRun cmd timeout.
Proof. unfold run_cmd_event. now destruct (subprocess_run E t cmd timeout). Qed.

Lemma unload_each_eq E l w :
  VirtualMicManager.unload_each E l w = (Ret tt, extend w (unload_events E (trace w) l)).
Proof.
  revert w; induction l as [|[module_id module_info] rest IH]; intros w; simpl.
  - now rewrite extend_nil.
  - unfold bind, print, sleep. rewrite log_extend, run_cmd_eq, log_extend, IH.
    rewrite !extend_extend. simpl. rewrite <- ?app_assoc. reflexivity.
Qed.

Lemma list_modules_eq E w :
  list_modules E w
  = (Ret (run_cmd_result E (trace w ++ cleanup_prefix E w)
            VirtualMicManager.list_modules_cmd default_timeout),
     extend (clear_world w)
       (cleanup_prefix E w
        ++ [run_cmd_event E (trace w ++ cleanup_prefix E w)
              VirtualMicManager.list_modules_cmd default_timeout])).
Proof.
  unfold list_modules, bind, print. rewrite log_extend, stop_playback_eq, run_cmd_eq.
  unfold extend, clear_world, cleanup_prefix; simpl.
  rewrite <- !app_assoc; simpl. reflexivity.
Qed.

Lemma cleanup_all_eq E w :
  VirtualMicManager.cleanup_all E w
  = match list_modules E w with
    | (Ret (rc, out, err), lw) =>
        if rc =? 0 then
          match VirtualMicManager.sort_keys
                  (VirtualMicManager.scan_modules (PyStr.split_lines out) []) with
          | Ret ks =>
              (Ret tt,
               extend lw (unload_events E (trace lw)
                            (map snd (VirtualMicManager.sort_desc ks))
                          ++ [Done (CSleep 2000)]))
          | Raise e => (Raise e, lw)
          end
        else (Ret tt, extend lw [Done (CSleep 2000)])
    | (Raise e, lw) => (Raise e, lw)
    end.
Proof.
  unfold VirtualMicManager.cleanup_all, list_modules, bind.
  destruct (print _ w) as [[[]|e] w1]; [|reflexivity].
  destruct (VirtualMicManager.stop_playback E w1) as [[[]|e] w2]; [|reflexivity].
  destruct (run_cmd E _ _ w2) as [[[[rc out] err]|e] w3]; [|reflexivity].
  destruct (rc =? 0).
  - unfold VirtualMicManager.sorted_by_id_desc.
    destruct (VirtualMicManager.sort_keys _) as [ks|e]; [|reflexivity].
    unfold ret, sleep. rewrite unload_each_eq, log_extend, extend_extend. reflexivity.
  - unfold ret, sleep. now rewrite log_extend.
Qed.

Lemma new_events_app w w' evs :
  trace w' = (trace w ++ evs)%list -> new_events w w' = evs.
Proof.
  unfold new_events; intros ->.
  rewrite skipn_app, skipn_all, Nat.sub_diag; reflexivity.
Qed.

Lemma unloaded_ids_app a b :
  unloaded_ids (a ++ b) = (unloaded_ids a ++ unloaded_ids b)%list.
Proof.
  induction a as [|ev a IH]; simpl; [reflexivity|].
  destruct (unload_target (call_of ev)); simpl; now rewrite IH.
Qed.

Lemma unloaded_ids_none evs :
  Forall (fun ev => is_unload_call (call_of ev) = false) evs -> unloaded_ids evs = [].
Proof.
  induction 1 as [|ev evs Hev _ IH]; simpl; [reflexivity|].
  unfold is_unload_call in Hev.
  destruct (unload_target (call_of ev)); [discriminate | exact IH].
Qed.

Lemma stop_call_not_unload c : is_stop_call c = true -> is_unload_call c = false.
Proof. destruct c; simpl; try discriminate; reflexivity. Qed.

Lemma cleanup_prefix_no_unload E w :
  Forall (fun ev => is_unload_call (call_of ev) = false) (cleanup_prefix E w).
Proof.
  unfold cleanup_prefix. constructor; [reflexivity|].
  eapply Forall_impl; [|apply stop_events_stop].
  intros ev; apply stop_call_not_unload.
Qed.

Lemma unloaded_ids_unload_events E t l :
  unloaded_ids (unload_events E t l) = map fst l.
Proof.
  revert t; induction l as [|[module_id module_info] rest IH]; intros t; simpl.
  - reflexivity.
  - rewrite call_of_run_cmd_event. simpl. now rewrite IH.
Qed.

Lemma cleanup_all_run E w :
  VirtualMicManager.cleanup_all E w
  = (cleanup_result E w,
     extend (clear_world w) (listing_events E w ++ purge_events E w)).
Proof.
  rewrite cleanup_all_eq, list_modules_eq.
  unfold cleanup_result, purge_events.
  fold (listing_result E w). fold (listing_events E w).
  destruct (listing_result E w) as [[rc out] err].
  destruct (rc =? 0).
  - destruct (VirtualMicManager.sort_keys _) as [ks|e].
    + rewrite extend_extend. reflexivity.
    + now rewrite app_nil_r.
  - now rewrite extend_extend.
Qed.

Lemma cleanup_all_new_events E w :
  new_events w (snd (VirtualMicManager.cleanup_all E w))
  = (listing_events E w ++ purge_events E w)%list.
Proof. rewrite cleanup_all_run. apply new_events_app. reflexivity. Qed.

Lemma listing_events_no_unload E w :
  Forall (fun ev => is_unload_call (call_of ev) = false) (listing_events E w).
Proof.
  unfold listing_events. apply Forall_app; split.
  - apply cleanup_prefix_no_unload.
  - constructor; [|constructor]. now rewrite call_of_run_cmd_event.
Qed.

Lemma list_modules_result E w : fst (list_modules E w) = Ret (listing_result E w).
Proof. now rewrite list_modules_eq. Qed.

(** The unload requests of a run of [cleanup_all] whose listing succeeded
    and whose matched module numbers are all integer literals. *)
Lemma cleanup_all_unloaded E w out err ks :
  fst (list_modules E w) = Ret (0, out, err) ->
  VirtualMicManager.sort_keys
    (VirtualMicManager.scan_modules (PyStr.split_lines out) []) = Ret ks ->
  fst (VirtualMicManager.cleanup_all E w) = Ret tt /\
  unloaded_ids (new_events w (snd (VirtualMicManager.cleanup_all E w)))
  = map fst (map snd (VirtualMicManager.sort_desc ks)).
Proof.
  intros Hl Hk. rewrite list_modules_result in Hl. injection Hl as Hl.
  rewrite cleanup_all_new_events, cleanup_all_run.
  unfold cleanup_result, purge_events. rewrite Hl.
  cbv beta iota zeta. change (0 =? 0) with true. cbv iota. rewrite Hk.
  split; [reflexivity|]. unfold snd at 1.
  rewrite (unloaded_ids_app (listing_events E w)).
  rewrite (unloaded_ids_app (unload_events _ _ _)), unloaded_ids_unload_events.
  rewrite (unloaded_ids_none _ (listing_events_no_unload E w)).
  simpl. now rewrite app_nil_r.
Qed.

Lemma Forall2_map_same {A B C} (R : B -> C -> Prop) (f : A -> B) (g : A -> C) l :
  Forall (fun x => R (f x) (g x)) l -> Forall2 R (map f l) (map g l).
Proof. induction 1; simpl; constructor; assumption. Qed.

(** C2. Take any state and any environment in which the module listing
    succeeds with output [out], every matched line carries an integer
    module number, and these numbers are pairwise distinct (as the numbers
    of loaded modules are).  Then [cleanup_all] returns normally and its
    unload requests are: as many as there are matching lines in [out]; one
    per matched module (a permutation of the matched module numbers); in
    strictly descending numeric order.  The environment is arbitrary, so
    this holds whatever the individual unload requests answer: non-zero
    status, timeout or any other failure of one request does not stop the
    remaining ones. *)
Theorem cleanup_all_unloads_descending
  (E : Env) (w : World) (out err : string) (ks : list (Z * (string * string))) :
  fst (list_modules E w) = Ret (0, out, err) ->
  VirtualMicManager.sort_keys
    (VirtualMicManager.scan_modules (PyStr.split_lines out) []) = Ret ks ->
  NoDup (map fst ks) ->
  let r := VirtualMicManager.cleanup_all E w in
  let ids := unloaded_ids (new_events w (snd r)) in
  fst r = Ret tt /\
  length ids = matching_lines out /\
  Permutation ids
    (map fst (VirtualMicManager.scan_modules (PyStr.split_lines out) [])) /\
  exists nums,
    Forall2 (fun module_id n => PyStr.int module_id = Some n) ids nums /\
    StronglySorted Z.gt nums.
Proof.
  intros Hl Hk Hnd r ids.
  destruct (cleanup_all_unloaded E w out err ks Hl Hk) as [Hr Hids].
  destruct (sort_keys_ok _ _ Hk) as [Hsnd Hint].
  pose proof (sort_desc_perm ks) as Hperm.
  assert (Hp : Permutation ids
                 (map fst (VirtualMicManager.scan_modules (PyStr.split_lines out) []))).
  { subst ids r. rewrite Hids, <- Hsnd. now do 2 apply Permutation_map. }
  split; [exact Hr|]. split; [|split; [exact Hp|]].
  - rewrite (Permutation_length Hp), length_map. apply scan_modules_length.
  - exists (map fst (VirtualMicManager.sort_desc ks)). split.
    + subst ids r. rewrite Hids.
      assert (Hf : Forall (fun kx => PyStr.int (fst (snd kx)) = Some (fst kx))
                     (VirtualMicManager.sort_desc ks)).
      { rewrite Forall_forall in *. intros kx Hin. apply Hint.
        eapply Permutation_in; [exact Hperm | exact Hin]. }
      rewrite map_map. now apply Forall2_map_same.
    + apply sorted_nodup_strict; [apply sort_desc_sorted|].
      eapply Permutation_NoDup; [|exact Hnd].
      apply Permutation_map. now symmetry.
Qed.

(** *** Substrings and case *)

Lemma prefix_spec p s :
  String.prefix p s = true <-> exists post, s = p ++ post.
Proof.
  revert s; induction p as [|a p IH]; intros s.
  - split; [intros _; now exists s | now destruct s].
  - destruct s as [|b s]; simpl.
    + split; [discriminate | intros [post H]; discriminate].
    + destruct (ascii_dec a b) as [->|Hne].
      * rewrite IH. split; intros [post H]; exists post; congruence.
      * split; [discriminate | intros [post H]; congruence].
Qed.

Lemma contains_unfold needle hay :
  PyStr.contains needle hay
  = String.prefix needle hay
    || match hay with
       | EmptyString => false
       | String _ hay' => PyStr.contains needle hay'
       end.
Proof. destruct hay; reflexivity. Qed.

Lemma contains_spec needle hay :
  PyStr.contains needle hay = true <-> exists pre post, hay = pre ++ needle ++ post.
Proof.
  split.
  - induction hay as [|c hay IH]; rewrite contains_unfold, orb_true_iff.
    + intros [H|H]; [|discriminate].
      apply prefix_spec in H as [post H]. now exists "", post.
    + intros [H|H].
      * apply prefix_spec in H as [post H]. now exists "", post.
      * destruct (IH H) as (pre & post & ->). now exists (String c pre), post.
  - intros (pre & post & ->).
    induction pre as [|c pre IH]; rewrite contains_unfold.
    + apply orb_true_iff; left. apply prefix_spec. now exists post.
    + change (String c pre ++ needle ++ post)
        with (String c (pre ++ needle ++ post)).
      cbv iota. now rewrite IH, orb_true_r.
Qed.

Lemma lower_app a b : PyStr.lower (a ++ b) = PyStr.lower a ++ PyStr.lower b.
Proof. induction a as [|c a IH]; simpl; [reflexivity | now rewrite IH]. Qed.

Lemma lower_app_inv s a b :
  PyStr.lower s = a ++ b ->
  exists a' b', s = a' ++ b' /\ PyStr.lower a' = a /\ PyStr.lower b' = b.
Proof.
  revert s; induction a as [|c a IH]; intros s H; simpl in H.
  - now exists "", s.
  - destruct s as [|d s]; [discriminate|].
    simpl in H. injection H as Hc Hs.
    destruct (IH s Hs) as (a' & b' & -> & Ha & Hb).
    exists (String d a'), b'. simpl. now rewrite Hc, Ha, Hb.
Qed.

Lemma contains_lower_spec token text :
  PyStr.contains (PyStr.lower token) (PyStr.lower text) = true
  <-> occurs_ignoring_case token text.
Proof.
  rewrite contains_spec. unfold occurs_ignoring_case. split.
  - intros (pre & post & H).
    apply lower_app_inv in H as (pre' & rest & -> & _ & H).
    apply lower_app_inv in H as (mid & post' & -> & Hm & _).
    now exists pre', mid, post'.
  - intros (pre & mid & post & -> & Hm).
    exists (PyStr.lower pre), (PyStr.lower post).
    now rewrite !lower_app, Hm.
Qed.

Lemma is_virtual_module_spec module_info :
  VirtualMicManager.is_virtual_module module_info = true
  <-> exists token,
        In token (denylist (mic_name VirtualMicManager.init))
        /\ occurs_ignoring_case token module_info.
Proof.
  unfold VirtualMicManager.is_virtual_module. rewrite existsb_exists.
  change VirtualMicManager.keywords
    with (map PyStr.lower (denylist (mic_name VirtualMicManager.init))).
  split.
  - intros (kw & Hin & Hc). apply in_map_iff in Hin as (token & <- & Hin).
    exists token. split; [exact Hin | now apply contains_lower_spec].
  - intros (token & Hin & Hc). exists (PyStr.lower token).
    split; [now apply in_map | now apply contains_lower_spec].
Qed.

Lemma scan_modules_in lines module_id module_info :
  In (module_id, module_info) (VirtualMicManager.scan_modules lines [])
  <-> exists line,
        In line lines /\ module_fields line = Some (module_id, module_info)
        /\ VirtualMicManager.is_virtual_module module_info = true.
Proof.
  rewrite scan_modules_eq; simpl. rewrite in_map_iff.
  split.
  - intros (line & Heq & Hin). apply filter_In in Hin as [Hin Hm].
    exists line. split; [exact Hin|].
    unfold line_matches, module_info_of, module_fields in *.
    destruct (PyStr.split line) as [|a [|b parts]]; simpl in *; try discriminate.
    injection Heq as <- <-. now split.
  - intros (line & Hin & Hf & Hv). exists line.
    unfold module_fields in Hf.
    destruct (PyStr.split line) as [|a [|b parts]] eqn:Hs; try discriminate.
    injection Hf as <- <-. split; [reflexivity|].
    apply filter_In. split; [exact Hin|].
    unfold line_matches, module_info_of, module_fields. now rewrite Hs.
Qed.

Lemma unloaded_ids_marked E w :
  incl (unloaded_ids (new_events w (snd (VirtualMicManager.cleanup_all E w))))
       (map fst (marked E w)).
Proof.
  rewrite cleanup_all_new_events, (unloaded_ids_app (listing_events E w)).
  rewrite (unloaded_ids_none _ (listing_events_no_unload E w)).
  unfold purge_events, marked.
  destruct (listing_result E w) as [[rc out] err].
  destruct (rc =? 0); [|intros x []].
  destruct (VirtualMicManager.sort_keys _) as [ks|e] eqn:Hk; [|intros x []].
  rewrite (unloaded_ids_app (unload_events _ _ _)), unloaded_ids_unload_events.
  simpl. rewrite app_nil_r.
  destruct (sort_keys_ok _ _ Hk) as [<- _].
  intros x Hx. eapply Permutation_in; [|exact Hx].
  do 2 apply Permutation_map. apply sort_desc_perm.
Qed.

(** C8. The test applied to a module's metadata holds exactly when one of
    the tokens "null-sink", "virtual", "mic", the device name set by
    [__init__], "remap", "loopback" occurs in it up to the case of letters.
    A module of the listing is marked for removal exactly when its line
    has a module number and metadata and the metadata passes that test.
    Every unload request of [cleanup_all] targets a marked module, so a
    module matching none of the tokens is never unloaded. *)
Theorem cleanup_marks_denylisted :
  (forall module_info,
      VirtualMicManager.is_virtual_module module_info = true
      <-> exists token,
            In token (denylist (mic_name VirtualMicManager.init))
            /\ occurs_ignoring_case token module_info) /\
  (forall lines module_id module_info,
      In (module_id, module_info) (VirtualMicManager.scan_modules lines [])
      <-> exists line,
            In line lines /\ module_fields line = Some (module_id, module_info)
            /\ VirtualMicManager.is_virtual_module module_info = true) /\
  (forall E w,
      Forall (fun module_id =>
                exists module_info,
                  In (module_id, module_info) (marked E w)
                  /\ VirtualMicManager.is_virtual_module module_info = true)
        (unloaded_ids (new_events w (snd (VirtualMicManager.cleanup_all E w))))).
Proof.
  split; [exact is_virtual_module_spec|]. split; [exact scan_modules_in|].
  intros E w. apply Forall_forall. intros module_id Hin.
  apply unloaded_ids_marked, in_map_iff in Hin as ([id info] & Hid & Hin).
  simpl in Hid; subst id. exists info. split; [exact Hin|].
  unfold marked in Hin. destruct (listing_result E w) as [[rc out] err].
  destruct (rc =? 0); [|contradiction].
  apply scan_modules_in in Hin as (line & _ & _ & Hv). exact Hv.
Qed.

(** *** setup *)

Lemma create_device_eq E w :
  create_device E w
  = match VirtualMicManager.cleanup_all E (setup_start w) with
    | (Ret _, wc) =>
        (Ret (run_cmd_result E (trace wc ++ [Done (CSleep 2000)])
                (VirtualMicManager.load_cmd (mic_name (self w))) default_timeout),
         extend wc [Done (CSleep 2000);
                    run_cmd_event E (trace wc ++ [Done (CSleep 2000)])
                      (VirtualMicManager.load_cmd (mic_name (self w)))
                      default_timeout])
    | (Raise e, wc) => (Raise e, wc)
    end.
Proof.
  unfold create_device, bind, get_self, print, sleep.
  rewrite log_extend. fold (setup_start w).
  destruct (VirtualMicManager.cleanup_all E (setup_start w)) as [[[]|e] wc];
    [|reflexivity].
  rewrite log_extend, run_cmd_eq, extend_extend. reflexivity.
Qed.

Lemma settle_and_list_eq E name out w :
  settle_and_list E name out w
  = (Ret (run_cmd_result E
            (trace w
             ++ [Done (CPrint ("Created virtual microphone: " ++ out));
                 run_cmd_event E
                   (trace w ++ [Done (CPrint ("Created virtual microphone: " ++ out))])
                   (VirtualMicManager.set_default_source_cmd (name ++ ".monitor"))
                   default_timeout;
                 Done (CSleep 2000)])
            VirtualMicManager.list_sources_cmd default_timeout),
     extend w
       [Done (CPrint ("Created virtual microphone: " ++ out));
        run_cmd_event E
          (trace w ++ [Done (CPrint ("Created virtual microphone: " ++ out))])
          (VirtualMicManager.set_default_source_cmd (name ++ ".monitor"))
          default_timeout;
        Done (CSleep 2000);
        run_cmd_event E
          (trace w
           ++ [Done (CPrint ("Created virtual microphone: " ++ out));
               run_cmd_event E
                 (trace w ++ [Done (CPrint ("Created virtual microphone: " ++ out))])
                 (VirtualMicManager.set_default_source_cmd (name ++ ".monitor"))
                 default_timeout;
               Done (CSleep 2000)])
          VirtualMicManager.list_sources_cmd default_timeout]).
Proof.
  unfold settle_and_list, bind, print, sleep.
  rewrite log_extend, run_cmd_eq, log_extend, run_cmd_eq, !extend_extend.
  simpl. rewrite <- ?app_assoc. reflexivity.
Qed.

(** [setup] is the creation prefix followed by the two tests. *)
Lemma setup_split E w :
  VirtualMicManager.setup E w
  = match create_device E w with
    | (Ret (rc, out, err), wc) =>
        if negb (rc =? 0) || negb (PyStr.isdigit out)
        then (Ret (false, "Failed to create virtual microphone: " ++ err), wc)
        else
          match settle_and_list E (mic_name (self w)) out wc with
          | (Ret (_, sources, _), wv) =>
              if PyStr.contains (mic_name (self w) ++ ".monitor") sources
              then (Ret (true, "Virtual Microphone Created '"
                               ++ mic_name (self w) ++ "'"), wv)
              else (Ret (false, "Failed to create virtual microphone"), wv)
          | (Raise e, wv) => (Raise e, wv)
          end
    | (Raise e, wc) => (Raise e, wc)
    end.
Proof.
  unfold VirtualMicManager.setup, create_device, settle_and_list, bind, get_self.
  destruct (print _ w) as [[[]|e] w1]; [|reflexivity].
  destruct (VirtualMicManager.cleanup_all E w1) as [[[]|e] w2]; [|reflexivity].
  destruct (sleep 2000 w2) as [[[]|e] w3]; [|reflexivity].
  destruct (run_cmd E _ _ w3) as [[[[rc out] err]|e] w4]; [|reflexivity].
  destruct (negb (rc =? 0) || negb (PyStr.isdigit out)); [reflexivity|].
  destruct (print _ w4) as [[[]|e] w5]; [|reflexivity].
  destruct (run_cmd E _ _ w5) as [[r|e] w6]; [|reflexivity].
  destruct (sleep 2000 w6) as [[[]|e] w7]; [|reflexivity].
  destruct (run_cmd E _ _ w7) as [[[[rc2 sources] err2]|e] w8]; [|reflexivity].
  now destruct (PyStr.contains _ sources).
Qed.

Lemma settle_and_list_returns E name out w :
  exists r evs,
    settle_and_list E name out w = (Ret r, extend w evs) /\
    exists ev1 ev2,
      evs = [Done (CPrint ("Created virtual microphone: " ++ out)); ev1;
             Done (CSleep 2000); ev2] /\
      call_of ev1
      = CRun (VirtualMicManager.set_default_source_cmd (name ++ ".monitor"))
          default_timeout /\
      call_of ev2 = CRun VirtualMicManager.list_sources_cmd default_timeout.
Proof.
  rewrite settle_and_list_eq. eexists _, _. split; [reflexivity|].
  eexists _, _. split; [reflexivity|]. now rewrite !call_of_run_cmd_event.
Qed.

(** C4 (as amended).  Suppose [setup] reaches its creation call, which
    answers [(rc, out, err)].  Then [setup] returns the creation failure
    [(False, "Failed to create virtual microphone: " + err)] exactly when
    [rc] is non-zero or [out] is not a non-empty string of decimal digits,
    and exactly in that case it does nothing after the creation call.  A
    zero status with non-numeric output is thus a failure, and [setup]
    can return success only after a zero status with all-digit output.
    But the bad creation answer is not the only source of a failure
    result: [setup] returns some failure exactly when the creation answer
    is bad or, the answer being good, the source listing made after the
    settle wait does not show the monitor. *)
Theorem setup_creation_failure (E : Env) (w : World) (rc : Z) (out err : string) :
  fst (create_device E w) = Ret (rc, out, err) ->
  (fst (VirtualMicManager.setup E w)
   = Ret (false, "Failed to create virtual microphone: " ++ err)
   <-> (rc <> 0 \/ PyStr.isdigit out = false)) /\
  (new_events (snd (create_device E w)) (snd (VirtualMicManager.setup E w)) = []
   <-> (rc <> 0 \/ PyStr.isdigit out = false)) /\
  (forall msg,
      fst (VirtualMicManager.setup E w) = Ret (true, msg) ->
      rc = 0 /\ PyStr.isdigit out = true) /\
  ((exists msg, fst (VirtualMicManager.setup E w) = Ret (false, msg))
   <-> (rc <> 0 \/ PyStr.isdigit out = false)
       \/ (rc = 0 /\ PyStr.isdigit out = true /\
           exists rc2 sources err2,
             fst (settle_and_list E (mic_name (self w)) out (snd (create_device E w)))
             = Ret (rc2, sources, err2) /\
             PyStr.contains (mic_name (self w) ++ ".monitor") sources = false)).
Proof.
  intros Hc. rewrite setup_split.
  destruct (create_device E w) as [r wc]. simpl in Hc; subst r. simpl snd.
  destruct (settle_and_list_returns E (mic_name (self w)) out wc)
    as ([[rc2 sources] err2] & evs & Hs & ev1 & ev2 & Hevs & _).
  rewrite Hs.
  destruct (rc =? 0) eqn:Hrc; simpl.
  - apply Z.eqb_eq in Hrc.
    destruct (PyStr.isdigit out) eqn:Hd; simpl.
    + destruct (PyStr.contains _ sources) eqn:Hm; simpl; rewrite new_events_extend, Hevs;
        (split; [|split; [|split]]);
        try (split; [discriminate | intros [?|?]; congruence]);
        try (intros msg Hmsg; try discriminate; now split).
      * split; [intros [msg Hmsg]; discriminate|].
        intros [[?|?]|(_ & _ & rc3 & sources3 & err3 & Heq & Hno)]; congruence.
      * split; [|intros _; eexists; reflexivity].
        intros _. right. split; [exact Hrc|]. split; [reflexivity|].
        exists rc2, sources, err2. now split.
    + rewrite <- (extend_nil wc) at 2. rewrite new_events_extend.
      split; [|split; [|split]]; try (split; [now right | reflexivity]).
      * intros msg Hmsg; discriminate.
      * split; [intros _; left; now right | intros _; eexists; reflexivity].
  - apply Z.eqb_neq in Hrc.
    rewrite <- (extend_nil wc) at 2. rewrite new_events_extend.
    split; [|split; [|split]]; try (split; [now left | reflexivity]).
    + intros msg Hmsg; discriminate.
    + split; [intros _; left; now left | intros _; eexists; reflexivity].
Qed.

(** C4 as stated fails: on the machine whose source listing does not show
    the monitor, the creation call answers status zero and the module
    number 26, and [setup] still returns a failure result (lines
    103-106). *)
Lemma setup_failure_counterexample :
  fst (create_device hidden_env initial_world) = Ret (0, "26", "") /\
  PyStr.isdigit "26" = true /\
  fst (VirtualMicManager.setup hidden_env initial_world)
  = Ret (false, "Failed to create virtual microphone") /\
  ~ failure_iff_bad_creation hidden_env initial_world.
Proof.
  assert (Hc : fst (create_device hidden_env initial_world) = Ret (0, "26", ""))
    by (vm_compute; reflexivity).
  assert (Hs : fst (VirtualMicManager.setup hidden_env initial_world)
               = Ret (false, "Failed to create virtual microphone"))
    by (vm_compute; reflexivity).
  split; [exact Hc|]. split; [reflexivity|]. split; [exact Hs|].
  intros H. destruct (H 0 "26" "" Hc) as [Hbad _].
  destruct Hbad as [Hrc|Hd]; [eexists; exact Hs | now apply Hrc | discriminate Hd].
Qed.

(** C5. Suppose the creation call of [setup] answered status zero and an
    all-digit [out].  Then [setup] goes on with exactly four steps: the
    announcement, the request making [name.monitor] the default source
    (whose outcome is ignored), the two-second settle wait, and the source
    listing.  It returns success if and only if [name + ".monitor"] occurs
    in the listing's (stripped) output, and the verification failure
    [(False, "Failed to create virtual microphone")] if and only if it does
    not; it never raises. *)
Theorem setup_verifies_monitor
  (E : Env) (w : World) (out err : string) (rc2 : Z) (sources err2 : string) :
  fst (create_device E w) = Ret (0, out, err) ->
  PyStr.isdigit out = true ->
  fst (settle_and_list E (mic_name (self w)) out (snd (create_device E w)))
  = Ret (rc2, sources, err2) ->
  let monitor_name := mic_name (self w) ++ ".monitor" in
  (exists ev1 ev2,
      new_events (snd (create_device E w)) (snd (VirtualMicManager.setup E w))
      = [Done (CPrint ("Created virtual microphone: " ++ out)); ev1;
         Done (CSleep 2000); ev2] /\
      call_of ev1
      = CRun (VirtualMicManager.set_default_source_cmd monitor_name) default_timeout /\
      call_of ev2 = CRun VirtualMicManager.list_sources_cmd default_timeout) /\
  (fst (VirtualMicManager.setup E w)
   = Ret (true, "Virtual Microphone Created '" ++ mic_name (self w) ++ "'")
   <-> PyStr.contains monitor_name sources = true) /\
  (fst (VirtualMicManager.setup E w)
   = Ret (false, "Failed to create virtual microphone")
   <-> PyStr.contains monitor_name sources = false) /\
  (PyStr.contains monitor_name sources = true
   <-> exists pre post, sources = pre ++ monitor_name ++ post).
Proof.
  intros Hc Hd Hl monitor_name. rewrite setup_split.
  destruct (create_device E w) as [r wc]. simpl in Hc; subst r. simpl snd in *.
  rewrite Hd. simpl.
  destruct (settle_and_list_returns E (mic_name (self w)) out wc)
    as (r & evs & Hs & ev1 & ev2 & Hevs & Hc1 & Hc2).
  rewrite Hs in *. simpl in Hl. injection Hl as ->. fold monitor_name.
  split; [|split; [|split]].
  - exists ev1, ev2.
    destruct (PyStr.contains monitor_name sources); simpl;
      rewrite new_events_extend; now repeat split.
  - destruct (PyStr.contains monitor_name sources); simpl;
      split; try reflexivity; discriminate.
  - destruct (PyStr.contains monitor_name sources); simpl;
      split; try reflexivity; discriminate.
  - apply contains_spec.
Qed.

Lemma unload_events_shape E t l :
  Forall (fun ev => is_stop_call (call_of ev) = false
                    /\ is_load_call (call_of ev) = false)
    (unload_events E t l).
Proof.
  revert t; induction l as [|[module_id module_info] rest IH]; intros t; simpl.
  - constructor.
  - repeat (constructor; [rewrite ?call_of_run_cmd_event; now split|]).
    apply IH.
Qed.

Lemma purge_events_shape E w :
  Forall (fun ev => is_stop_call (call_of ev) = false
                    /\ is_load_call (call_of ev) = false)
    (purge_events E w).
Proof.
  unfold purge_events. destruct (listing_result E w) as [[rc out] err].
  destruct (rc =? 0); [|now repeat constructor].
  destruct (VirtualMicManager.sort_keys _); [|constructor].
  apply Forall_app; split; [apply unload_events_shape | now repeat constructor].
Qed.

Lemma stop_events_player E w p :
  vlc_player (self w) = Some p ->
  exists ev rest, stop_events E w = ev :: rest /\ call_of ev = CStop p.
Proof.
  unfold stop_events; intros ->. unfold player_stop_events.
  destruct (backend E (trace w) (CStop p)).
  - destruct (backend E _ (CRelease p)); simpl; eexists _, _; split; reflexivity.
  - simpl. eexists _, _; split; reflexivity.
Qed.

Lemma listing_events_shape E w :
  exists listing_ev,
    listing_events E w
    = Done (CPrint "Cleaning up virtual audio devices...")
      :: stop_events E (extend w [Done (CPrint "Cleaning up virtual audio devices...")])
      ++ [listing_ev] /\
    call_of listing_ev = CRun VirtualMicManager.list_modules_cmd default_timeout.
Proof.
  eexists. split; [reflexivity | apply call_of_run_cmd_event].
Qed.

Lemma new_events_setup w evs :
  new_events w (extend (clear_world (setup_start w)) evs)
  = Done (CPrint ("Creating virtual microphone: " ++ mic_name (self w))) :: evs.
Proof.
  apply new_events_app. unfold setup_start, clear_world, extend; simpl.
  now rewrite <- app_assoc.
Qed.

(** What the purge of [cleanup_all] unloads: nothing if sorting raised;
    otherwise exactly the modules of the marked lines of the listing, one
    request per marked line. *)
Lemma purge_events_content E w rc out err :
  listing_result E w = (rc, out, err) ->
  match cleanup_result E w with
  | Raise _ => purge_events E w = []
  | Ret _ =>
      (forall module_id,
          In module_id (unloaded_ids (purge_events E w))
          <-> rc = 0 /\
              In module_id
                (map fst (VirtualMicManager.scan_modules (PyStr.split_lines out) []))) /\
      length (unloaded_ids (purge_events E w))
      = (if rc =? 0 then matching_lines out else 0%nat)
  end.
Proof.
  intros Hl. unfold cleanup_result, purge_events. rewrite Hl.
  destruct (rc =? 0) eqn:Hrc.
  - apply Z.eqb_eq in Hrc.
    destruct (VirtualMicManager.sort_keys _) as [ks|e] eqn:Hk; [|reflexivity].
    rewrite unloaded_ids_app, unloaded_ids_unload_events. simpl. rewrite app_nil_r.
    destruct (sort_keys_ok _ _ Hk) as [Hsnd _].
    assert (Hp : Permutation (map fst (map snd (VirtualMicManager.sort_desc ks)))
                   (map fst (VirtualMicManager.scan_modules (PyStr.split_lines out) []))).
    { rewrite <- Hsnd. do 2 apply Permutation_map. apply sort_desc_perm. }
    split.
    + intros module_id. split.
      * intros Hin. split; [exact Hrc|]. eapply Permutation_in; [exact Hp | exact Hin].
      * intros [_ Hin]. eapply Permutation_in; [symmetry; exact Hp | exact Hin].
    + rewrite (Permutation_length Hp), length_map. apply scan_modules_length.
  - apply Z.eqb_neq in Hrc. simpl. split; [|reflexivity].
    intros module_id. split; [contradiction | intros [H _]; contradiction].
Qed.

(** C3. Every call of [setup] first runs [cleanup_all] in full, and asks
    for the new device only after it.  The steps of the call split into
    three consecutive segments.  The first holds the two announcements,
    every stop request of [stop_playback] (starting with the stop of the
    player held, if any) and then the module listing; it contains no
    unload and no load request.  The second is the purge: it holds every
    unload request of the call and no stop or load request.  The first
    two segments, without the announcement of [setup], are exactly what
    [cleanup_all] logs from the state in which [setup] calls it, and
    [setup] raises exactly when that [cleanup_all] raises.  The third
    segment contains no stop and no unload request.  If [setup] raised,
    nothing was unloaded and there is no third segment, so no load
    request at all.  Otherwise the purge unloads exactly the stale
    modules, that is, when the listing answered status zero, the modules
    of the listing's lines whose metadata contains a token of the
    denylist up to case, with one request per such line; and the third
    segment is the settle wait followed by the one load request of the
    call and the later steps.  So playback is stopped before any unload,
    every stale module is unloaded before the load, and the player handle
    is cleared. *)
Theorem setup_purges_before_load (E : Env) (w : World) :
  let w0 := setup_start w in
  exists rc out err stops listing_ev purge after,
    fst (list_modules E w0) = Ret (rc, out, err) /\
    new_events w (snd (VirtualMicManager.setup E w))
    = ((Done (CPrint ("Creating virtual microphone: " ++ mic_name (self w)))
        :: Done (CPrint "Cleaning up virtual audio devices...")
        :: stops ++ [listing_ev]) ++ purge ++ after)%list /\
    new_events w0 (snd (VirtualMicManager.cleanup_all E w0))
    = ((Done (CPrint "Cleaning up virtual audio devices...")
        :: stops ++ [listing_ev]) ++ purge)%list /\
    stops
    = stop_events E
        (extend w [Done (CPrint ("Creating virtual microphone: " ++ mic_name (self w)));
                   Done (CPrint "Cleaning up virtual audio devices...")]) /\
    Forall (fun ev => is_stop_call (call_of ev) = true) stops /\
    match vlc_player (self w) with
    | Some p => exists ev rest, stops = ev :: rest /\ call_of ev = CStop p
    | None => True
    end /\
    vlc_player (self (snd (VirtualMicManager.setup E w))) = None /\
    call_of listing_ev = CRun VirtualMicManager.list_modules_cmd default_timeout /\
    Forall (fun ev => is_stop_call (call_of ev) = false
                      /\ is_load_call (call_of ev) = false) purge /\
    unloaded_ids purge
    = unloaded_ids (new_events w (snd (VirtualMicManager.setup E w))) /\
    Forall (fun ev => is_stop_call (call_of ev) = false
                      /\ is_unload_call (call_of ev) = false) after /\
    match fst (VirtualMicManager.setup E w) with
    | Raise e =>
        fst (VirtualMicManager.cleanup_all E w0) = Raise e /\
        purge = [] /\ after = []
    | Ret _ =>
        fst (VirtualMicManager.cleanup_all E w0) = Ret tt /\
        (forall module_id,
            In module_id (unloaded_ids purge)
            <-> rc = 0 /\
                exists line module_info,
                  In line (PyStr.split_lines out) /\
                  module_fields line = Some (module_id, module_info) /\
                  exists token,
                    In token (denylist (mic_name VirtualMicManager.init)) /\
                    occurs_ignoring_case token module_info) /\
        length (unloaded_ids purge) = (if rc =? 0 then matching_lines out else 0%nat) /\
        exists load_ev tail,
          after = Done (CSleep 2000) :: load_ev :: tail /\
          call_of load_ev
          = CRun (VirtualMicManager.load_cmd (mic_name (self w))) default_timeout /\
          Forall (fun ev => is_load_call (call_of ev) = false) tail
    end.
Proof.
  intros w0. subst w0.
  set (p1 := Done (CPrint ("Creating virtual microphone: " ++ mic_name (self w)))).
  set (p2 := Done (CPrint "Cleaning up virtual audio devices...")).
  destruct (listing_events_shape E (setup_start w)) as (listing_ev & Hle & Hlc).
  fold p2 in Hle. unfold setup_start in Hle at 2. fold p1 in Hle.
  rewrite extend_extend in Hle. simpl app in Hle.
  set (stops := stop_events E (extend w [p1; p2])) in *.
  destruct (listing_result E (setup_start w)) as [[rc out] err] eqn:Hlist.
  pose proof (purge_events_content E (setup_start w) rc out err Hlist) as Hpurge.
  assert (Hev : exists after,
             new_events w (snd (VirtualMicManager.setup E w))
             = ((p1 :: p2 :: stops ++ [listing_ev])
                ++ purge_events E (setup_start w) ++ after)%list /\
             vlc_player (self (snd (VirtualMicManager.setup E w))) = None /\
             Forall (fun ev => is_stop_call (call_of ev) = false
                               /\ is_unload_call (call_of ev) = false) after /\
             match fst (VirtualMicManager.setup E w) with
             | Raise e => cleanup_result E (setup_start w) = Raise e /\ after = []
             | Ret _ =>
                 cleanup_result E (setup_start w) = Ret tt /\
                 exists load_ev tail,
                   after = Done (CSleep 2000) :: load_ev :: tail /\
                   call_of load_ev
                   = CRun (VirtualMicManager.load_cmd (mic_name (self w)))
                       default_timeout /\
                   Forall (fun ev => is_load_call (call_of ev) = false) tail
             end).
  { rewrite setup_split, create_device_eq, cleanup_all_run, Hle.
    destruct (cleanup_result E (setup_start w)) as [[]|e].
    - set (wc := extend (clear_world (setup_start w)) _).
      set (load_ev := run_cmd_event E _ _ _).
      assert (Hload : call_of load_ev
                      = CRun (VirtualMicManager.load_cmd (mic_name (self w)))
                          default_timeout) by apply call_of_run_cmd_event.
      destruct (run_cmd_result E _ _ _) as [[rc1 out1] err1].
      destruct (negb (rc1 =? 0) || negb (PyStr.isdigit out1)).
      + exists [Done (CSleep 2000); load_ev]. split; [|split; [|split]].
        * subst wc. cbv beta iota. unfold snd.
          rewrite ?extend_extend, new_events_setup, <- ?app_assoc. reflexivity.
        * reflexivity.
        * repeat constructor; rewrite Hload; reflexivity.
        * split; [reflexivity|]. exists load_ev, []. now repeat split.
      + destruct (settle_and_list_returns E (mic_name (self w)) out1
                    (extend wc [Done (CSleep 2000); load_ev]))
          as ([[rc2 sources] err2] & evs & Hs & ev1 & ev2 & Hevs & Hc1 & Hc2).
        rewrite Hs, extend_extend.
        exists (Done (CSleep 2000) :: load_ev :: evs). split; [|split; [|split]].
        * subst wc. destruct (PyStr.contains _ sources); unfold snd;
            rewrite ?extend_extend, new_events_setup, <- ?app_assoc; reflexivity.
        * now destruct (PyStr.contains _ sources).
        * subst evs. repeat constructor;
            rewrite ?Hload, ?Hc1, ?Hc2; reflexivity.
        * assert (Hsh : exists tail,
                     Done (CSleep 2000) :: load_ev :: evs
                     = Done (CSleep 2000) :: load_ev :: tail /\
                     Forall (fun ev => is_load_call (call_of ev) = false) tail).
          { exists evs. split; [reflexivity|]. subst evs.
            repeat constructor; rewrite ?Hc1, ?Hc2; reflexivity. }
          destruct Hsh as (tail & Ht & Hf).
          destruct (PyStr.contains _ sources);
            (split; [reflexivity|]); exists load_ev, tail; now repeat split.
    - exists []. split; [|split; [reflexivity | split; [constructor | now split]]].
      unfold snd. rewrite new_events_setup, app_nil_r. reflexivity. }
  destruct Hev as (after & Hnew & Hplayer & Hafter & Hres).
  exists rc, out, err, stops, listing_ev, (purge_events E (setup_start w)), after.
  split; [rewrite list_modules_result; now rewrite Hlist|].
  split; [exact Hnew|].
  split; [now rewrite cleanup_all_new_events, Hle|].
  split; [reflexivity|].
  split; [apply stop_events_stop|].
  split.
  { destruct (vlc_player (self w)) as [p|] eqn:Hp; [|exact I].
    apply stop_events_player. exact Hp. }
  split; [exact Hplayer|].
  split; [exact Hlc|]. split; [apply purge_events_shape|].
  split.
  { rewrite Hnew, !unloaded_ids_app.
    rewrite (unloaded_ids_none after).
    2:{ eapply Forall_impl; [|exact Hafter]. now intros ev [_ H]. }
    rewrite (unloaded_ids_none (p1 :: _)); [now rewrite app_nil_r|].
    constructor; [reflexivity|]. constructor; [reflexivity|].
    apply Forall_app; split.
    - eapply Forall_impl; [|apply stop_events_stop].
      intros ev; apply stop_call_not_unload.
    - constructor; [now rewrite Hlc | constructor]. }
  split; [exact Hafter|].
  rewrite cleanup_all_run. unfold fst at 2 3.
  destruct (fst (VirtualMicManager.setup E w)) as [res|e].
  - destruct Hres as [Hcr Hload]. rewrite Hcr in Hpurge |- *.
    destruct Hpurge as [Hin Hlen].
    split; [reflexivity|]. split; [|split; [exact Hlen | exact Hload]].
    intros module_id. rewrite Hin. split.
    + intros [Hrc Hm]. split; [exact Hrc|].
      apply in_map_iff in Hm as ([id info] & Hid & Hm). simpl in Hid; subst id.
      apply scan_modules_in in Hm as (line & Hline & Hf & Hv).
      exists line, info. split; [exact Hline|]. split; [exact Hf|].
      now apply is_virtual_module_spec.
    + intros [Hrc (line & info & Hline & Hf & Htok)]. split; [exact Hrc|].
      apply in_map_iff. exists (module_id, info). split; [reflexivity|].
      apply scan_modules_in. exists line. split; [exact Hline|]. split; [exact Hf|].
      now apply is_virtual_module_spec.
  - destruct Hres as [Hcr Hnil]. rewrite Hcr in Hpurge |- *.
    now repeat split.
Qed.

(** *** play_audio_vlc *)

Ltac backend_cases E :=
  repeat (rewrite <- ?app_assoc, ?app_nil_r; simpl;
          match goal with
          | |- context [backend E ?h ?c] => destruct (backend E h c); simpl
          end).

Lemma play_body_run E audio_path w :
  vlc_player (self w) = None ->
  exists b msg w' evs,
    try_except (VirtualMicManager.play_body E audio_path) vlc_error w
    = (Ret (b, msg), w') /\
    trace w' = (trace w ++ evs)%list /\
    Forall (fun ev => is_stop_call (call_of ev) = false) evs /\
    created evs = opt_list (vlc_player (self w')) /\
    Forall (fun p => (next_handle w <= p < next_handle w')%nat) (created evs) /\
    (next_handle w <= next_handle w')%nat /\
    current_process (self w') = current_process (self w) /\
    (b = true -> vlc_player (self w') <> None).
Proof.
  destruct w as [[name inst pl pr] nh t]; simpl; intros ->.
  destruct inst as [i|];
    cbv [VirtualMicManager.play_body vlc_error bind try_except call get_self
         set_vlc_player set_vlc_instance put_self fresh log ret raise
         self trace next_handle vlc_player current_process mic_name vlc_instance];
    backend_cases E;
    try match goal with
      | |- context [?a =? -1] => destruct (a =? -1)
      end;
    eexists _, _, _, _;
    (split; [reflexivity|]);
    (split; [simpl; rewrite <- ?app_assoc; simpl; reflexivity|]);
    simpl; repeat split; repeat constructor; try lia; try discriminate.
Qed.

Lemma play_audio_vlc_missing E audio_path w :
  os_path_exists E (trace w) audio_path = false ->
  VirtualMicManager.play_audio_vlc E audio_path w
  = (Ret (false, "File not found"), extend w [Done (CExists audio_path)]).
Proof.
  intros H. unfold VirtualMicManager.play_audio_vlc, path_exists, bind.
  rewrite log_extend. unfold ret at 1. now rewrite H.
Qed.

Lemma play_audio_vlc_found E audio_path w :
  os_path_exists E (trace w) audio_path = true ->
  VirtualMicManager.play_audio_vlc E audio_path w
  = try_except (VirtualMicManager.play_body E audio_path) vlc_error
      (snd (VirtualMicManager.stop_playback E (extend w [Done (CExists audio_path)]))).
Proof.
  intros H. unfold VirtualMicManager.play_audio_vlc, path_exists, bind.
  rewrite log_extend. unfold ret at 1. rewrite H.
  change (negb true) with false. cbv beta iota.
  now rewrite stop_playback_eq.
Qed.

(** *** Bookkeeping of sessions *)

Lemma created_app a b : created (a ++ b) = (created a ++ created b)%list.
Proof.
  induction a as [|ev a IH]; simpl; [reflexivity|].
  destruct ev as [c|c]; [destruct c|]; simpl; now rewrite ?IH.
Qed.

Lemma unstopped_app t evs :
  unstopped (t ++ evs) = fold_left session_step evs (unstopped t).
Proof. unfold unstopped. apply fold_left_app. Qed.

Lemma neutral_sessions evs acc :
  Forall neutral evs -> fold_left session_step evs acc = acc /\ created evs = [].
Proof.
  intros H; revert acc; induction H as [|ev evs Hev _ IH]; intros acc; simpl.
  - now split.
  - unfold neutral in Hev.
    destruct ev as [c|c]; destruct c; simpl in *; try discriminate; apply IH.
Qed.

Lemma no_stop_sessions evs acc :
  Forall (fun ev => is_stop_call (call_of ev) = false) evs ->
  fold_left session_step evs acc = (acc ++ created evs)%list.
Proof.
  intros H; revert acc; induction H as [|ev evs Hev _ IH]; intros acc; simpl.
  - now rewrite app_nil_r.
  - destruct ev as [c|c]; destruct c; simpl in *; try discriminate;
      rewrite IH; try reflexivity.
    now rewrite <- app_assoc.
Qed.

Lemma stop_events_sessions E w :
  current_process (self w) = None ->
  fold_left session_step (stop_events E w) (opt_list (vlc_player (self w))) = [] /\
  created (stop_events E w) = [].
Proof.
  unfold stop_events; intros ->. rewrite app_nil_r.
  destruct (vlc_player (self w)) as [p|]; simpl; [|now split].
  unfold player_stop_events.
  destruct (backend E (trace w) (CStop p)); [destruct (backend E _ (CRelease p))|];
    simpl; destruct (Nat.eq_dec p p); try contradiction; now split.
Qed.

Lemma run_cmd_event_neutral E t cmd timeout : neutral (run_cmd_event E t cmd timeout).
Proof. unfold neutral. now rewrite call_of_run_cmd_event. Qed.

Lemma unload_events_neutral E t l : Forall neutral (unload_events E t l).
Proof.
  revert t; induction l as [|[module_id module_info] rest IH]; intros t; simpl.
  - constructor.
  - constructor; [reflexivity|]. constructor; [apply run_cmd_event_neutral|].
    constructor; [reflexivity | apply IH].
Qed.

Lemma purge_events_neutral E w : Forall neutral (purge_events E w).
Proof.
  unfold purge_events. destruct (listing_result E w) as [[rc out] err].
  destruct (rc =? 0); [|now repeat constructor].
  destruct (VirtualMicManager.sort_keys _); [|constructor].
  apply Forall_app; split; [apply unload_events_neutral | now repeat constructor].
Qed.

(** *** The invariant is kept by every operation *)

Lemma session_inv_initial : session_inv initial_world.
Proof. repeat split. constructor. Qed.

Lemma session_inv_neutral w evs :
  session_inv w -> Forall neutral evs -> session_inv (extend w evs).
Proof.
  intros (Hq & Hu & Hc) Hn. destruct (neutral_sessions evs (unstopped (trace w)) Hn)
    as [Hf Hcr].
  unfold session_inv, extend; simpl.
  rewrite unstopped_app, Hf, created_app, Hcr, app_nil_r. now repeat split.
Qed.

Lemma session_inv_stop E w :
  session_inv w -> session_inv (snd (VirtualMicManager.stop_playback E w)).
Proof.
  intros (Hq & Hu & Hc). rewrite stop_playback_eq.
  destruct (stop_events_sessions E w Hq) as [Hf Hcr].
  unfold session_inv; simpl.
  rewrite unstopped_app, Hu, Hf, created_app, Hcr, app_nil_r. now repeat split.
Qed.

Lemma session_inv_play_body E audio_path w :
  session_inv w -> vlc_player (self w) = None ->
  session_inv (snd (try_except (VirtualMicManager.play_body E audio_path) vlc_error w)).
Proof.
  intros (Hq & Hu & Hc) Hp.
  destruct (play_body_run E audio_path w Hp)
    as (b & msg & w' & evs & Hr & Ht & Hns & Hcr & Hfresh & Hnh & Hq' & _).
  rewrite Hr; simpl. unfold session_inv.
  rewrite Ht, unstopped_app, Hu, Hp, (no_stop_sessions _ _ Hns), created_app.
  simpl. split; [congruence|]. split; [exact Hcr|].
  apply Forall_app; split.
  - eapply Forall_impl; [|exact Hc]. intros p Hlt. simpl in Hlt. lia.
  - eapply Forall_impl; [|exact Hfresh]. intros p Hlt. simpl in Hlt. lia.
Qed.

Lemma session_inv_play E audio_path w :
  session_inv w -> session_inv (snd (VirtualMicManager.play_audio_vlc E audio_path w)).
Proof.
  intros Hinv.
  destruct (os_path_exists E (trace w) audio_path) eqn:Hx.
  - rewrite (play_audio_vlc_found _ _ _ Hx).
    apply session_inv_play_body.
    + apply session_inv_stop, session_inv_neutral; [exact Hinv | now repeat constructor].
    + now rewrite stop_playback_eq.
  - rewrite (play_audio_vlc_missing _ _ _ Hx).
    apply session_inv_neutral; [exact Hinv | now repeat constructor].
Qed.

Lemma cleanup_all_world E w :
  snd (VirtualMicManager.cleanup_all E w)
  = extend (snd (VirtualMicManager.stop_playback E
                   (extend w [Done (CPrint "Cleaning up virtual audio devices...")])))
      (run_cmd_event E (trace w ++ cleanup_prefix E w)
         VirtualMicManager.list_modules_cmd default_timeout
       :: purge_events E w).
Proof.
  rewrite cleanup_all_run, stop_playback_eq.
  unfold listing_events, cleanup_prefix, extend, clear_world; simpl.
  rewrite <- !app_assoc. reflexivity.
Qed.

Lemma session_inv_cleanup E w :
  session_inv w -> session_inv (snd (VirtualMicManager.cleanup_all E w)).
Proof.
  intros Hinv. rewrite cleanup_all_world.
  apply session_inv_neutral.
  - apply session_inv_stop, session_inv_neutral; [exact Hinv | now repeat constructor].
  - constructor; [apply run_cmd_event_neutral | apply purge_events_neutral].
Qed.

Lemma setup_world E w :
  exists after,
    snd (VirtualMicManager.setup E w)
    = extend (snd (VirtualMicManager.cleanup_all E (setup_start w))) after
    /\ Forall neutral after.
Proof.
  rewrite setup_split, create_device_eq.
  destruct (VirtualMicManager.cleanup_all E (setup_start w)) as [[[]|e] wc]; simpl.
  - set (load_ev := run_cmd_event E _ _ _).
    assert (Hl : neutral load_ev) by apply run_cmd_event_neutral.
    destruct (run_cmd_result E _ _ _) as [[rc out] err].
    destruct (negb (rc =? 0) || negb (PyStr.isdigit out)).
    + exists [Done (CSleep 2000); load_ev]. split; [reflexivity|].
      now repeat constructor.
    + destruct (settle_and_list_returns E (mic_name (self w)) out
                  (extend wc [Done (CSleep 2000); load_ev]))
        as ([[rc2 sources] err2] & evs & Hs & ev1 & ev2 & Hevs & Hc1 & Hc2).
      rewrite Hs. exists ([Done (CSleep 2000); load_ev] ++ evs)%list. split.
      * destruct (PyStr.contains _ sources); simpl; now rewrite extend_extend.
      * subst evs. repeat constructor; try exact Hl; unfold neutral;
          rewrite ?Hc1, ?Hc2; reflexivity.
  - exists []. split; [now rewrite extend_nil | constructor].
Qed.

Lemma session_inv_setup E w :
  session_inv w -> session_inv (snd (VirtualMicManager.setup E w)).
Proof.
  intros Hinv. destruct (setup_world E w) as (after & -> & Hn).
  apply session_inv_neutral; [|exact Hn].
  apply session_inv_cleanup, session_inv_neutral; [exact Hinv | now repeat constructor].
Qed.

Lemma session_inv_op E op w : session_inv w -> session_inv (run_op E op w).
Proof.
  intros Hinv. destruct op; simpl.
  - now apply session_inv_play.
  - now apply session_inv_stop.
  - now apply session_inv_cleanup.
  - now apply session_inv_setup.
  - unfold VirtualMicManager.get_playback_time, bind, get_self, query.
    destruct (vlc_player (self w)); simpl; [|exact Hinv].
    apply (session_inv_neutral w [_] Hinv). now repeat constructor.
  - unfold VirtualMicManager.get_media_length, bind, get_self, query.
    destruct (vlc_player (self w)); simpl; [|exact Hinv].
    apply (session_inv_neutral w [_] Hinv). now repeat constructor.
  - unfold VirtualMicManager.is_playing, bind, get_self, query.
    destruct (vlc_player (self w)); simpl; [|exact Hinv].
    apply (session_inv_neutral w [_] Hinv). now repeat constructor.
Qed.

Lemma session_inv_ops E ops w : session_inv w -> session_inv (run_ops E ops w).
Proof.
  revert w; induction ops as [|op ops IH]; intros w Hinv; simpl; [exact Hinv|].
  apply IH. now apply session_inv_op.
Qed.

(** *** C7 *)

(** C7. [stop_playback] never fails and is idempotent.  For every
    environment, including one whose [stop], [release], [terminate],
    [wait] or [kill] raise, and every state: the call returns normally;
    it ends with the player handle (and the process handle) cleared; a
    second call right after it returns normally too and changes nothing,
    logging no further backend request; and on a manager that holds no
    handle the call changes nothing at all.  In every state reached from
    the initial one by manager operations, the call is such a no-op as
    soon as the player handle is absent, and otherwise starts with the
    stop request for the player held. *)
Theorem stop_playback_idempotent (E : Env) (w : World) (ops : list Op) :
  let w1 := snd (VirtualMicManager.stop_playback E w) in
  fst (VirtualMicManager.stop_playback E w) = Ret tt /\
  vlc_player (self w1) = None /\
  current_process (self w1) = None /\
  VirtualMicManager.stop_playback E w1 = (Ret tt, w1) /\
  VirtualMicManager.stop_playback E (clear_world w) = (Ret tt, clear_world w) /\
  let wr := run_ops E ops initial_world in
  match vlc_player (self wr) with
  | None => VirtualMicManager.stop_playback E wr = (Ret tt, wr)
  | Some p =>
      exists ev rest,
        new_events wr (snd (VirtualMicManager.stop_playback E wr)) = ev :: rest
        /\ call_of ev = CStop p
  end.
Proof.
  cbv zeta.
  split; [now rewrite stop_playback_eq|].
  split; [now rewrite stop_playback_eq|].
  split; [now rewrite stop_playback_eq|].
  split; [apply stop_playback_noop; now rewrite stop_playback_eq|].
  split; [now apply stop_playback_noop|].
  destruct (session_inv_ops E ops initial_world session_inv_initial) as (Hq & _).
  destruct (vlc_player (self (run_ops E ops initial_world))) as [p|] eqn:Hp.
  - destruct (stop_events_player E _ p Hp) as (ev & rest & Hs & Hc).
    exists ev, rest. split; [|exact Hc].
    apply new_events_app. rewrite stop_playback_eq. simpl. now rewrite Hs.
  - now apply stop_playback_noop.
Qed.

(** *** C6 *)

(** C6. For a path that does not exist, [play_audio_vlc] returns
    [(False, "File not found")] and changes nothing: the manager (its
    player handle included) and the handle counter are as before, and the
    only step taken is the existence test, so there is no stop request,
    no player creation and no routing call. *)
Theorem play_missing_file_no_change (E : Env) (audio_path : string) (w : World) :
  os_path_exists E (trace w) audio_path = false ->
  let r := VirtualMicManager.play_audio_vlc E audio_path w in
  fst r = Ret (false, "File not found") /\
  self (snd r) = self w /\
  next_handle (snd r) = next_handle w /\
  new_events w (snd r) = [Done (CExists audio_path)] /\
  unstopped (trace (snd r)) = unstopped (trace w) /\
  created (trace (snd r)) = created (trace w).
Proof.
  intros H r. subst r. rewrite (play_audio_vlc_missing _ _ _ H). simpl.
  rewrite new_events_extend, unstopped_app, created_app. simpl.
  now rewrite app_nil_r.
Qed.

(** *** C1 *)

Lemma stop_events_reachable E w :
  current_process (self w) = None ->
  match vlc_player (self w) with
  | Some p =>
      stop_events E w = [Failed (CStop p)]
      \/ exists ev, stop_events E w = [Done (CStop p); ev] /\ call_of ev = CRelease p
  | None => stop_events E w = []
  end.
Proof.
  unfold stop_events; intros ->.
  destruct (vlc_player (self w)) as [p|]; [|reflexivity].
  rewrite app_nil_r. unfold player_stop_events.
  destruct (backend E (trace w) (CStop p)); [right | now left].
  destruct (backend E _ (CRelease p)); eexists; split; reflexivity.
Qed.

(** The strict bookkeeping. *)

Lemma live_app t evs : live (t ++ evs) = fold_left live_step evs (live t).
Proof. unfold live. apply fold_left_app. Qed.

Lemma leaked_app a b : leaked (a ++ b) = (leaked a ++ leaked b)%list.
Proof.
  induction a as [|ev a IH]; simpl; [reflexivity|].
  destruct ev as [c|c]; [|destruct c]; simpl; now rewrite ?IH.
Qed.

Lemma neutral_live evs acc :
  Forall neutral evs -> fold_left live_step evs acc = acc /\ leaked evs = [].
Proof.
  intros H; revert acc; induction H as [|ev evs Hev _ IH]; intros acc; simpl.
  - now split.
  - unfold neutral in Hev.
    destruct ev as [c|c]; destruct c; simpl in *; try discriminate; apply IH.
Qed.

Lemma no_stop_live evs acc :
  Forall (fun ev => is_stop_call (call_of ev) = false) evs ->
  fold_left live_step evs acc = (acc ++ created evs)%list /\ leaked evs = [].
Proof.
  intros H; revert acc; induction H as [|ev evs Hev _ IH]; intros acc; simpl.
  - now rewrite app_nil_r.
  - destruct ev as [c|c]; destruct c; simpl in *; try discriminate;
      destruct (IH acc) as [IH1 IH2]; try (now split).
    destruct (IH (acc ++ [p])%list) as [IH3 _].
    split; [|exact IH2]. now rewrite IH3, <- app_assoc.
Qed.

Lemma remove_last_fresh (p : Player) l :
  NoDup (l ++ [p]) -> remove Nat.eq_dec p (l ++ [p]) = l.
Proof.
  intros Hnd. apply NoDup_remove_2 in Hnd. rewrite app_nil_r in Hnd.
  rewrite remove_app, (notin_remove _ _ _ Hnd). simpl.
  destruct (Nat.eq_dec p p); [now rewrite app_nil_r | contradiction].
Qed.

Lemma live_inv_initial : live_inv initial_world.
Proof. repeat split; constructor. Qed.

Lemma live_inv_neutral w evs :
  live_inv w -> Forall neutral evs -> live_inv (extend w evs).
Proof.
  intros (Hq & Hl & Hnd & Hlt) Hn.
  destruct (neutral_live evs (live (trace w)) Hn) as [Hf Hlk].
  unfold live_inv, extend; simpl.
  rewrite live_app, Hf, leaked_app, Hlk, app_nil_r. now repeat split.
Qed.

Lemma live_inv_stop E w :
  live_inv w -> live_inv (snd (VirtualMicManager.stop_playback E w)).
Proof.
  intros (Hq & Hl & Hnd & Hlt). rewrite stop_playback_eq.
  pose proof (stop_events_reachable E w Hq) as Hs.
  unfold live_inv; simpl. rewrite live_app, leaked_app.
  destruct (vlc_player (self w)) as [p|]; simpl in Hl.
  - destruct Hs as [->|(ev & -> & Hev)]; simpl.
    + rewrite app_nil_r. now repeat split.
    + assert (Hstep : live_step (remove Nat.eq_dec p (live (trace w))) ev
                      = remove Nat.eq_dec p (live (trace w)))
        by (destruct ev as [c|c]; simpl in Hev; subst c; reflexivity).
      assert (Hlk : leaked [Done (CStop p); ev] = [])
        by (destruct ev as [c|c]; simpl in Hev; subst c; reflexivity).
      rewrite Hstep. simpl in Hlk. rewrite Hlk, !app_nil_r.
      rewrite Hl in Hnd, Hlt |- *. rewrite (remove_last_fresh p _ Hnd).
      split; [reflexivity|]. split; [reflexivity|].
      split; [apply NoDup_remove_1 in Hnd; now rewrite app_nil_r in Hnd|].
      apply Forall_app in Hlt. tauto.
  - rewrite Hs. simpl. rewrite !app_nil_r. rewrite app_nil_r in Hl. now repeat split.
Qed.

Lemma live_inv_play_body E audio_path w :
  live_inv w -> vlc_player (self w) = None ->
  live_inv (snd (try_except (VirtualMicManager.play_body E audio_path) vlc_error w)).
Proof.
  intros (Hq & Hl & Hnd & Hlt) Hp.
  destruct (play_body_run E audio_path w Hp)
    as (b & msg & w' & evs & Hr & Ht & Hns & Hcr & Hfresh & Hnh & Hq' & _).
  rewrite Hr; simpl. unfold live_inv.
  destruct (no_stop_live evs (live (trace w)) Hns) as [Hf Hlk].
  rewrite Ht, live_app, Hf, leaked_app, Hlk, app_nil_r.
  rewrite Hp in Hl. simpl in Hl. rewrite app_nil_r in Hl.
  split; [congruence|]. split; [now rewrite Hl, Hcr|].
  split.
  - rewrite Hcr in *. destruct (vlc_player (self w')) as [q|]; simpl.
    + apply NoDup_app; [exact Hnd | repeat constructor; intros []|].
      intros x Hx [Heq|[]]. subst q. rewrite Forall_forall in Hlt. specialize (Hlt x Hx).
      inversion Hfresh as [|? ? Hq1 _]; subst. lia.
    + now rewrite app_nil_r.
  - apply Forall_app; split.
    + eapply Forall_impl; [|exact Hlt]. intros x Hx. simpl in Hx. lia.
    + eapply Forall_impl; [|exact Hfresh]. intros x Hx. simpl in Hx. lia.
Qed.

Lemma live_inv_play E audio_path w :
  live_inv w -> live_inv (snd (VirtualMicManager.play_audio_vlc E audio_path w)).
Proof.
  intros Hinv.
  destruct (os_path_exists E (trace w) audio_path) eqn:Hx.
  - rewrite (play_audio_vlc_found _ _ _ Hx).
    apply live_inv_play_body.
    + apply live_inv_stop, live_inv_neutral; [exact Hinv | now repeat constructor].
    + now rewrite stop_playback_eq.
  - rewrite (play_audio_vlc_missing _ _ _ Hx).
    apply live_inv_neutral; [exact Hinv | now repeat constructor].
Qed.

Lemma live_inv_cleanup E w :
  live_inv w -> live_inv (snd (VirtualMicManager.cleanup_all E w)).
Proof.
  intros Hinv. rewrite cleanup_all_world.
  apply live_inv_neutral.
  - apply live_inv_stop, live_inv_neutral; [exact Hinv | now repeat constructor].
  - constructor; [apply run_cmd_event_neutral | apply purge_events_neutral].
Qed.

Lemma live_inv_setup E w :
  live_inv w -> live_inv (snd (VirtualMicManager.setup E w)).
Proof.
  intros Hinv. destruct (setup_world E w) as (after & -> & Hn).
  apply live_inv_neutral; [|exact Hn].
  apply live_inv_cleanup, live_inv_neutral; [exact Hinv | now repeat constructor].
Qed.

Lemma live_inv_op E op w : live_inv w -> live_inv (run_op E op w).
Proof.
  intros Hinv. destruct op; simpl.
  - now apply live_inv_play.
  - now apply live_inv_stop.
  - now apply live_inv_cleanup.
  - now apply live_inv_setup.
  - unfold VirtualMicManager.get_playback_time, bind, get_self, query.
    destruct (vlc_player (self w)); simpl; [|exact Hinv].
    apply (live_inv_neutral w [_] Hinv). now repeat constructor.
  - unfold VirtualMicManager.get_media_length, bind, get_self, query.
    destruct (vlc_player (self w)); simpl; [|exact Hinv].
    apply (live_inv_neutral w [_] Hinv). now repeat constructor.
  - unfold VirtualMicManager.is_playing, bind, get_self, query.
    destruct (vlc_player (self w)); simpl; [|exact Hinv].
    apply (live_inv_neutral w [_] Hinv). now repeat constructor.
Qed.

Lemma live_inv_ops E ops w : live_inv w -> live_inv (run_ops E ops w).
Proof.
  revert w; induction ops as [|op ops IH]; intros w Hinv; simpl; [exact Hinv|].
  apply IH. now apply live_inv_op.
Qed.

(** What [stop_playback] asks of the player held, by the answers of the
    backend. *)
Lemma stop_events_answers E w :
  current_process (self w) = None ->
  match vlc_player (self w) with
  | Some p =>
      match backend E (trace w) (CStop p) with
      | Raise _ => stop_events E w = [Failed (CStop p)]
      | Ret _ =>
          match backend E (trace w ++ [Done (CStop p)]) (CRelease p) with
          | Ret _ => stop_events E w = [Done (CStop p); Done (CRelease p)]
          | Raise _ => stop_events E w = [Done (CStop p); Failed (CRelease p)]
          end
      end
  | None => stop_events E w = []
  end.
Proof.
  unfold stop_events; intros ->.
  destruct (vlc_player (self w)) as [p|]; [|reflexivity].
  rewrite app_nil_r. unfold player_stop_events.
  destruct (backend E (trace w) (CStop p)); [|reflexivity].
  now destruct (backend E _ (CRelease p)).
Qed.

(** C1 (as amended).  Let [w] be any state reached from the initial one by
    manager operations, and [audio_path] an existing path.  A call of
    [play_audio_vlc] takes its steps in this order: the existence test;
    the stop of the prior player, if any; then the body, which holds no
    stop request.  The prior player is sent a stop request.  If that
    request returns, a release request follows, and the player is
    released if this one returns too; if the stop request raises, the
    release is skipped, and the player is neither stopped nor released.
    No player is created before the body.  The handle held afterwards is
    exactly the player created by this call, if it created one, and that
    player is new.  Before and after the call, the players created and
    not stopped are those whose stop request raised, followed by the
    handle held; the call adds the prior player to the former exactly
    when its stop request raised.  So at most one player is unstopped as
    long as no stop request has raised.  The call returns a result, and
    after a successful one a handle is held. *)
Theorem play_replaces_session (E : Env) (ops : list Op) (audio_path : string) :
  let w := run_ops E ops initial_world in
  os_path_exists E (trace w) audio_path = true ->
  let r := VirtualMicManager.play_audio_vlc E audio_path w in
  let t1 := (trace w ++ [Done (CExists audio_path)])%list in
  let stops := stop_events E (extend w [Done (CExists audio_path)]) in
  exists body,
    new_events w (snd r) = (Done (CExists audio_path) :: stops ++ body)%list /\
    match vlc_player (self w) with
    | Some p =>
        match backend E t1 (CStop p) with
        | Raise _ => stops = [Failed (CStop p)]
        | Ret _ =>
            match backend E (t1 ++ [Done (CStop p)]) (CRelease p) with
            | Ret _ => stops = [Done (CStop p); Done (CRelease p)]
            | Raise _ => stops = [Done (CStop p); Failed (CRelease p)]
            end
        end
    | None => stops = []
    end /\
    created stops = [] /\
    Forall (fun ev => is_stop_call (call_of ev) = false) body /\
    created body = opt_list (vlc_player (self (snd r))) /\
    Forall (fun p => ~ In p (created (trace w))) (created body) /\
    live (trace w) = (leaked (trace w) ++ opt_list (vlc_player (self w)))%list /\
    live (trace (snd r))
    = (leaked (trace (snd r)) ++ opt_list (vlc_player (self (snd r))))%list /\
    leaked (trace (snd r)) = (leaked (trace w) ++ leaked stops)%list /\
    (leaked (trace (snd r)) = [] -> (length (live (trace (snd r))) <= 1)%nat) /\
    exists b msg,
      fst r = Ret (b, msg) /\ (b = true -> vlc_player (self (snd r)) <> None).
Proof.
  intros w Hx r t1 stops.
  assert (Hinv : session_inv w)
    by (apply session_inv_ops, session_inv_initial).
  assert (Hlive : live_inv w) by (apply live_inv_ops, live_inv_initial).
  assert (Hlive' : live_inv (snd r)) by (apply live_inv_play, Hlive).
  destruct Hinv as (Hq & _ & Hc).
  destruct Hlive as (_ & Hl & _). destruct Hlive' as (_ & Hl' & _).
  set (w1 := extend w [Done (CExists audio_path)]) in *.
  assert (Hq1 : current_process (self w1) = None) by exact Hq.
  subst r. rewrite (play_audio_vlc_found _ _ _ Hx) in *. fold w1 in Hl' |- *.
  destruct (play_body_run E audio_path (snd (VirtualMicManager.stop_playback E w1)))
    as (b & msg & w' & body & Hr & Ht & Hns & Hcr & Hfresh & Hnh & _ & Hb).
  { now rewrite stop_playback_eq. }
  rewrite Hr in *. simpl fst; simpl snd in *.
  assert (Htrace : trace w'
                   = (trace w ++ Done (CExists audio_path) :: stops ++ body)%list).
  { rewrite Ht, stop_playback_eq. subst w1 stops. simpl. now rewrite <- !app_assoc. }
  exists body. split; [now apply new_events_app|].
  split; [exact (stop_events_answers E w1 Hq1)|].
  split; [exact (proj2 (stop_events_sessions E w1 Hq1))|].
  split; [exact Hns|]. split; [exact Hcr|].
  split.
  { rewrite Forall_forall in *. intros p Hp Hin.
    specialize (Hfresh p Hp). specialize (Hc p Hin).
    rewrite stop_playback_eq in Hfresh. simpl in Hfresh. lia. }
  split; [exact Hl|]. split; [exact Hl'|].
  assert (Hlk : leaked (trace w') = (leaked (trace w) ++ leaked stops)%list).
  { rewrite Htrace, leaked_app. simpl. rewrite leaked_app.
    now rewrite (proj2 (no_stop_live body [] Hns)), app_nil_r. }
  split; [exact Hlk|].
  split.
  { intros Hnone. rewrite Hl', Hnone. simpl.
    destruct (vlc_player (self w')); simpl; lia. }
  exists b, msg. now split.
Qed.

(** C1 as stated fails in three ways.  First, the handle held need not
    belong to the most recent successful Play: with a backend that
    refuses to start its second player, the first Play succeeds and the
    second fails at [play()], and the handle then held belongs to the
    failed second Play.  Second, the prior player need not be stopped
    and released before the new one is created: with a backend whose
    [stop] raises, the only request made for the first player is the
    stop that raised, and with a backend whose [release] raises, the
    first player is stopped but not released; in both runs the second
    Play creates its player.  Third, more than one player can be
    unstopped: after the run in which [stop] raised, the first and the
    second player are both created and not stopped. *)
Lemma play_replaces_session_counterexample :
  ~ one_handle_of_last_success refusing_env ["a.wav"; "b.wav"] /\
  ~ prior_stopped_and_released stubborn_env
      (run_ops stubborn_env [OpPlay "a.wav"] initial_world) "b.wav" /\
  live (trace (fst (play_all stubborn_env ["a.wav"; "b.wav"] initial_world None)))
  = [1%nat; 3%nat] /\
  ~ at_most_one_live stubborn_env ["a.wav"; "b.wav"] /\
  ~ prior_stopped_and_released clinging_env
      (run_ops clinging_env [OpPlay "a.wav"] initial_world) "b.wav".
Proof.
  split; [|split; [|split; [|split]]].
  - unfold one_handle_of_last_success.
    assert (H : play_all refusing_env ["a.wav"; "b.wav"] initial_world None
                = (snd (VirtualMicManager.play_audio_vlc refusing_env "b.wav"
                          (snd (VirtualMicManager.play_audio_vlc refusing_env "a.wav"
                                  initial_world))),
                   Some 1%nat))
      by (vm_compute; reflexivity).
    rewrite H. intros (p & Hp & Hl).
    vm_compute in Hp. congruence.
  - intros H.
    assert (Hp : vlc_player (self (run_ops stubborn_env [OpPlay "a.wav"] initial_world))
                 = Some 1%nat) by (vm_compute; reflexivity).
    destruct (H 1%nat Hp
                [Done (CExists "b.wav"); Failed (CStop 1%nat)] 0%nat 3%nat
                [Done (CAudioOutputSet 3%nat "pulse");
                 Done (CAudioOutputDeviceSet 3%nat "Real4n54n");
                 Done (CMediaNew 0%nat "b.wav" 4%nat);
                 Done (CSetMedia 3%nat 4%nat);
                 Done (CPlay 3%nat)]) as [Hstop _];
      [vm_compute; reflexivity|].
    destruct Hstop as [Heq|[Heq|[]]]; discriminate Heq.
  - vm_compute. reflexivity.
  - unfold at_most_one_live.
    assert (H : live (trace (fst (play_all stubborn_env ["a.wav"; "b.wav"]
                                    initial_world None)))
                = [1%nat; 3%nat]) by (vm_compute; reflexivity).
    rewrite H. simpl. lia.
  - intros H.
    assert (Hp : vlc_player (self (run_ops clinging_env [OpPlay "a.wav"] initial_world))
                 = Some 1%nat) by (vm_compute; reflexivity).
    destruct (H 1%nat Hp
                [Done (CExists "b.wav"); Done (CStop 1%nat); Failed (CRelease 1%nat)]
                0%nat 3%nat
                [Done (CAudioOutputSet 3%nat "pulse");
                 Done (CAudioOutputDeviceSet 3%nat "Real4n54n");
                 Done (CMediaNew 0%nat "b.wav" 4%nat);
                 Done (CSetMedia 3%nat 4%nat);
                 Done (CPlay 3%nat)]) as [_ Hrel];
      [vm_compute; reflexivity|].
    destruct Hrel as [Heq|[Heq|[Heq|[]]]]; discriminate Heq.
Qed.

(** *** C9 *)

Lemma reported_app a b : reported (a ++ b) = (reported a ++ reported b)%list.
Proof.
  induction a as [|ev a IH]; simpl; [reflexivity|].
  destruct ev as [c|c]; [destruct c|]; simpl; now rewrite ?IH.
Qed.

Ltac progress_cases :=
  repeat match goal with
    | |- _ /\ _ => split
    | |- exists _, _ => eexists
    | |- forall _, _ => intro
    end;
  reflexivity.

(** C9. A polling step never raises, so it never divides by zero, and it
    leaves the manager untouched.  When the test on the two playing flags
    passes and the polled length is strictly positive, the step hands
    exactly one value to the progress bar, the percentage of the polled
    position.  In every other case (test not passed, or length zero or
    negative) it reports nothing, the bar keeps its value, and the step
    is the same whatever the percentage computation is: the division is
    not evaluated. *)
Theorem update_progress_guarded
  (E : Env) (float_percent : Z -> Z -> Z) (app : VirtualMicApp.App) (w : World) :
  let r := VirtualMicApp.update_progress E float_percent app w in
  (exists app', fst r = Ret app') /\
  self (snd r) = self w /\
  match progress_inputs E app w with
  | Some (current_time, total_time) =>
      if total_time >? 0
      then
        fst r = Ret {| VirtualMicApp.is_playing := VirtualMicApp.is_playing app;
                       VirtualMicApp.progress_bar :=
                         float_percent current_time total_time |}
        /\ reported (new_events w (snd r)) = [float_percent current_time total_time]
      else
        fst r = Ret app /\ reported (new_events w (snd r)) = []
        /\ forall g, VirtualMicApp.update_progress E g app w = r
  | None =>
      fst r = Ret app /\ reported (new_events w (snd r)) = []
      /\ forall g, VirtualMicApp.update_progress E g app w = r
  end.
Proof.
  destruct w as [[name inst pl pr] nh t]. destruct app as [flag bar].
  unfold progress_inputs, new_events; simpl.
  destruct flag; [|rewrite skipn_all; progress_cases].
  destruct pl as [p|];
    cbv [VirtualMicApp.update_progress VirtualMicManager.is_playing
         VirtualMicManager.get_playback_time VirtualMicManager.get_media_length
         VirtualMicApp.percent VirtualMicApp.setValue VirtualMicApp.is_playing
         VirtualMicApp.progress_bar
         bind query get_self log ret raise self trace vlc_player];
    [|rewrite skipn_all; progress_cases].
  destruct (backend_get E t (CIsPlaying p) =? 0); simpl.
  { rewrite skipn_app, skipn_all, Nat.sub_diag. simpl. progress_cases. }
  rewrite <- !app_assoc. simpl.
  set (cur := backend_get E (t ++ [Done (CIsPlaying p)]) (CGetTime p)).
  set (tot := backend_get E (t ++ [Done (CIsPlaying p); Done (CGetTime p)]) (CGetLength p)).
  destruct (tot >? 0) eqn:Hgt.
  - assert (Hz : (tot =? 0) = false) by (apply Z.eqb_neq; apply Z.gtb_lt in Hgt; lia).
    rewrite Hz. simpl. rewrite <- !app_assoc.
    rewrite skipn_app, skipn_all, Nat.sub_diag. simpl. progress_cases.
  - simpl. rewrite skipn_app, skipn_all, Nat.sub_diag. simpl. progress_cases.
Qed.

(** ** The theorems at concrete inputs *)

(** C1 at a concrete input: a second Play of the existing clip on the
    sample machine, after a first one. *)
Lemma play_replaces_session_witness :
  os_path_exists sample_env
    (trace (run_ops sample_env [OpPlay "/music/clip.wav"] initial_world))
    "/music/clip.wav" = true /\
  let w := run_ops sample_env [OpPlay "/music/clip.wav"] initial_world in
  let r := VirtualMicManager.play_audio_vlc sample_env "/music/clip.wav" w in
  let t1 := (trace w ++ [Done (CExists "/music/clip.wav")])%list in
  let stops := stop_events sample_env (extend w [Done (CExists "/music/clip.wav")]) in
  exists body,
    new_events w (snd r) = (Done (CExists "/music/clip.wav") :: stops ++ body)%list /\
    match vlc_player (self w) with
    | Some p =>
        match backend sample_env t1 (CStop p) with
        | Raise _ => stops = [Failed (CStop p)]
        | Ret _ =>
            match backend sample_env (t1 ++ [Done (CStop p)]) (CRelease p) with
            | Ret _ => stops = [Done (CStop p); Done (CRelease p)]
            | Raise _ => stops = [Done (CStop p); Failed (CRelease p)]
            end
        end
    | None => stops = []
    end /\
    created stops = [] /\
    Forall (fun ev => is_stop_call (call_of ev) = false) body /\
    created body = opt_list (vlc_player (self (snd r))) /\
    Forall (fun p => ~ In p (created (trace w))) (created body) /\
    live (trace w) = (leaked (trace w) ++ opt_list (vlc_player (self w)))%list /\
    live (trace (snd r))
    = (leaked (trace (snd r)) ++ opt_list (vlc_player (self (snd r))))%list /\
    leaked (trace (snd r)) = (leaked (trace w) ++ leaked stops)%list /\
    (leaked (trace (snd r)) = [] -> (length (live (trace (snd r))) <= 1)%nat) /\
    exists b msg,
      fst r = Ret (b, msg) /\ (b = true -> vlc_player (self (snd r)) <> None).
Proof.
  split; [reflexivity|].
  apply (play_replaces_session sample_env [OpPlay "/music/clip.wav"] "/music/clip.wav").
  reflexivity.
Defined.

(** C2 at a concrete input: the sample listing, where one unload request
    times out and another is refused. *)
Lemma cleanup_all_unloads_descending_witness :
  fst (list_modules sample_env initial_world)
  = Ret (0, PyStr.strip sample_modules, "") /\
  VirtualMicManager.sort_keys
    (VirtualMicManager.scan_modules
       (PyStr.split_lines (PyStr.strip sample_modules)) []) = Ret sample_keys /\
  NoDup (map fst sample_keys) /\
  let r := VirtualMicManager.cleanup_all sample_env initial_world in
  let ids := unloaded_ids (new_events initial_world (snd r)) in
  fst r = Ret tt /\
  length ids = matching_lines (PyStr.strip sample_modules) /\
  Permutation ids
    (map fst (VirtualMicManager.scan_modules
                (PyStr.split_lines (PyStr.strip sample_modules)) [])) /\
  exists nums,
    Forall2 (fun module_id n => PyStr.int module_id = Some n) ids nums /\
    StronglySorted Z.gt nums.
Proof.
  assert (H1 : fst (list_modules sample_env initial_world)
               = Ret (0, PyStr.strip sample_modules, ""))
    by (vm_compute; reflexivity).
  assert (H2 : VirtualMicManager.sort_keys
                 (VirtualMicManager.scan_modules
                    (PyStr.split_lines (PyStr.strip sample_modules)) [])
               = Ret sample_keys)
    by (vm_compute; reflexivity).
  assert (H3 : NoDup (map fst sample_keys)).
  { simpl. repeat constructor; simpl; intuition discriminate. }
  split; [exact H1|]. split; [exact H2|]. split; [exact H3|].
  exact (cleanup_all_unloads_descending sample_env initial_world
           (PyStr.strip sample_modules) "" sample_keys H1 H2 H3).
Defined.

(** C4 at a concrete input: a creation call that answers status zero
    and the text "+26", which is not a module number, so that [setup]
    fails with the creation failure and stops there. *)
Lemma setup_creation_failure_witness :
  fst (create_device garbled_env initial_world) = Ret (0, "+26", "W: odd answer") /\
  PyStr.isdigit "+26" = false /\
  fst (VirtualMicManager.setup garbled_env initial_world)
  = Ret (false, "Failed to create virtual microphone: W: odd answer") /\
  (fst (VirtualMicManager.setup garbled_env initial_world)
   = Ret (false, "Failed to create virtual microphone: " ++ "W: odd answer")
   <-> (0 <> 0 \/ PyStr.isdigit "+26" = false)) /\
  (new_events (snd (create_device garbled_env initial_world))
     (snd (VirtualMicManager.setup garbled_env initial_world)) = []
   <-> (0 <> 0 \/ PyStr.isdigit "+26" = false)) /\
  (forall msg,
      fst (VirtualMicManager.setup garbled_env initial_world) = Ret (true, msg) ->
      0 = 0 /\ PyStr.isdigit "+26" = true) /\
  ((exists msg, fst (VirtualMicManager.setup garbled_env initial_world) = Ret (false, msg))
   <-> (0 <> 0 \/ PyStr.isdigit "+26" = false)
       \/ (0 = 0 /\ PyStr.isdigit "+26" = true /\
           exists rc2 sources err2,
             fst (settle_and_list garbled_env (mic_name (self initial_world)) "+26"
                    (snd (create_device garbled_env initial_world)))
             = Ret (rc2, sources, err2) /\
             PyStr.contains (mic_name (self initial_world) ++ ".monitor") sources = false)).
Proof.
  assert (H : fst (create_device garbled_env initial_world)
              = Ret (0, "+26", "W: odd answer"))
    by (vm_compute; reflexivity).
  split; [exact H|]. split; [reflexivity|].
  split; [vm_compute; reflexivity|].
  exact (setup_creation_failure garbled_env initial_world 0 "+26" "W: odd answer" H).
Defined.

(** C5 at a concrete input: the machine whose source listing is empty, so
    that the verification fails. *)
Lemma setup_verifies_monitor_witness :
  fst (create_device hidden_env initial_world) = Ret (0, "26", "") /\
  PyStr.isdigit "26" = true /\
  fst (settle_and_list hidden_env (mic_name (self initial_world)) "26"
         (snd (create_device hidden_env initial_world)))
  = Ret (0, "", "") /\
  let monitor_name := mic_name (self initial_world) ++ ".monitor" in
  (exists ev1 ev2,
      new_events (snd (create_device hidden_env initial_world))
        (snd (VirtualMicManager.setup hidden_env initial_world))
      = [Done (CPrint ("Created virtual microphone: " ++ "26")); ev1;
         Done (CSleep 2000); ev2] /\
      call_of ev1
      = CRun (VirtualMicManager.set_default_source_cmd monitor_name) default_timeout /\
      call_of ev2 = CRun VirtualMicManager.list_sources_cmd default_timeout) /\
  (fst (VirtualMicManager.setup hidden_env initial_world)
   = Ret (true, "Virtual Microphone Created '" ++ mic_name (self initial_world) ++ "'")
   <-> PyStr.contains monitor_name "" = true) /\
  (fst (VirtualMicManager.setup hidden_env initial_world)
   = Ret (false, "Failed to create virtual microphone")
   <-> PyStr.contains monitor_name "" = false) /\
  (PyStr.contains monitor_name "" = true
   <-> exists pre post, "" = pre ++ monitor_name ++ post).
Proof.
  assert (H1 : fst (create_device hidden_env initial_world) = Ret (0, "26", ""))
    by (vm_compute; reflexivity).
  assert (H2 : PyStr.isdigit "26" = true) by reflexivity.
  assert (H3 : fst (settle_and_list hidden_env (mic_name (self initial_world)) "26"
                      (snd (create_device hidden_env initial_world)))
               = Ret (0, "", ""))
    by (vm_compute; reflexivity).
  split; [exact H1|]. split; [exact H2|]. split; [exact H3|].
  exact (setup_verifies_monitor hidden_env initial_world "26" "" 0 "" "" H1 H2 H3).
Defined.

(** C6 at a concrete input: a missing file while a clip is playing. *)
Lemma play_missing_file_no_change_witness :
  os_path_exists sample_env
    (trace (run_ops sample_env [OpPlay "/music/clip.wav"] initial_world))
    "/music/gone.wav" = false /\
  let w := run_ops sample_env [OpPlay "/music/clip.wav"] initial_world in
  let r := VirtualMicManager.play_audio_vlc sample_env "/music/gone.wav" w in
  fst r = Ret (false, "File not found") /\
  self (snd r) = self w /\
  next_handle (snd r) = next_handle w /\
  new_events w (snd r) = [Done (CExists "/music/gone.wav")] /\
  unstopped (trace (snd r)) = unstopped (trace w) /\
  created (trace (snd r)) = created (trace w).
Proof.
  split; [reflexivity|].
  apply (play_missing_file_no_change sample_env "/music/gone.wav"
           (run_ops sample_env [OpPlay "/music/clip.wav"] initial_world)).
  reflexivity.
Defined.

(** ** The model on concrete inputs *)

Example split_short_line :
  PyStr.split (tab ++ "  23" ++ tab ++ "module-null-sink sink_name=Real4n54n  ")
  = ["23"; "module-null-sink"; "sink_name=Real4n54n"].
Proof. reflexivity. Qed.

Example strip_both : PyStr.strip ("  a b " ++ nl) = "a b".
Proof. reflexivity. Qed.

Example int_examples :
  PyStr.int "042" = Some 42 /\ PyStr.int "-7" = Some (-7) /\
  PyStr.int "1_000" = Some 1000 /\ PyStr.int "1__0" = None /\
  PyStr.int "x1" = None /\ PyStr.int "" = None /\ PyStr.int "_1" = None.
Proof. repeat split; reflexivity. Qed.

Example contains_examples :
  PyStr.contains "mic" (PyStr.lower "module-MIC-thing") = true /\
  PyStr.contains "mic" "module-alsa-card" = false /\
  PyStr.contains "" "" = true.
Proof. repeat split; reflexivity. Qed.

Example isdigit_examples :
  PyStr.isdigit "26" = true /\ PyStr.isdigit "" = false /\
  PyStr.isdigit "26 " = false /\ PyStr.isdigit "-1" = false.
Proof. repeat split; reflexivity. Qed.

Example basename_examples :
  PyStr.basename "/home/u/clip.wav" = "clip.wav" /\ PyStr.basename "a/" = "".
Proof. repeat split; reflexivity. Qed.

(** The unload requests on the sample machine: numeric order, not the
    order of the listing nor that of the strings, and all three issued
    although the second times out and the third is refused. *)
Example sample_unload_order :
  unloaded_ids
    (new_events initial_world
       (snd (VirtualMicManager.cleanup_all sample_env initial_world)))
  = ["110"; "23"; "9"].
Proof. vm_compute. reflexivity. Qed.

Example sample_setup_succeeds :
  fst (VirtualMicManager.setup sample_env initial_world)
  = Ret (true, "Virtual Microphone Created 'Real4n54n'").
Proof. vm_compute. reflexivity. Qed.

Example hidden_setup_fails :
  fst (VirtualMicManager.setup hidden_env initial_world)
  = Ret (false, "Failed to create virtual microphone").
Proof. vm_compute. reflexivity. Qed.

(** The stop, unload and load requests of a [setup] made on the sample
    machine while a clip is playing, in the order in which they are
    made. *)
Example setup_sample_order :
  let w := run_ops sample_env [OpPlay "/music/clip.wav"] initial_world in
  map call_of
    (filter is_teardown_or_load
       (new_events w (snd (VirtualMicManager.setup sample_env w))))
  = [CStop 1%nat; CRelease 1%nat;
     CRun (VirtualMicManager.unload_cmd "110") default_timeout;
     CRun (VirtualMicManager.unload_cmd "23") default_timeout;
     CRun (VirtualMicManager.unload_cmd "9") default_timeout;
     CRun (VirtualMicManager.load_cmd "Real4n54n") default_timeout].
Proof. vm_compute. reflexivity. Qed.

(** A creation call that times out: [setup] fails with the reason that
    [run_cmd] gives. *)
Example unreachable_setup_fails :
  fst (create_device unreachable_env initial_world) = Ret (1, "", "Timeout") /\
  fst (VirtualMicManager.setup unreachable_env initial_world)
  = Ret (false, "Failed to create virtual microphone: Timeout").
Proof. split; vm_compute; reflexivity. Qed.

(** A matched line whose first field is not an integer literal makes
    [sorted] raise before any unload request. *)
Example malformed_number_raises :
  fst (VirtualMicManager.cleanup_all (listing_env "x module-null-sink") initial_world)
  = Raise (ValueError "x") /\
  unloaded_ids
    (new_events initial_world
       (snd (VirtualMicManager.cleanup_all (listing_env "x module-null-sink")
               initial_world))) = [].
Proof. split; vm_compute; reflexivity. Qed.

(** With a backend whose [stop] raises, the second Play logs the failed
    stop request, skips the release, and still replaces the handle. *)
Example stop_raises_skips_release :
  let w := run_ops stubborn_env [OpPlay "a.wav"] initial_world in
  let r := VirtualMicManager.play_audio_vlc stubborn_env "b.wav" w in
  vlc_player (self w) = Some 1%nat /\
  stop_events stubborn_env (extend w [Done (CExists "b.wav")]) = [Failed (CStop 1%nat)] /\
  vlc_player (self (snd r)) = Some 3%nat /\
  fst r = Ret (true, "Sending audio 'b.wav'").
Proof. repeat split; vm_compute; reflexivity. Qed.

(** With a backend that refuses to start the second player, the handle
    held after the failed Play is that second player. *)
Example refused_play_keeps_new_handle :
  let w := run_ops refusing_env [OpPlay "a.wav"] initial_world in
  let r := VirtualMicManager.play_audio_vlc refusing_env "b.wav" w in
  vlc_player (self w) = Some 1%nat /\
  fst r = Ret (false, "Failed to play audio with VLC") /\
  vlc_player (self (snd r)) = Some 3%nat.
Proof. repeat split; vm_compute; reflexivity. Qed.

Example progress_on_sample :
  let w := run_ops sample_env [OpPlay "/music/clip.wav"] initial_world in
  let app := {| VirtualMicApp.is_playing := true; VirtualMicApp.progress_bar := 0 |} in
  fst (VirtualMicApp.update_progress sample_env (fun a b => 100 * a / b) app w)
  = Ret {| VirtualMicApp.is_playing := true; VirtualMicApp.progress_bar := 25 |}.
Proof. vm_compute. reflexivity. Qed.

(** * Further properties of the manager *)

(** ** play_audio_vlc: results and steps *)

Ltac split_pre :=
  first [ exists (@nil Event); split; [reflexivity|]
        | eexists [_]; split; [reflexivity|]
        | eexists [_; _]; split; [reflexivity|]
        | eexists [_; _; _]; split; [reflexivity|]
        | eexists [_; _; _; _]; split; [reflexivity|]
        | eexists [_; _; _; _; _]; split; [reflexivity|]
        | eexists [_; _; _; _; _; _]; split; [reflexivity|] ].

Ltac play_leaf :=
  eexists _, _, _, _;
  (split; [reflexivity|]);
  (split; [simpl; rewrite <- ?app_assoc; simpl; reflexivity|]);
  (split; [reflexivity|]);
  (split; [reflexivity|]);
  (split; [repeat first [apply Forall_nil
                        | apply Forall_cons; [first [exact I | reflexivity]|]]|]);
  (split; [first [split; reflexivity | reflexivity]|]);
  first
    [ left; split; [reflexivity|]; split; [reflexivity|];
      eexists _, _, _; split_pre;
      split; [first [left; split; reflexivity | right; split; reflexivity]|];
      split; reflexivity
    | right; left; split; [reflexivity|]; split; [reflexivity|];
      eexists _, _, _; split_pre;
      split; [first [left; split; reflexivity | right; split; reflexivity]|];
      split; reflexivity
    | right; right; split; [reflexivity|];
      eexists _, _; split_pre;
      split; reflexivity ].

Lemma play_body_outcome E audio_path w :
  exists b msg w' evs,
    try_except (VirtualMicManager.play_body E audio_path) vlc_error w
    = (Ret (b, msg), w') /\
    trace w' = (trace w ++ evs)%list /\
    mic_name (self w') = mic_name (self w) /\
    current_process (self w') = current_process (self w) /\
    Forall (routed (mic_name (self w))) evs /\
    instance_step (self w) (self w') evs /\
    ((b = true /\
      msg = "Sending audio '" ++ PyStr.basename audio_path ++ "'" /\
      exists i p m pre,
        evs = (pre ++ play_steps i p m (mic_name (self w)) audio_path)%list /\
        (pre = [] /\ vlc_instance (self w) = Some i
         \/ pre = [Done (CInstance ["--no-video"; "--quiet"] i)]
            /\ vlc_instance (self w) = None) /\
        vlc_player (self w') = Some p /\ vlc_instance (self w') = Some i)
     \/
     (b = false /\
      msg = "Failed to play audio with VLC" /\
      exists i p m pre,
        evs = (pre ++ play_steps i p m (mic_name (self w)) audio_path)%list /\
        (pre = [] /\ vlc_instance (self w) = Some i
         \/ pre = [Done (CInstance ["--no-video"; "--quiet"] i)]
            /\ vlc_instance (self w) = None) /\
        vlc_player (self w') = Some p /\ vlc_instance (self w') = Some i)
     \/
     (b = false /\
      exists c e pre,
        evs = (pre ++ [Failed c])%list /\
        forallb is_done pre = true /\
        msg = "VLC error: " ++ str e)).
Proof.
  destruct w as [[name inst pl pr] nh t]; simpl.
  destruct inst as [i|];
    cbv [VirtualMicManager.play_body vlc_error bind try_except call get_self
         set_vlc_player set_vlc_instance put_self fresh log ret raise
         instance_step
         self trace next_handle vlc_player current_process mic_name vlc_instance];
    backend_cases E;
    try match goal with
      | |- context [?a =? -1] => destruct (a =? -1)
      end;
    play_leaf.
Qed.

Ltac backend_cases_eqn E :=
  repeat (rewrite <- ?app_assoc, ?app_nil_r; simpl;
          match goal with
          | |- context [backend E ?h ?c] => destruct (backend E h c) eqn:?; simpl
          end).

Ltac split_before :=
  first [ eexists (@nil Event), _, _; split; [reflexivity|]
        | eexists [_], _, _; split; [reflexivity|]
        | eexists [_; _], _, _; split; [reflexivity|]
        | eexists [_; _; _], _, _; split; [reflexivity|]
        | eexists [_; _; _; _], _, _; split; [reflexivity|]
        | eexists [_; _; _; _; _], _, _; split; [reflexivity|]
        | eexists [_; _; _; _; _; _], _, _; split; [reflexivity|] ].

(** The body of a Play by the answers of the backend: either every step
    up to the start request returned, and the result follows the answer
    of [play()]; or a step raised, it is the last one, and its exception
    is reported. *)
Lemma play_body_answers E audio_path w :
  exists b msg w' evs,
    try_except (VirtualMicManager.play_body E audio_path) vlc_error w
    = (Ret (b, msg), w') /\
    trace w' = (trace w ++ evs)%list /\
    ((exists before p answer,
        evs = (before ++ [Done (CPlay p)])%list /\
        forallb is_done before = true /\
        backend E (trace w ++ before) (CPlay p) = Ret answer /\
        vlc_player (self w') = Some p /\
        (answer <> -1 /\ b = true /\
         msg = "Sending audio '" ++ PyStr.basename audio_path ++ "'"
         \/ answer = -1 /\ b = false /\ msg = "Failed to play audio with VLC"))
     \/
     (exists before c e,
        evs = (before ++ [Failed c])%list /\
        forallb is_done before = true /\
        backend E (trace w ++ before) c = Raise e /\
        b = false /\ msg = "VLC error: " ++ str e)).
Proof.
  destruct w as [[name inst pl pr] nh t]; simpl.
  destruct inst as [i|];
    cbv [VirtualMicManager.play_body vlc_error bind try_except call get_self
         set_vlc_player set_vlc_instance put_self fresh log ret raise
         self trace next_handle vlc_player current_process mic_name vlc_instance];
    backend_cases_eqn E;
    try match goal with
      | |- context [?a =? -1] => destruct (a =? -1) eqn:?
      end.
  all: eexists _, _, _, _;
    (split; [reflexivity|]);
    (split; [simpl; rewrite <- ?app_assoc; simpl; reflexivity|]);
    first
      [ left; split_before;
        (split; [reflexivity|]);
        (split; [rewrite ?app_nil_r; eassumption|]);
        (split; [reflexivity|]);
        first [ left; split; [apply Z.eqb_neq; assumption | split; reflexivity]
              | right; split; [apply Z.eqb_eq; assumption | split; reflexivity] ]
      | right; split_before;
        (split; [reflexivity|]);
        (split; [rewrite ?app_nil_r; eassumption|]);
        split; reflexivity ].
Qed.

(** X1. [play_audio_vlc] never raises, in any state and whatever the
    backend does, and has exactly four outcomes.  A missing file gives
    [(False, "File not found")] after the existence test alone.
    Otherwise the steps are the existence test, the stop of the prior
    playback and a body, and one of two things happened.  Either every
    step of the body returned, the last one being the start request
    [play()] of the player now held, and the result follows the answer
    of that request: success with the message naming the file's base
    name when the answer is not -1, and
    [(False, "Failed to play audio with VLC")] when it is -1.  Or the
    body ends with the first step that raised, nothing is attempted
    after it, and the result is [(False, "VLC error: " + str(e))] for
    the very exception [e] that this step raised. *)
Theorem play_audio_vlc_outcomes (E : Env) (audio_path : string) (w : World) :
  let r := VirtualMicManager.play_audio_vlc E audio_path w in
  let stops := stop_events E (extend w [Done (CExists audio_path)]) in
  let t1 := (trace w ++ Done (CExists audio_path) :: stops)%list in
  exists b msg,
    fst r = Ret (b, msg) /\
    ((os_path_exists E (trace w) audio_path = false /\
      b = false /\ msg = "File not found" /\
      new_events w (snd r) = [Done (CExists audio_path)])
     \/
     (os_path_exists E (trace w) audio_path = true /\
      exists body,
        new_events w (snd r) = (Done (CExists audio_path) :: stops ++ body)%list /\
        ((exists before p answer,
            body = (before ++ [Done (CPlay p)])%list /\
            forallb is_done before = true /\
            backend E (t1 ++ before) (CPlay p) = Ret answer /\
            vlc_player (self (snd r)) = Some p /\
            (answer <> -1 /\ b = true /\
             msg = "Sending audio '" ++ PyStr.basename audio_path ++ "'"
             \/ answer = -1 /\ b = false /\ msg = "Failed to play audio with VLC"))
         \/
         (exists before c e,
            body = (before ++ [Failed c])%list /\
            forallb is_done before = true /\
            backend E (t1 ++ before) c = Raise e /\
            b = false /\ msg = "VLC error: " ++ str e)))).
Proof.
  intros r stops t1. subst r.
  destruct (os_path_exists E (trace w) audio_path) eqn:Hx.
  - rewrite (play_audio_vlc_found _ _ _ Hx).
    set (w1 := extend w [Done (CExists audio_path)]) in *.
    destruct (play_body_answers E audio_path (snd (VirtualMicManager.stop_playback E w1)))
      as (b & msg & w' & body & Hr & Ht & Hcase).
    rewrite Hr. exists b, msg. split; [reflexivity|]. right.
    split; [reflexivity|]. exists body.
    assert (Ht1 : trace (snd (VirtualMicManager.stop_playback E w1)) = t1).
    { rewrite stop_playback_eq. subst w1 t1 stops. simpl. now rewrite <- app_assoc. }
    rewrite Ht1 in Ht, Hcase. split.
    { apply new_events_app. simpl. rewrite Ht. subst t1. now rewrite <- app_assoc. }
    exact Hcase.
  - rewrite (play_audio_vlc_missing _ _ _ Hx). exists false, "File not found".
    split; [reflexivity|]. left. repeat split. simpl. apply new_events_extend.
Qed.

(** With a backend that refuses to start the player, every step returns
    and the answer -1 of [play()] makes the result a failure. *)
Example refused_play_fails :
  let w := run_ops refusing_env [OpPlay "a.wav"] initial_world in
  let t := (trace w ++ [Done (CExists "b.wav"); Done (CStop 1%nat); Done (CRelease 1%nat);
                        Done (CPlayerNew 0%nat 3%nat);
                        Done (CAudioOutputSet 3%nat "pulse");
                        Done (CAudioOutputDeviceSet 3%nat "Real4n54n");
                        Done (CMediaNew 0%nat "b.wav" 4%nat);
                        Done (CSetMedia 3%nat 4%nat)])%list in
  backend refusing_env t (CPlay 3%nat) = Ret (-1) /\
  VirtualMicManager.play_audio_vlc refusing_env "b.wav" w
  = (Ret (false, "Failed to play audio with VLC"),
     {| self := {| mic_name := "Real4n54n"; vlc_instance := Some 0%nat;
                   vlc_player := Some 3%nat; current_process := None |};
        next_handle := 5%nat;
        trace := t ++ [Done (CPlay 3%nat)] |}).
Proof. split; vm_compute; reflexivity. Qed.

(** X2. A successful Play has set up the new player completely before
    starting it.  If [play_audio_vlc] returns success, its steps are: the
    existence test; the stop of the prior playback; the creation of the
    libVLC instance if none was held; then, all returning normally and
    in this order, the creation of the player, its routing to the
    PulseAudio output and to the device named [mic_name], the creation
    of the media for this very path, its loading into the player, and
    the start request.  The player created is the handle held
    afterwards. *)
Theorem successful_play_is_routed
  (E : Env) (audio_path : string) (w : World) (msg : string) :
  fst (VirtualMicManager.play_audio_vlc E audio_path w) = Ret (true, msg) ->
  exists i p m pre,
    new_events w (snd (VirtualMicManager.play_audio_vlc E audio_path w))
    = (Done (CExists audio_path)
       :: stop_events E (extend w [Done (CExists audio_path)])
       ++ pre ++ play_steps i p m (mic_name (self w)) audio_path)%list /\
    (pre = [] /\ vlc_instance (self w) = Some i
     \/ pre = [Done (CInstance ["--no-video"; "--quiet"] i)]
        /\ vlc_instance (self w) = None) /\
    vlc_player (self (snd (VirtualMicManager.play_audio_vlc E audio_path w))) = Some p /\
    vlc_instance (self (snd (VirtualMicManager.play_audio_vlc E audio_path w))) = Some i /\
    msg = "Sending audio '" ++ PyStr.basename audio_path ++ "'".
Proof.
  destruct (os_path_exists E (trace w) audio_path) eqn:Hx.
  - rewrite (play_audio_vlc_found _ _ _ Hx).
    set (w1 := extend w [Done (CExists audio_path)]).
    destruct (play_body_outcome E audio_path (snd (VirtualMicManager.stop_playback E w1)))
      as (b & msg' & w' & body & Hr & Ht & _ & _ & _ & _ & Hcase).
    rewrite Hr. simpl. intros Heq. injection Heq as -> ->.
    destruct Hcase as [(_ & Hm & i & p & m & pre & Hevs & Hpre & Hp & Hi)
                      |[(Hb & _)|(Hb & _)]]; try discriminate.
    exists i, p, m, pre. rewrite stop_playback_eq in Hevs, Hpre. simpl in Hevs, Hpre.
    split; [|now repeat split].
    apply new_events_app. rewrite Ht, stop_playback_eq, Hevs. subst w1. simpl.
    now rewrite <- !app_assoc.
  - rewrite (play_audio_vlc_missing _ _ _ Hx). discriminate.
Qed.

(** ** cleanup_all: when nothing is unloaded, when it raises, ties *)

Lemma sort_keys_first_malformed l :
  match first_malformed l with
  | Some module_id => VirtualMicManager.sort_keys l = Raise (ValueError module_id)
  | None => exists ks, VirtualMicManager.sort_keys l = Ret ks
  end.
Proof.
  induction l as [|x l IH]; simpl.
  - now exists [].
  - destruct (PyStr.int (fst x)) as [k|]; [|reflexivity].
    destruct (first_malformed l) as [module_id|].
    + now rewrite IH.
    + destruct IH as [ks ->]. now eexists.
Qed.

Lemma first_malformed_spec l module_id :
  first_malformed l = Some module_id
  <-> exists pre x post,
        l = (pre ++ x :: post)%list /\
        Forall (fun y => PyStr.int (fst y) <> None) pre /\
        fst x = module_id /\ PyStr.int module_id = None.
Proof.
  split.
  - induction l as [|y l IH]; simpl; [discriminate|].
    destruct (PyStr.int (fst y)) as [k|] eqn:Hk.
    + intros H. destruct (IH H) as (pre & x & post & -> & Hf & Hx & Hn).
      exists (y :: pre), x, post. repeat split; try assumption.
      constructor; [congruence | exact Hf].
    + intros H. injection H as <-. exists [], y, l. now repeat split.
  - intros (pre & x & post & -> & Hf & <- & Hn).
    induction Hf as [|y pre Hy _ IH]; simpl.
    + now rewrite Hn.
    + destruct (PyStr.int (fst y)); [exact IH | contradiction].
Qed.

Lemma list_modules_new_events E w :
  new_events w (snd (list_modules E w)) = listing_events E w.
Proof. rewrite list_modules_eq. apply new_events_app. reflexivity. Qed.

Lemma unloaded_ids_listing E w : unloaded_ids (listing_events E w) = [].
Proof. apply unloaded_ids_none, listing_events_no_unload. Qed.

(** X3. [cleanup_all] raises exactly when the module listing succeeded
    and some matched line starts with a field that is not an integer
    literal; it then raises [ValueError] for the first such field in
    listing order.  When it raises, nothing follows the listing request:
    no module is unloaded (not even those with well-formed numbers) and
    the settle wait is skipped; the player handle has been cleared all
    the same. *)
Theorem cleanup_all_raises_iff (E : Env) (w : World) (e : Exn) :
  (fst (VirtualMicManager.cleanup_all E w) = Raise e
   <-> exists out err module_id,
         fst (list_modules E w) = Ret (0, out, err) /\
         first_malformed
           (VirtualMicManager.scan_modules (PyStr.split_lines out) []) = Some module_id /\
         e = ValueError module_id) /\
  (fst (VirtualMicManager.cleanup_all E w) = Raise e ->
   new_events w (snd (VirtualMicManager.cleanup_all E w))
   = new_events w (snd (list_modules E w)) /\
   unloaded_ids (new_events w (snd (VirtualMicManager.cleanup_all E w))) = [] /\
   vlc_player (self (snd (VirtualMicManager.cleanup_all E w))) = None).
Proof.
  rewrite cleanup_all_new_events, list_modules_new_events, list_modules_result.
  rewrite cleanup_all_run. unfold cleanup_result, purge_events. simpl fst.
  destruct (listing_result E w) as [[rc out] err].
  pose proof (sort_keys_first_malformed
                (VirtualMicManager.scan_modules (PyStr.split_lines out) [])) as Hs.
  destruct (rc =? 0) eqn:Hrc.
  - apply Z.eqb_eq in Hrc; subst rc.
    destruct (first_malformed _) as [module_id|] eqn:Hf.
    + rewrite Hs. split.
      * split.
        -- intros H. injection H as <-. now exists out, err, module_id.
        -- intros (out' & err' & id' & H & Hf' & ->). injection H as <- <-.
           congruence.
      * intros _. rewrite app_nil_r. split; [reflexivity|].
        split; [apply unloaded_ids_listing | reflexivity].
    + destruct Hs as [ks ->]. split.
      * split; [discriminate|].
        intros (out' & err' & id' & H & Hf' & _). injection H as <- <-. congruence.
      * discriminate.
  - split.
    + split; [discriminate|].
      intros (out' & err' & id' & H & _). injection H as Hrc' _ _.
      subst rc. discriminate.
    + discriminate.
Qed.

(** X4. With the module listing of [cleanup_all] answering
    [(rc, out, err)], no unload request is issued exactly when the
    listing failed ([rc] non-zero, which covers a timeout), or no line of
    [out] matches the keywords, or a matched line has a malformed module
    number.  In the first two cases [cleanup_all] returns normally and,
    after the listing, only waits the two-second settle interval. *)
Theorem cleanup_all_unloads_nothing_iff
  (E : Env) (w : World) (rc : Z) (out err : string) :
  fst (list_modules E w) = Ret (rc, out, err) ->
  (unloaded_ids (new_events w (snd (VirtualMicManager.cleanup_all E w))) = []
   <-> (rc <> 0 \/ matching_lines out = 0%nat
        \/ first_malformed
             (VirtualMicManager.scan_modules (PyStr.split_lines out) []) <> None)) /\
  (rc <> 0 \/ matching_lines out = 0%nat ->
   fst (VirtualMicManager.cleanup_all E w) = Ret tt /\
   new_events w (snd (VirtualMicManager.cleanup_all E w))
   = (new_events w (snd (list_modules E w)) ++ [Done (CSleep 2000)])%list).
Proof.
  rewrite list_modules_result. intros H. injection H as H.
  rewrite cleanup_all_new_events, list_modules_new_events, unloaded_ids_app.
  rewrite unloaded_ids_listing, cleanup_all_run.
  unfold cleanup_result, purge_events. rewrite H. simpl fst. cbv beta iota.
  rewrite <- scan_modules_length.
  pose proof (sort_keys_first_malformed
                (VirtualMicManager.scan_modules (PyStr.split_lines out) [])) as Hs.
  destruct (rc =? 0) eqn:Hrc.
  - apply Z.eqb_eq in Hrc; subst rc.
    destruct (first_malformed _) as [module_id|] eqn:Hf.
    + rewrite Hs. split.
      * split; [intros _; right; right; discriminate | reflexivity].
      * intros [Hne|Hz]; [contradiction|].
        destruct (VirtualMicManager.scan_modules _ _); [discriminate Hf | discriminate Hz].
    + destruct Hs as [ks Hk]. rewrite Hk.
      destruct (sort_keys_ok _ _ Hk) as [Hsnd _].
      rewrite (unloaded_ids_app (unload_events _ _ _)), unloaded_ids_unload_events.
      simpl. rewrite app_nil_r.
      assert (Hlen : length (map fst (map snd (VirtualMicManager.sort_desc ks)))
                     = length (VirtualMicManager.scan_modules (PyStr.split_lines out) [])).
      { rewrite !length_map, <- Hsnd, length_map.
        apply Permutation_length, sort_desc_perm. }
      split.
      * split.
        -- intros Hnil. right; left. now rewrite <- Hlen, Hnil.
        -- intros [Hne|[Hz|Hm]]; try contradiction.
           rewrite <- Hlen in Hz.
           now destruct (map fst (map snd (VirtualMicManager.sort_desc ks))).
      * intros [Hne|Hz]; [contradiction|]. split; [reflexivity|].
        rewrite <- Hlen in Hz.
        assert (Hks : VirtualMicManager.sort_desc ks = []).
        { rewrite !length_map in Hz.
          now destruct (VirtualMicManager.sort_desc ks). }
        now rewrite Hks.
  - apply Z.eqb_neq in Hrc. split.
    + split; [intros _; now left | reflexivity].
    + intros _. split; reflexivity.
Qed.

Lemma insert_desc_stable {A} (n : Z) (x : Z * A) l :
  filter (fun kx => fst kx =? n) (VirtualMicManager.insert_desc x l)
  = filter (fun kx => fst kx =? n) (x :: l).
Proof.
  induction l as [|y l IH]; [reflexivity|].
  simpl VirtualMicManager.insert_desc.
  destruct (fst x <? fst y) eqn:Hlt; [|reflexivity].
  apply Z.ltb_lt in Hlt.
  change (filter (fun kx => fst kx =? n) (y :: VirtualMicManager.insert_desc x l))
    with (if fst y =? n
          then y :: filter (fun kx => fst kx =? n) (VirtualMicManager.insert_desc x l)
          else filter (fun kx => fst kx =? n) (VirtualMicManager.insert_desc x l)).
  rewrite IH. simpl.
  destruct (fst y =? n) eqn:Hy; [|reflexivity].
  apply Z.eqb_eq in Hy.
  assert (Hx : (fst x =? n) = false) by (apply Z.eqb_neq; lia).
  now rewrite Hx.
Qed.

Lemma sort_desc_stable {A} (n : Z) (l : list (Z * A)) :
  filter (fun kx => fst kx =? n) (VirtualMicManager.sort_desc l)
  = filter (fun kx => fst kx =? n) l.
Proof.
  induction l as [|x l IH]; [reflexivity|].
  simpl VirtualMicManager.sort_desc. rewrite insert_desc_stable. simpl.
  now rewrite IH.
Qed.

Lemma filter_has_number n (l : list (Z * (string * string))) :
  Forall (fun kx => PyStr.int (fst (snd kx)) = Some (fst kx)) l ->
  filter (has_number n) (map fst (map snd l))
  = map fst (map snd (filter (fun kx => fst kx =? n) l)).
Proof.
  induction 1 as [|kx l Hk _ IH]; [reflexivity|].
  simpl. unfold has_number at 1. rewrite Hk.
  destruct (fst kx =? n); simpl; now rewrite IH.
Qed.

Lemma sorted_keys_ge {A} (l : list (Z * A)) :
  StronglySorted key_ge l -> StronglySorted Z.ge (map fst l).
Proof.
  induction 1 as [|y l _ IH Hy]; simpl; constructor; [exact IH|].
  apply Forall_forall. intros k Hk. apply in_map_iff in Hk as (z & <- & Hz).
  rewrite Forall_forall in Hy. exact (Hy z Hz).
Qed.

(** X5. When the listing succeeded and every matched line carries an
    integer module number, whether or not two lines carry the same
    number: the unload requests follow the numbers in descending order,
    and the requests for lines denoting the same number keep the order
    these lines have in the listing (the sort is stable). *)
Theorem cleanup_all_ties_keep_listing_order
  (E : Env) (w : World) (out err : string) (ks : list (Z * (string * string))) :
  fst (list_modules E w) = Ret (0, out, err) ->
  VirtualMicManager.sort_keys
    (VirtualMicManager.scan_modules (PyStr.split_lines out) []) = Ret ks ->
  let ids := unloaded_ids (new_events w (snd (VirtualMicManager.cleanup_all E w))) in
  (exists nums,
      Forall2 (fun module_id n => PyStr.int module_id = Some n) ids nums /\
      StronglySorted Z.ge nums) /\
  forall n,
    filter (has_number n) ids
    = filter (has_number n)
        (map fst (VirtualMicManager.scan_modules (PyStr.split_lines out) [])).
Proof.
  intros Hl Hk ids.
  destruct (cleanup_all_unloaded E w out err ks Hl Hk) as [_ Hids].
  destruct (sort_keys_ok _ _ Hk) as [Hsnd Hint].
  assert (Hint' : Forall (fun kx => PyStr.int (fst (snd kx)) = Some (fst kx))
                    (VirtualMicManager.sort_desc ks)).
  { rewrite Forall_forall in *. intros kx Hin. apply Hint.
    eapply Permutation_in; [apply sort_desc_perm | exact Hin]. }
  subst ids. rewrite Hids. split.
  - exists (map fst (VirtualMicManager.sort_desc ks)). split.
    + rewrite map_map. now apply Forall2_map_same.
    + apply sorted_keys_ge, sort_desc_sorted.
  - intros n. rewrite <- Hsnd.
    rewrite (filter_has_number n _ Hint'), (filter_has_number n _ Hint).
    now rewrite sort_desc_stable.
Qed.

(** ** The fields of a listing line *)

Lemma append_empty_r (s : string) : s ++ "" = s.
Proof. induction s as [|c s IH]; simpl; [reflexivity | now rewrite IH]. Qed.

Lemma append_assoc_str (a b c : string) : (a ++ b) ++ c = a ++ b ++ c.
Proof. induction a as [|x a IH]; simpl; [reflexivity | now rewrite IH]. Qed.

Lemma no_blank_app a b : no_blank (a ++ b) = no_blank a && no_blank b.
Proof.
  induction a as [|c a IH]; simpl; [reflexivity|].
  now rewrite IH, andb_assoc.
Qed.

Lemma is_empty_app_char cur c : PyStr.is_empty (cur ++ String c "") = false.
Proof. now destruct cur. Qed.

Lemma split_ws_fields s cur :
  no_blank cur = true ->
  Forall (fun f => PyStr.is_empty f = false /\ no_blank f = true) (PyStr.split_ws s cur).
Proof.
  revert cur; induction s as [|c s IH]; intros cur Hcur; simpl.
  - destruct (PyStr.is_empty cur) eqn:He; constructor; [now split | constructor].
  - destruct (PyStr.isspace c) eqn:Hc.
    + destruct (PyStr.is_empty cur) eqn:He.
      * now apply IH.
      * constructor; [now split | now apply IH].
    + apply IH. rewrite no_blank_app, Hcur. simpl. now rewrite Hc.
Qed.

Lemma split_ws_app_field f s cur :
  no_blank f = true -> PyStr.split_ws (f ++ s) cur = PyStr.split_ws s (cur ++ f).
Proof.
  revert cur; induction f as [|c f IH]; intros cur Hf; simpl.
  - now rewrite append_empty_r.
  - simpl in Hf. apply andb_true_iff in Hf as [Hc Hf].
    apply negb_true_iff in Hc. rewrite Hc, IH by exact Hf.
    now rewrite append_assoc_str.
Qed.

(** Splitting fields joined by single spaces gives the fields back. *)
Lemma split_join fields :
  Forall (fun f => PyStr.is_empty f = false /\ no_blank f = true) fields ->
  PyStr.split (PyStr.join " " fields) = fields.
Proof.
  unfold PyStr.split, PyStr.join.
  induction 1 as [|f fields [Hne Hnb] Hrest IH]; [reflexivity|].
  destruct fields as [|g fields].
  - simpl. rewrite <- (append_empty_r f) at 1.
    rewrite split_ws_app_field by exact Hnb. simpl. now rewrite Hne.
  - change (String.concat " " (f :: g :: fields))
      with (f ++ " " ++ String.concat " " (g :: fields)).
    rewrite split_ws_app_field by exact Hnb.
    change (" " ++ String.concat " " (g :: fields))
      with (String " " (String.concat " " (g :: fields))).
    simpl PyStr.split_ws at 1.
    change (PyStr.isspace " ") with true. cbv iota.
    simpl in IH. rewrite Hne, IH. reflexivity.
Qed.

(** X6. What [cleanup_all] extracts from a listing line is normalised.
    The module number of a line with at least two fields is a non-empty
    token without blanks, and so is therefore the argument of every
    unload request.  The metadata is the remaining fields separated by
    single spaces: splitting the number followed by a space and the
    metadata gives the fields of the line back, however the line was
    spaced. *)
Theorem module_fields_normalised (E : Env) (w : World) :
  (forall line module_id module_info,
      module_fields line = Some (module_id, module_info) ->
      PyStr.is_empty module_id = false /\ no_blank module_id = true /\
      PyStr.split (module_id ++ " " ++ module_info) = PyStr.split line /\
      PyStr.split module_info = tl (PyStr.split line)) /\
  Forall (fun module_id => PyStr.is_empty module_id = false /\ no_blank module_id = true)
    (unloaded_ids (new_events w (snd (VirtualMicManager.cleanup_all E w)))).
Proof.
  assert (Hfields : forall line module_id module_info,
             module_fields line = Some (module_id, module_info) ->
             PyStr.is_empty module_id = false /\ no_blank module_id = true /\
             PyStr.split (module_id ++ " " ++ module_info) = PyStr.split line /\
             PyStr.split module_info = tl (PyStr.split line)).
  { intros line module_id module_info H. unfold module_fields in H.
    pose proof (split_ws_fields line "" eq_refl) as Hf. fold (PyStr.split line) in Hf.
    destruct (PyStr.split line) as [|a [|b parts]] eqn:Hs; try discriminate.
    injection H as <- <-.
    inversion Hf as [|? ? [Ha1 Ha2] Hrest]; subst.
    split; [exact Ha1|]. split; [exact Ha2|]. split.
    - change (PyStr.split (PyStr.join " " (a :: b :: parts)) = a :: b :: parts).
      apply split_join. now constructor.
    - change (PyStr.split (PyStr.join " " (b :: parts)) = b :: parts).
      now apply split_join. }
  split; [exact Hfields|].
  apply Forall_forall. intros module_id Hin.
  apply unloaded_ids_marked, in_map_iff in Hin as ([id info] & Hid & Hin).
  simpl in Hid; subst id.
  unfold marked in Hin. destruct (listing_result E w) as [[rc out] err].
  destruct (rc =? 0); [|contradiction].
  apply scan_modules_in in Hin as (line & _ & Hf & _).
  destruct (Hfields _ _ _ Hf) as (H1 & H2 & _). now split.
Qed.

(** ** setup: outcomes and state *)

Lemma unload_events_pactl E t l :
  Forall (fun ev => is_pactl_step (call_of ev) = true) (unload_events E t l).
Proof.
  revert t; induction l as [|[module_id module_info] rest IH]; intros t; simpl.
  - constructor.
  - repeat (constructor; [rewrite ?call_of_run_cmd_event; reflexivity|]).
    apply IH.
Qed.

Lemma purge_events_pactl E w :
  Forall (fun ev => is_pactl_step (call_of ev) = true) (purge_events E w).
Proof.
  unfold purge_events. destruct (listing_result E w) as [[rc out] err].
  destruct (rc =? 0); [|now repeat constructor].
  destruct (VirtualMicManager.sort_keys _); [|constructor].
  apply Forall_app; split; [apply unload_events_pactl | now repeat constructor].
Qed.

Lemma run_cmd_done E t cmd timeout :
  fst (fst (run_cmd_result E t cmd timeout)) = 0
  \/ snd (fst (run_cmd_result E t cmd timeout)) <> "" ->
  run_cmd_event E t cmd timeout = Done (CRun cmd timeout).
Proof.
  unfold run_cmd_result, run_cmd_event.
  destruct (subprocess_run E t cmd timeout) as [r|e]; [reflexivity|].
  destruct e; simpl; intros [H|H]; try discriminate; now contradiction H.
Qed.

Lemma contains_nonempty needle :
  needle <> "" -> PyStr.contains needle "" = false.
Proof. destruct needle; [contradiction | reflexivity]. Qed.

Lemma extend2 w (a b c : list Event) :
  extend (extend w (a ++ b)) c = extend w (a ++ b ++ c).
Proof. now rewrite extend_extend, <- app_assoc. Qed.

Lemma extend3 w (a b c d : list Event) :
  extend (extend (extend w (a ++ b)) c) d = extend w (a ++ b ++ c ++ d).
Proof. now rewrite !extend_extend, <- !app_assoc. Qed.

(** The whole run of [setup], from the state [w]. *)
Lemma setup_run E w :
  exists after,
    snd (VirtualMicManager.setup E w)
    = extend (clear_world (setup_start w))
        (listing_events E (setup_start w) ++ purge_events E (setup_start w) ++ after) /\
    Forall (fun ev => is_pactl_step (call_of ev) = true) after /\
    match cleanup_result E (setup_start w) with
    | Raise e => fst (VirtualMicManager.setup E w) = Raise e /\ after = []
    | Ret _ =>
        exists b msg,
          fst (VirtualMicManager.setup E w) = Ret (b, msg) /\
          ((b = false /\ exists err, msg = "Failed to create virtual microphone: " ++ err)
           \/ (b = false /\ msg = "Failed to create virtual microphone")
           \/ (b = true /\
               msg = "Virtual Microphone Created '" ++ mic_name (self w) ++ "'" /\
               In (Done (CRun (VirtualMicManager.load_cmd (mic_name (self w)))
                           default_timeout)) after /\
               In (Done (CRun VirtualMicManager.list_sources_cmd default_timeout))
                 after))
    end.
Proof.
  rewrite setup_split, create_device_eq, cleanup_all_run.
  destruct (cleanup_result E (setup_start w)) as [[]|e].
  - set (wc := extend (clear_world (setup_start w)) _).
    pose proof (run_cmd_done E (trace wc ++ [Done (CSleep 2000)])
                  (VirtualMicManager.load_cmd (mic_name (self w))) default_timeout)
      as Hdone.
    set (load_ev := run_cmd_event E _ _ _) in *.
    assert (Hload : call_of load_ev
                    = CRun (VirtualMicManager.load_cmd (mic_name (self w)))
                        default_timeout) by apply call_of_run_cmd_event.
    destruct (run_cmd_result E _ _ _) as [[rc out] err]. simpl in Hdone.
    destruct (rc =? 0) eqn:Hrc; simpl.
    + destruct (PyStr.isdigit out) eqn:Hd; simpl.
      * apply Z.eqb_eq in Hrc.
        rewrite settle_and_list_eq.
        set (t3 := (trace (extend wc [Done (CSleep 2000); load_ev]) ++ _)%list).
        pose proof (run_cmd_done E t3 VirtualMicManager.list_sources_cmd
                      default_timeout) as Hdone2.
        set (src_ev := run_cmd_event E t3 _ _) in *.
        assert (Hsrc : call_of src_ev
                       = CRun VirtualMicManager.list_sources_cmd default_timeout)
          by apply call_of_run_cmd_event.
        destruct (run_cmd_result E t3 _ _) as [[rc2 sources] err2].
        simpl in Hdone2.
        set (set_ev := run_cmd_event E _ _ _).
        assert (Hset : is_pactl_step (call_of set_ev) = true)
          by (subst set_ev; now rewrite call_of_run_cmd_event).
        exists [Done (CSleep 2000); load_ev;
                Done (CPrint ("Created virtual microphone: " ++ out));
                set_ev; Done (CSleep 2000); src_ev].
        split; [|split].
        -- destruct (PyStr.contains _ sources); unfold snd; subst wc;
             rewrite extend3; reflexivity.
        -- repeat constructor; rewrite ?Hload, ?Hsrc; try reflexivity. exact Hset.
        -- destruct (PyStr.contains _ sources) eqn:Hc; simpl.
           ++ exists true, ("Virtual Microphone Created '" ++ mic_name (self w) ++ "'").
              split; [reflexivity|]. right; right.
              split; [reflexivity|]. split; [reflexivity|]. split.
              ** right; left. apply Hdone. now left.
              ** do 5 right. left. apply Hdone2. right.
                 intros ->. rewrite contains_nonempty in Hc; [discriminate|].
                 now destruct (mic_name (self w)).
           ++ exists false, "Failed to create virtual microphone".
              split; [reflexivity|]. right; left. now split.
      * exists [Done (CSleep 2000); load_ev]. split; [|split].
        -- subst wc. unfold snd. rewrite extend2. reflexivity.
        -- repeat constructor; rewrite ?Hload; reflexivity.
        -- exists false, ("Failed to create virtual microphone: " ++ err).
           split; [reflexivity|]. left. split; [reflexivity | now exists err].
    + exists [Done (CSleep 2000); load_ev]. split; [|split].
      * subst wc. unfold snd. rewrite extend2. reflexivity.
      * repeat constructor; rewrite ?Hload; reflexivity.
      * exists false, ("Failed to create virtual microphone: " ++ err).
        split; [reflexivity|]. left. split; [reflexivity | now exists err].
  - exists []. split; [|split; [constructor | now split]].
    simpl. now rewrite app_nil_r.
Qed.

Lemma cleanup_all_fst E w :
  fst (VirtualMicManager.cleanup_all E w) = cleanup_result E w.
Proof. now rewrite cleanup_all_run. Qed.

Lemma new_events_setup_run E w after :
  new_events w
    (extend (clear_world (setup_start w))
       (listing_events E (setup_start w) ++ purge_events E (setup_start w) ++ after))
  = (Done (CPrint ("Creating virtual microphone: " ++ mic_name (self w)))
     :: listing_events E (setup_start w) ++ purge_events E (setup_start w) ++ after)%list.
Proof. apply new_events_setup. Qed.

(** X7. [setup] has exactly five outcomes.  It raises exactly when its
    [cleanup_all] raises, with the same exception; otherwise it returns
    the creation failure, the verification failure, or success with the
    message naming the device.  In every case, raising included, the
    manager is left with its player handle (and process handle) dropped,
    its device name and libVLC instance untouched, and no handle number
    consumed. *)
Theorem setup_outcomes (E : Env) (w : World) :
  match fst (VirtualMicManager.cleanup_all E (setup_start w)) with
  | Raise e => fst (VirtualMicManager.setup E w) = Raise e
  | Ret _ =>
      exists b msg,
        fst (VirtualMicManager.setup E w) = Ret (b, msg) /\
        ((b = false /\ exists err, msg = "Failed to create virtual microphone: " ++ err)
         \/ (b = false /\ msg = "Failed to create virtual microphone")
         \/ (b = true /\
             msg = "Virtual Microphone Created '" ++ mic_name (self w) ++ "'"))
  end /\
  self (snd (VirtualMicManager.setup E w)) = cleared (self w) /\
  next_handle (snd (VirtualMicManager.setup E w)) = next_handle w.
Proof.
  destruct (setup_run E w) as (after & Hw & _ & Hres).
  rewrite cleanup_all_fst, Hw. split; [|now split].
  destruct (cleanup_result E (setup_start w)) as [[]|e]; [|exact (proj1 Hres)].
  destruct Hres as (b & msg & Hr & Hcase). exists b, msg. split; [exact Hr|].
  destruct Hcase as [H|[H|(Hb & Hm & _)]]; [now left | now right; left |].
  right; right. now split.
Qed.

(** X8. [setup] reports success only after real answers.  If it returns
    success, then the creation call and the source listing both ran to
    completion (neither timed out nor failed to start), the creation call
    answered status zero with an all-digit output, and the monitor name
    occurs in the source listing.  The exit status of the source listing
    and the outcome of the default-source request play no part. *)
Theorem setup_success_needs_answers (E : Env) (w : World) (msg : string) :
  fst (VirtualMicManager.setup E w) = Ret (true, msg) ->
  In (Done (CRun (VirtualMicManager.load_cmd (mic_name (self w))) default_timeout))
     (new_events w (snd (VirtualMicManager.setup E w))) /\
  In (Done (CRun VirtualMicManager.list_sources_cmd default_timeout))
     (new_events w (snd (VirtualMicManager.setup E w))) /\
  exists out err rc2 sources err2,
    fst (create_device E w) = Ret (0, out, err) /\ PyStr.isdigit out = true /\
    fst (settle_and_list E (mic_name (self w)) out (snd (create_device E w)))
    = Ret (rc2, sources, err2) /\
    PyStr.contains (mic_name (self w) ++ ".monitor") sources = true.
Proof.
  intros Hok.
  destruct (setup_run E w) as (after & Hw & _ & Hres).
  assert (Hin : In (Done (CRun (VirtualMicManager.load_cmd (mic_name (self w)))
                            default_timeout)) after /\
                In (Done (CRun VirtualMicManager.list_sources_cmd default_timeout))
                   after).
  { destruct (cleanup_result E (setup_start w)) as [[]|e].
    - destruct Hres as (b & msg' & Hr & Hcase). rewrite Hr in Hok.
      injection Hok as -> ->.
      destruct Hcase as [[Hb _]|[[Hb _]|(_ & _ & H1 & H2)]]; try discriminate.
      now split.
    - destruct Hres as [Hr _]. rewrite Hr in Hok. discriminate. }
  rewrite Hw, new_events_setup_run.
  split; [right; apply in_or_app; right; apply in_or_app; right; exact (proj1 Hin)|].
  split; [right; apply in_or_app; right; apply in_or_app; right; exact (proj2 Hin)|].
  clear Hw Hres Hin after. rewrite setup_split in Hok.
  destruct (create_device E w) as [[[[rc out] err]|e] wc]; [|discriminate].
  simpl fst. simpl snd.
  destruct (rc =? 0) eqn:Hrc; [|discriminate].
  destruct (PyStr.isdigit out) eqn:Hd; [|discriminate].
  simpl in Hok. apply Z.eqb_eq in Hrc; subst rc.
  destruct (settle_and_list E (mic_name (self w)) out wc)
    as [[[[rc2 sources] err2]|e] wv] eqn:Hs; [|discriminate].
  destruct (PyStr.contains _ sources) eqn:Hc; [|discriminate].
  exists out, err, rc2, sources, err2. rewrite Hs. now repeat split.
Qed.

(** ** What the manager keeps over any sequence of operations *)

Lemma instances_app a b : instances (a ++ b) = (instances a ++ instances b)%list.
Proof.
  induction a as [|ev a IH]; simpl; [reflexivity|].
  destruct ev as [c|c]; [destruct c|]; simpl; now rewrite ?IH.
Qed.

Lemma plain_events name evs :
  Forall plain evs -> instances evs = [] /\ Forall (routed name) evs.
Proof.
  induction 1 as [|ev evs Hev _ [IH1 IH2]]; [now split|].
  unfold plain in Hev.
  destruct ev as [c|c]; destruct c; simpl in *; try discriminate;
    (split; [exact IH1 | constructor; [exact I | exact IH2]]).
Qed.

Lemma plain_step m m' evs :
  Forall plain evs -> vlc_instance m' = vlc_instance m ->
  Forall (routed (mic_name m)) evs /\ instance_step m m' evs.
Proof.
  intros Hp Hi. destruct (plain_events (mic_name m) evs Hp) as [Hn Hr].
  split; [exact Hr|]. unfold instance_step. rewrite Hi, Hn.
  now destruct (vlc_instance m).
Qed.

Lemma stop_events_plain E w : Forall plain (stop_events E w).
Proof.
  eapply Forall_impl; [|apply stop_events_stop].
  intros ev H. unfold plain. cbv beta in H.
  destruct (call_of ev); simpl in *; first [reflexivity | discriminate].
Qed.

Lemma pactl_plain evs :
  Forall (fun ev => is_pactl_step (call_of ev) = true) evs -> Forall plain evs.
Proof.
  apply Forall_impl. intros ev H. unfold plain.
  destruct (call_of ev); simpl in *; first [reflexivity | discriminate].
Qed.

Lemma listing_events_plain E w : Forall plain (listing_events E w).
Proof.
  unfold listing_events, cleanup_prefix.
  apply Forall_app; split.
  - constructor; [reflexivity | apply stop_events_plain].
  - constructor; [|constructor]. unfold plain. now rewrite call_of_run_cmd_event.
Qed.

(** The effect of one operation on the log and on the manager. *)
Lemma run_op_step E op w :
  exists evs,
    trace (run_op E op w) = (trace w ++ evs)%list /\
    mic_name (self (run_op E op w)) = mic_name (self w) /\
    Forall (routed (mic_name (self w))) evs /\
    instance_step (self w) (self (run_op E op w)) evs.
Proof.
  destruct op as [audio_path| | | | | |]; simpl.
  - destruct (os_path_exists E (trace w) audio_path) eqn:Hx.
    + rewrite (play_audio_vlc_found _ _ _ Hx).
      set (w1 := extend w [Done (CExists audio_path)]).
      destruct (play_body_outcome E audio_path
                  (snd (VirtualMicManager.stop_playback E w1)))
        as (b & msg & w' & body & Hr & Ht & Hn & _ & Hrt & Hi & _).
      rewrite Hr. simpl snd. rewrite stop_playback_eq in Ht, Hn, Hrt, Hi.
      simpl in Ht, Hn, Hrt, Hi.
      destruct (plain_events (mic_name (self w))
                  (Done (CExists audio_path) :: stop_events E w1))
        as [Hin Hrp].
      { constructor; [reflexivity | apply stop_events_plain]. }
      exists (Done (CExists audio_path) :: stop_events E w1 ++ body)%list.
      split; [rewrite Ht; simpl; now rewrite <- !app_assoc|].
      split; [exact Hn|]. split.
      * change (Forall (routed (mic_name (self w)))
                  ((Done (CExists audio_path) :: stop_events E w1) ++ body)).
        apply Forall_app. now split.
      * unfold instance_step in *.
        change (instances (Done (CExists audio_path) :: stop_events E w1 ++ body))
          with (instances ((Done (CExists audio_path) :: stop_events E w1) ++ body)).
        rewrite instances_app, Hin. exact Hi.
    + rewrite (play_audio_vlc_missing _ _ _ Hx).
      exists [Done (CExists audio_path)]. split; [reflexivity|]. split; [reflexivity|].
      apply plain_step; [now repeat constructor | reflexivity].
  - rewrite stop_playback_eq. exists (stop_events E w).
    split; [reflexivity|]. split; [reflexivity|].
    apply plain_step; [apply stop_events_plain | reflexivity].
  - rewrite cleanup_all_run.
    exists (listing_events E w ++ purge_events E w)%list.
    split; [reflexivity|]. split; [reflexivity|].
    apply plain_step; [|reflexivity].
    apply Forall_app; split;
      [apply listing_events_plain | apply pactl_plain, purge_events_pactl].
  - destruct (setup_run E w) as (after & -> & Hafter & _).
    exists (Done (CPrint ("Creating virtual microphone: " ++ mic_name (self w)))
            :: listing_events E (setup_start w)
               ++ purge_events E (setup_start w) ++ after)%list.
    split; [unfold setup_start, extend; simpl; now rewrite <- app_assoc|].
    split; [reflexivity|].
    apply plain_step; [|reflexivity].
    constructor; [reflexivity|].
    apply Forall_app; split; [apply listing_events_plain|].
    apply Forall_app; split; apply pactl_plain; [apply purge_events_pactl | exact Hafter].
  - unfold VirtualMicManager.get_playback_time, bind, get_self, query.
    destruct (vlc_player (self w)); simpl.
    + eexists [_]. split; [reflexivity|]. split; [reflexivity|].
      apply plain_step; [now repeat constructor | reflexivity].
    + exists []. split; [now rewrite app_nil_r|]. split; [reflexivity|].
      apply plain_step; [constructor | reflexivity].
  - unfold VirtualMicManager.get_media_length, bind, get_self, query.
    destruct (vlc_player (self w)); simpl.
    + eexists [_]. split; [reflexivity|]. split; [reflexivity|].
      apply plain_step; [now repeat constructor | reflexivity].
    + exists []. split; [now rewrite app_nil_r|]. split; [reflexivity|].
      apply plain_step; [constructor | reflexivity].
  - unfold VirtualMicManager.is_playing, bind, get_self, query.
    destruct (vlc_player (self w)); simpl.
    + eexists [_]. split; [reflexivity|]. split; [reflexivity|].
      apply plain_step; [now repeat constructor | reflexivity].
    + exists []. split; [now rewrite app_nil_r|]. split; [reflexivity|].
      apply plain_step; [constructor | reflexivity].
Qed.

Lemma manager_inv_ops E ops w :
  manager_inv w -> Forall (routed (mic_name VirtualMicManager.init)) (trace w) ->
  manager_inv (run_ops E ops w)
  /\ Forall (routed (mic_name VirtualMicManager.init)) (trace (run_ops E ops w)).
Proof.
  revert w; induction ops as [|op ops IH]; intros w Hinv Hr; simpl; [now split|].
  destruct Hinv as [Hname Hinst].
  destruct (run_op_step E op w) as (evs & Ht & Hn & Hrt & Hi).
  apply IH.
  - split; [congruence|].
    rewrite Ht, instances_app, Hinst. unfold instance_step in Hi.
    destruct (vlc_instance (self w)) as [i|].
    + destruct Hi as [-> ->]. reflexivity.
    + exact Hi.
  - rewrite Ht. apply Forall_app. split; [exact Hr|]. now rewrite <- Hname.
Qed.

(** X9. The libVLC instance is created at most once.  In every state
    reached from the initial one by manager operations, the instances
    created so far are exactly the one held, if any; and whatever
    operation comes next keeps an instance that is held and creates no
    other (stopping, tearing down and provisioning never drop it). *)
Theorem vlc_instance_created_once (E : Env) (ops : list Op) (op : Op) :
  let w := run_ops E ops initial_world in
  instances (trace w) = opt_list (vlc_instance (self w)) /\
  (length (instances (trace w)) <= 1)%nat /\
  match vlc_instance (self w) with
  | Some i =>
      vlc_instance (self (run_op E op w)) = Some i /\
      instances (new_events w (run_op E op w)) = []
  | None => True
  end.
Proof.
  intros w.
  destruct (manager_inv_ops E ops initial_world) as [[_ Hinst] _];
    [now split | constructor |].
  fold w in Hinst. split; [exact Hinst|]. split.
  - rewrite Hinst. destruct (vlc_instance (self w)); simpl; lia.
  - destruct (run_op_step E op w) as (evs & Ht & _ & _ & Hi).
    rewrite (new_events_app _ _ _ Ht). unfold instance_step in Hi.
    destruct (vlc_instance (self w)); [|exact I]. now destruct Hi.
Qed.

(** X10. Audio is only ever routed to the virtual microphone.  In every
    state reached from the initial one by manager operations, the device
    name is still the one set by [__init__], "Real4n54n", and every
    routing request ever made to the backend selected the PulseAudio
    output and that device. *)
Theorem audio_routed_to_device_only (E : Env) (ops : list Op) :
  let w := run_ops E ops initial_world in
  mic_name (self w) = "Real4n54n" /\
  Forall (routed "Real4n54n") (trace w).
Proof.
  intros w.
  destruct (manager_inv_ops E ops initial_world) as [[Hname _] Hr];
    [now split | constructor |].
  now split.
Qed.

(** ** The polling accessors without a player *)

Lemma accessors_without_player E w :
  vlc_player (self w) = None ->
  VirtualMicManager.get_playback_time E w = (Ret 0, w) /\
  VirtualMicManager.get_media_length E w = (Ret 0, w) /\
  VirtualMicManager.is_playing E w = (Ret false, w).
Proof.
  intros H.
  unfold VirtualMicManager.get_playback_time, VirtualMicManager.get_media_length,
    VirtualMicManager.is_playing, bind, get_self.
  rewrite H. now repeat split.
Qed.

(** X11. Position, duration and activity are reset whenever no player is
    held: in the initial state, and right after [stop_playback],
    [cleanup_all] or [setup] from any state (also when these raised),
    [get_playback_time] and [get_media_length] return 0 and [is_playing]
    returns False, without any call to the backend and without changing
    anything. *)
Theorem accessors_reset_without_player (E : Env) (w : World) :
  Forall (fun w' =>
            VirtualMicManager.get_playback_time E w' = (Ret 0, w') /\
            VirtualMicManager.get_media_length E w' = (Ret 0, w') /\
            VirtualMicManager.is_playing E w' = (Ret false, w'))
    [initial_world;
     snd (VirtualMicManager.stop_playback E w);
     snd (VirtualMicManager.cleanup_all E w);
     snd (VirtualMicManager.setup E w)].
Proof.
  constructor; [now apply accessors_without_player|].
  constructor; [apply accessors_without_player; now rewrite stop_playback_eq|].
  constructor; [apply accessors_without_player; now rewrite cleanup_all_run|].
  constructor; [|constructor].
  apply accessors_without_player.
  destruct (setup_run E w) as (after & -> & _). reflexivity.
Qed.

(** ** The further properties at concrete inputs *)

(** X2 at a concrete input: the first Play on the sample machine. *)
Lemma successful_play_is_routed_witness :
  fst (VirtualMicManager.play_audio_vlc sample_env "/music/clip.wav" initial_world)
  = Ret (true, "Sending audio 'clip.wav'") /\
  exists i p m pre,
    new_events initial_world
      (snd (VirtualMicManager.play_audio_vlc sample_env "/music/clip.wav" initial_world))
    = (Done (CExists "/music/clip.wav")
       :: stop_events sample_env (extend initial_world [Done (CExists "/music/clip.wav")])
       ++ pre ++ play_steps i p m (mic_name (self initial_world)) "/music/clip.wav")%list /\
    (pre = [] /\ vlc_instance (self initial_world) = Some i
     \/ pre = [Done (CInstance ["--no-video"; "--quiet"] i)]
        /\ vlc_instance (self initial_world) = None) /\
    vlc_player (self (snd (VirtualMicManager.play_audio_vlc sample_env "/music/clip.wav"
                             initial_world))) = Some p /\
    vlc_instance (self (snd (VirtualMicManager.play_audio_vlc sample_env "/music/clip.wav"
                               initial_world))) = Some i /\
    "Sending audio 'clip.wav'" = "Sending audio '" ++ PyStr.basename "/music/clip.wav" ++ "'".
Proof.
  assert (H : fst (VirtualMicManager.play_audio_vlc sample_env "/music/clip.wav"
                     initial_world)
              = Ret (true, "Sending audio 'clip.wav'")) by (vm_compute; reflexivity).
  split; [exact H|].
  exact (successful_play_is_routed sample_env "/music/clip.wav" initial_world
           "Sending audio 'clip.wav'" H).
Defined.

(** X4 at a concrete input: [pactl] timing out. *)
Lemma cleanup_all_unloads_nothing_iff_witness :
  fst (list_modules unreachable_env initial_world) = Ret (1, "", "Timeout") /\
  (unloaded_ids (new_events initial_world
                   (snd (VirtualMicManager.cleanup_all unreachable_env initial_world))) = []
   <-> (1 <> 0 \/ matching_lines "" = 0%nat
        \/ first_malformed
             (VirtualMicManager.scan_modules (PyStr.split_lines "") []) <> None)) /\
  (1 <> 0 \/ matching_lines "" = 0%nat ->
   fst (VirtualMicManager.cleanup_all unreachable_env initial_world) = Ret tt /\
   new_events initial_world
     (snd (VirtualMicManager.cleanup_all unreachable_env initial_world))
   = (new_events initial_world (snd (list_modules unreachable_env initial_world))
      ++ [Done (CSleep 2000)])%list).
Proof.
  assert (H : fst (list_modules unreachable_env initial_world)
              = Ret (1, "", "Timeout")) by (vm_compute; reflexivity).
  split; [exact H|].
  exact (cleanup_all_unloads_nothing_iff unreachable_env initial_world 1 "" "Timeout" H).
Defined.

(** X5 at a concrete input: a listing in which "5" and "05" denote the
    same number. *)
Lemma cleanup_all_ties_keep_listing_order_witness :
  fst (list_modules (listing_env tied_modules) initial_world)
  = Ret (0, tied_modules, "") /\
  VirtualMicManager.sort_keys
    (VirtualMicManager.scan_modules (PyStr.split_lines tied_modules) []) = Ret tied_keys /\
  let ids := unloaded_ids
               (new_events initial_world
                  (snd (VirtualMicManager.cleanup_all (listing_env tied_modules)
                          initial_world))) in
  (exists nums,
      Forall2 (fun module_id n => PyStr.int module_id = Some n) ids nums /\
      StronglySorted Z.ge nums) /\
  forall n,
    filter (has_number n) ids
    = filter (has_number n)
        (map fst (VirtualMicManager.scan_modules (PyStr.split_lines tied_modules) [])).
Proof.
  assert (H1 : fst (list_modules (listing_env tied_modules) initial_world)
               = Ret (0, tied_modules, "")) by (vm_compute; reflexivity).
  assert (H2 : VirtualMicManager.sort_keys
                 (VirtualMicManager.scan_modules (PyStr.split_lines tied_modules) [])
               = Ret tied_keys) by (vm_compute; reflexivity).
  split; [exact H1|]. split; [exact H2|].
  exact (cleanup_all_ties_keep_listing_order (listing_env tied_modules) initial_world
           tied_modules "" tied_keys H1 H2).
Defined.

(** X8 at a concrete input: provisioning on the sample machine. *)
Lemma setup_success_needs_answers_witness :
  fst (VirtualMicManager.setup sample_env initial_world)
  = Ret (true, "Virtual Microphone Created 'Real4n54n'") /\
  In (Done (CRun (VirtualMicManager.load_cmd (mic_name (self initial_world)))
              default_timeout))
     (new_events initial_world (snd (VirtualMicManager.setup sample_env initial_world))) /\
  In (Done (CRun VirtualMicManager.list_sources_cmd default_timeout))
     (new_events initial_world (snd (VirtualMicManager.setup sample_env initial_world))) /\
  exists out err rc2 sources err2,
    fst (create_device sample_env initial_world) = Ret (0, out, err) /\
    PyStr.isdigit out = true /\
    fst (settle_and_list sample_env (mic_name (self initial_world)) out
           (snd (create_device sample_env initial_world)))
    = Ret (rc2, sources, err2) /\
    PyStr.contains (mic_name (self initial_world) ++ ".monitor") sources = true.
Proof.
  assert (H : fst (VirtualMicManager.setup sample_env initial_world)
              = Ret (true, "Virtual Microphone Created 'Real4n54n'"))
    by (vm_compute; reflexivity).
  split; [exact H|].
  exact (setup_success_needs_answers sample_env initial_world
           "Virtual Microphone Created 'Real4n54n'" H).
Defined.

Example tied_unload_order :
  unloaded_ids
    (new_events initial_world
       (snd (VirtualMicManager.cleanup_all (listing_env tied_modules) initial_world)))
  = ["12"; "5"; "05"].
Proof. vm_compute. reflexivity. Qed.

(** * Properties of the window's slots *)

Lemma play_audio_vlc_returns E audio_path w :
  exists b msg w',
    VirtualMicManager.play_audio_vlc E audio_path w = (Ret (b, msg), w') /\
    (b = true -> vlc_player (self w') <> None).
Proof.
  destruct (os_path_exists E (trace w) audio_path) eqn:Hx.
  - rewrite (play_audio_vlc_found _ _ _ Hx).
    destruct (play_body_outcome E audio_path
                (snd (VirtualMicManager.stop_playback
                        E (extend w [Done (CExists audio_path)]))))
      as (b & msg & w' & body & Hr & _ & _ & _ & _ & _ & Hcase).
    exists b, msg, w'. split; [exact Hr|]. intros ->.
    destruct Hcase as [(_ & _ & i & p & m & pre & _ & _ & Hp & _)
                      |[(Hb & _)|(Hb & _)]]; try discriminate.
    now rewrite Hp.
  - rewrite (play_audio_vlc_missing _ _ _ Hx). eexists _, _, _.
    split; [reflexivity | discriminate].
Qed.

Lemma update_progress_keeps E float_percent app w :
  exists app',
    fst (VirtualMicApp.update_progress E float_percent app w) = Ret app' /\
    VirtualMicApp.is_playing app' = VirtualMicApp.is_playing app /\
    self (snd (VirtualMicApp.update_progress E float_percent app w)) = self w /\
    (VirtualMicApp.is_playing app = false ->
     VirtualMicApp.update_progress E float_percent app w = (Ret app, w)).
Proof.
  destruct w as [[name inst pl pr] nh t]. destruct app as [flag bar].
  destruct flag; [|now eexists].
  destruct pl as [p|];
    cbv [VirtualMicApp.update_progress VirtualMicManager.is_playing
         VirtualMicManager.get_playback_time VirtualMicManager.get_media_length
         VirtualMicApp.percent VirtualMicApp.setValue VirtualMicApp.is_playing
         VirtualMicApp.progress_bar
         bind query get_self log ret raise self trace vlc_player];
    [|eexists; repeat split; discriminate].
  destruct (backend_get E t (CIsPlaying p) =? 0); simpl;
    [eexists; repeat split; discriminate|].
  rewrite <- !app_assoc. simpl.
  set (tot := backend_get E (t ++ [Done (CIsPlaying p); Done (CGetTime p)]) (CGetLength p)).
  destruct (tot >? 0) eqn:Hgt; [|eexists; repeat split; discriminate].
  assert (Hz : (tot =? 0) = false) by (apply Z.eqb_neq; apply Z.gtb_lt in Hgt; lia).
  rewrite Hz. simpl. eexists; repeat split; discriminate.
Qed.

Lemma stop_audio_run E clock win w :
  exists win',
    Window.stop_audio E clock win w
    = (Ret win',
       extend (snd (VirtualMicManager.stop_playback E w)) [Done (CSetValue 0)]) /\
    VirtualMicApp.is_playing (Window.app win') = false /\
    VirtualMicApp.progress_bar (Window.app win') = 0 /\
    Window.play_btn win' = true /\ Window.stop_btn win' = false /\
    Window.play_btn_style win' = Window.IdleStyle /\
    Window.check_playback_timer win'
    = match Window.check_playback_timer win with Some _ => Some false | None => None end /\
    Window.status_label win' = "Stopping audio..." /\
    Window.current_file win' = Window.current_file win /\
    Window.file_list win' = Window.file_list win.
Proof.
  unfold Window.stop_audio, bind. rewrite stop_playback_eq.
  unfold VirtualMicApp.setValue, bind. rewrite log_extend. unfold ret.
  destruct win as [a cf pb sb sty [tm|] fl ni fc fcl td sl]; simpl;
    eexists; (split; [reflexivity|]); now repeat split.
Qed.

(** X12. [stop_audio] always succeeds and resets the transport,
    whatever the state and whatever the backend does.  Afterwards the
    playing flag is off, the send button is enabled and the stop button
    disabled, the idle style is back, the completion timer (if it was
    ever created) is stopped, the manager holds no player, and the
    progress bar has been set to 0, once.  It stays there: a timeout of
    the progress timer that follows reports nothing and changes nothing,
    whatever the percentage computation is. *)
Theorem stop_audio_resets
  (E : Env) (clock : nat -> string) (float_percent : Z -> Z -> Z)
  (win : Window.State) (w : World) :
  exists win',
    Window.stop_audio E clock win w
    = (Ret win', snd (Window.stop_audio E clock win w)) /\
    let w' := snd (Window.stop_audio E clock win w) in
    VirtualMicApp.is_playing (Window.app win') = false /\
    Window.play_btn win' = true /\ Window.stop_btn win' = false /\
    Window.play_btn_style win' = Window.IdleStyle /\
    Window.check_playback_timer win' <> Some true /\
    vlc_player (self w') = None /\
    VirtualMicApp.progress_bar (Window.app win') = 0 /\
    reported (new_events w w') = [0] /\
    VirtualMicApp.update_progress E float_percent (Window.app win') w'
    = (Ret (Window.app win'), w').
Proof.
  destruct (stop_audio_run E clock win w)
    as (win' & Hr & Hp & Hb & Hpl & Hst & Hsty & Ht & _).
  exists win'. rewrite Hr. split; [reflexivity|]. simpl snd.
  repeat split; try assumption.
  - rewrite Ht. destruct (Window.check_playback_timer win); discriminate.
  - now rewrite stop_playback_eq.
  - rewrite stop_playback_eq. unfold new_events, extend; simpl.
    rewrite <- app_assoc, skipn_app, skipn_all, Nat.sub_diag. simpl.
    rewrite reported_app. simpl.
    assert (Hs : reported (stop_events E w) = []).
    { pose proof (stop_events_stop E w) as Hf.
      induction Hf as [|ev evs Hev _ IH]; [reflexivity|].
      destruct ev as [c|c]; destruct c; simpl in *; try discriminate; exact IH. }
    now rewrite Hs.
  - destruct (update_progress_keeps E float_percent (Window.app win')
                (extend (snd (VirtualMicManager.stop_playback E w)) [Done (CSetValue 0)]))
      as (a & _ & _ & _ & Hno).
    now apply Hno.
Qed.

Lemma is_playing_run E w :
  VirtualMicManager.is_playing E w
  = match vlc_player (self w) with
    | Some p =>
        (Ret (negb (backend_get E (trace w) (CIsPlaying p) =? 0)),
         extend w [Done (CIsPlaying p)])
    | None => (Ret false, w)
    end.
Proof.
  unfold VirtualMicManager.is_playing, bind, get_self, query.
  now destruct (vlc_player (self w)).
Qed.

(** The window after the playback was found finished. *)
Lemma finished_run E clock win w tm :
  Window.check_playback_timer win = Some tm ->
  fst (VirtualMicManager.is_playing E w) = Ret false ->
  exists win',
    Window.check_playback_completion E clock win w
    = (Ret win',
       extend (snd (VirtualMicManager.is_playing E w))
         (match Window.current_file win with
          | Some file => if PyStr.is_empty file then [] else [Done (CSetValue 100)]
          | None => []
          end)) /\
    VirtualMicApp.is_playing (Window.app win') = false /\
    Window.play_btn win' = true /\ Window.stop_btn win' = false /\
    Window.play_btn_style win' = Window.IdleStyle /\
    Window.check_playback_timer win' = Some false /\
    match Window.current_file win with
    | Some file =>
        if PyStr.is_empty file
        then Window.app win'
             = {| VirtualMicApp.is_playing := false;
                  VirtualMicApp.progress_bar :=
                    VirtualMicApp.progress_bar (Window.app win) |}
        else VirtualMicApp.progress_bar (Window.app win') = 100
             /\ Window.status_label win'
                = "Finished sending '" ++ PyStr.basename file ++ "'"
    | None =>
        Window.app win'
        = {| VirtualMicApp.is_playing := false;
             VirtualMicApp.progress_bar := VirtualMicApp.progress_bar (Window.app win) |}
    end.
Proof.
  intros Ht Hq. unfold Window.check_playback_completion, bind.
  destruct (VirtualMicManager.is_playing E w) as [[q|e] w1]; simpl in Hq;
    [|discriminate].
  injection Hq as ->. simpl negb. cbv iota. rewrite Ht.
  unfold Window.on_playback_finished.
  destruct win as [a cf pb sb sty tm' fl ni fc fcl td sl]; simpl in *.
  destruct cf as [file|]; [destruct (PyStr.is_empty file)|];
    unfold ret, bind, VirtualMicApp.setValue; simpl;
    rewrite ?log_extend, ?extend_nil; eexists; (split; [reflexivity|]);
    now repeat split.
Qed.

(** X13. A timeout of the completion timer, once the timer exists, never
    raises and leaves the manager as it is.  If the manager reports that
    audio is playing, the window is unchanged and nothing is reported.
    Otherwise (no player, or the backend says it stopped) the timer is
    stopped, the playing flag is cleared, the send button enabled, the
    stop button disabled and the idle style restored; the progress bar is
    set to 100 and the end of the file announced exactly when a
    non-empty current file is recorded.  After that a timeout of the
    progress timer reports nothing, so the bar keeps its value. *)
Theorem completion_tick
  (E : Env) (clock : nat -> string) (float_percent : Z -> Z -> Z)
  (win : Window.State) (w : World) (tm : bool) :
  Window.check_playback_timer win = Some tm ->
  let r := Window.check_playback_completion E clock win w in
  exists win',
    fst r = Ret win' /\
    self (snd r) = self w /\
    match fst (VirtualMicManager.is_playing E w) with
    | Ret true => win' = win /\ reported (new_events w (snd r)) = []
    | _ =>
        VirtualMicApp.is_playing (Window.app win') = false /\
        Window.play_btn win' = true /\ Window.stop_btn win' = false /\
        Window.play_btn_style win' = Window.IdleStyle /\
        Window.check_playback_timer win' = Some false /\
        match Window.current_file win with
        | Some file =>
            if PyStr.is_empty file
            then reported (new_events w (snd r)) = []
            else reported (new_events w (snd r)) = [100]
                 /\ VirtualMicApp.progress_bar (Window.app win') = 100
                 /\ Window.status_label win'
                    = "Finished sending '" ++ PyStr.basename file ++ "'"
        | None => reported (new_events w (snd r)) = []
        end /\
        VirtualMicApp.update_progress E float_percent (Window.app win') (snd r)
        = (Ret (Window.app win'), snd r)
    end.
Proof.
  intros Ht r. subst r.
  destruct (fst (VirtualMicManager.is_playing E w)) as [[|]|e] eqn:Hq.
  - unfold Window.check_playback_completion, bind.
    destruct (VirtualMicManager.is_playing E w) as [[q|e] w1] eqn:Hrun;
      simpl in Hq; [|discriminate].
    injection Hq as ->. simpl. exists win. split; [reflexivity|].
    rewrite is_playing_run in Hrun.
    destruct (vlc_player (self w)) as [p|]; injection Hrun as _ <-.
    + split; [reflexivity|]. split; [reflexivity|]. now rewrite new_events_extend.
    + split; [reflexivity|]. split; [reflexivity|].
      unfold new_events. now rewrite skipn_all.
  - destruct (finished_run E clock win w tm Ht Hq)
      as (win' & Hr & Hp & Hpl & Hst & Hsty & Htm & Hcf).
    rewrite Hr. simpl fst. simpl snd. exists win'. split; [reflexivity|].
    assert (Hself : self (snd (VirtualMicManager.is_playing E w)) = self w)
      by (rewrite is_playing_run; now destruct (vlc_player (self w))).
    split; [exact Hself|].
    assert (Hnew : forall tail,
               reported tail = reported tail ->
               reported (new_events w (extend (snd (VirtualMicManager.is_playing E w)) tail))
               = reported tail).
    { intros tail _. rewrite is_playing_run.
      destruct (vlc_player (self w)) as [p|]; simpl snd.
      - rewrite extend_extend, new_events_extend. reflexivity.
      - now rewrite new_events_extend. }
    repeat split; try assumption.
    + destruct (Window.current_file win) as [file|];
        [destruct (PyStr.is_empty file)|]; rewrite Hnew; try reflexivity.
      now repeat split.
    + destruct (update_progress_keeps E float_percent (Window.app win')
                  (extend (snd (VirtualMicManager.is_playing E w))
                     match Window.current_file win with
                     | Some file =>
                         if PyStr.is_empty file then [] else [Done (CSetValue 100)]
                     | None => []
                     end))
        as (a & _ & _ & _ & Hno).
      now apply Hno.
  - rewrite is_playing_run in Hq. destruct (vlc_player (self w)); discriminate.
Qed.

(** X13 at a concrete input: the tick that follows a successful click on
    the send button. *)
Lemma completion_tick_witness :
  Window.check_playback_timer (fst playing_state) = Some true /\
  let win := fst playing_state in
  let w := snd playing_state in
  let r := Window.check_playback_completion sample_env noon win w in
  exists win',
    fst r = Ret win' /\
    self (snd r) = self w /\
    match fst (VirtualMicManager.is_playing sample_env w) with
    | Ret true => win' = win /\ reported (new_events w (snd r)) = []
    | _ =>
        VirtualMicApp.is_playing (Window.app win') = false /\
        Window.play_btn win' = true /\ Window.stop_btn win' = false /\
        Window.play_btn_style win' = Window.IdleStyle /\
        Window.check_playback_timer win' = Some false /\
        match Window.current_file win with
        | Some file =>
            if PyStr.is_empty file
            then reported (new_events w (snd r)) = []
            else reported (new_events w (snd r)) = [100]
                 /\ VirtualMicApp.progress_bar (Window.app win') = 100
                 /\ Window.status_label win'
                    = "Finished sending '" ++ PyStr.basename file ++ "'"
        | None => reported (new_events w (snd r)) = []
        end /\
        VirtualMicApp.update_progress sample_env (fun _ _ => 50) (Window.app win') (snd r)
        = (Ret (Window.app win'), snd r)
    end.
Proof.
  assert (H : Window.check_playback_timer (fst playing_state) = Some true)
    by (vm_compute; reflexivity).
  split; [exact H|].
  exact (completion_tick sample_env noon (fun _ _ => 50)
           (fst playing_state) (snd playing_state) true H).
Defined.

Lemma play_audio_run E clock item items win w :
  exists b msg w' win',
    VirtualMicManager.play_audio_vlc E (Window.data item) w = (Ret (b, msg), w') /\
    Window.play_audio E clock (item :: items) win w = (Ret win', w') /\
    Window.current_file win' = Some (Window.data item) /\
    Window.file_list win' = Window.file_list win /\
    if b then
      VirtualMicApp.is_playing (Window.app win') = true /\
      Window.play_btn win' = false /\ Window.stop_btn win' = true /\
      Window.play_btn_style win' = Window.PlayingStyle /\
      Window.check_playback_timer win' = Some true /\
      vlc_player (self w') <> None
    else
      VirtualMicApp.is_playing (Window.app win')
      = VirtualMicApp.is_playing (Window.app win) /\
      Window.play_btn win' = true /\ Window.stop_btn win' = false /\
      Window.play_btn_style win' = Window.play_btn_style win /\
      Window.check_playback_timer win' = Window.check_playback_timer win /\
      Window.status_label win' = "ERROR: " ++ msg.
Proof.
  destruct (play_audio_vlc_returns E (Window.data item) w) as (b & msg & w' & Hr & Hp).
  exists b, msg, w'. unfold Window.play_audio, bind. rewrite Hr.
  destruct win as [a cf pb sb sty tm fl ni fc fcl td sl].
  destruct b; simpl; eexists; (split; [reflexivity|]); (split; [reflexivity|]);
    repeat split. now apply Hp.
Qed.

Lemma window_inv_fire E clock float_percent slot st :
  window_inv st -> window_inv (fire E clock float_percent slot st).
Proof.
  destruct st as [win w]. intros Hinv.
  destruct slot as [items| | |]; simpl.
  - destruct (Window.play_btn win) eqn:Hpb; [|exact Hinv].
    destruct items as [|item items].
    + unfold Window.play_audio, ret, after_slot.
      destruct win as [a cf pb sb sty tm fl ni fc fcl td sl]. exact Hinv.
    + destruct (play_audio_run E clock item items win w)
        as (b & msg & w' & win' & _ & -> & _ & _ & Hcase).
      simpl. destruct Hinv as (Htm & Hsb & Hsty & Himp).
      assert (Hnp : VirtualMicApp.is_playing (Window.app win) = false).
      { destruct (VirtualMicApp.is_playing (Window.app win)); [|reflexivity].
        destruct (Himp eq_refl) as [Hf _]. congruence. }
      destruct b.
      * destruct Hcase as (-> & Hpl & -> & -> & -> & Hpl').
        repeat split; try reflexivity; assumption.
      * destruct Hcase as (-> & Hpl & -> & -> & -> & _).
        rewrite Hnp in *. repeat split; try assumption; try discriminate; apply Htm.
  - destruct (Window.stop_btn win); [|exact Hinv].
    destruct (stop_audio_run E clock win w)
      as (win' & -> & Hp & _ & Hpl & Hst & Hsty & Ht & _).
    simpl. rewrite Hp, Hst, Hsty, Ht.
    repeat split; try discriminate.
    destruct (Window.check_playback_timer win); discriminate.
  - destruct (Window.check_playback_timer win) as [[|]|] eqn:Ht; try exact Hinv.
    destruct (fst (VirtualMicManager.is_playing E w)) as [[|]|e] eqn:Hq.
    + unfold Window.check_playback_completion, bind.
      destruct (VirtualMicManager.is_playing E w) as [[q|e] w1] eqn:Hrun;
        simpl in Hq; [|discriminate].
      injection Hq as ->. simpl.
      rewrite is_playing_run in Hrun.
      destruct Hinv as (Htm & Hsb & Hsty & Himp).
      destruct (vlc_player (self w)) as [p|] eqn:Hp; [|discriminate Hrun].
      injection Hrun as _ <-.
      repeat split; try assumption; try apply Htm; try apply Himp; try assumption.
      simpl. rewrite Hp. discriminate.
    + destruct (finished_run E clock win w true Ht Hq)
        as (win' & -> & Hp & Hpl & Hst & Hsty & Htm & _).
      simpl. rewrite Hp, Hst, Hsty, Htm. repeat split; discriminate.
    + rewrite is_playing_run in Hq. destruct (vlc_player (self w)); discriminate.
  - destruct (update_progress_keeps E float_percent (Window.app win) w)
      as (a & Hr & Hflag & Hself & _).
    destruct (VirtualMicApp.update_progress E float_percent (Window.app win) w)
      as [[a'|e] w'] eqn:Hrun; simpl in Hr; [|discriminate].
    injection Hr as ->. simpl in Hself.
    destruct win as [a0 cf pb sb sty tm fl ni fc fcl td sl]. simpl in *.
    rewrite Hflag, Hself. exact Hinv.
Qed.

(** X14. The playing flag, the widgets and the manager stay in step.
    Suppose that: the playing flag is set exactly when the completion
    timer is active; the stop button is enabled exactly when the flag is
    set; the send button shows the playing style exactly then; and while
    the flag is set the send button is disabled and the manager holds a
    player.  Then the same holds after any sequence of clicks on the send
    and stop buttons (each firing only while its button is enabled),
    timeouts of the completion timer (only while it is active) and
    timeouts of the progress timer, whatever the backend answers. *)
Theorem window_stays_in_step
  (E : Env) (clock : nat -> string) (float_percent : Z -> Z -> Z)
  (slots : list Slot) (st : Window.State * World) :
  window_inv st -> window_inv (run_slots E clock float_percent slots st).
Proof.
  revert st; induction slots as [|slot slots IH]; intros st Hinv; simpl;
    [exact Hinv|].
  apply IH. now apply window_inv_fire.
Qed.

(** X14 at a concrete input: a freshly provisioned window, then a click
    on the send button, two timer timeouts, a click on the stop button
    and a timeout of the completion timer. *)
Lemma window_stays_in_step_witness :
  window_inv (ready_window, initial_world) /\
  window_inv
    (run_slots sample_env noon (fun _ _ => 50)
       [SlotPlay [sample_item]; SlotProgress; SlotTick; SlotStop; SlotTick]
       (ready_window, initial_world)).
Proof.
  assert (H : window_inv (ready_window, initial_world)).
  { simpl. repeat split; try discriminate; try reflexivity. }
  split; [exact H|].
  exact (window_stays_in_step sample_env noon (fun _ _ => 50)
           [SlotPlay [sample_item]; SlotProgress; SlotTick; SlotStop; SlotTick]
           (ready_window, initial_world) H).
Defined.

(** ** closeEvent *)

(** X15. Closing the window stops playback once.  [closeEvent] is
    [cleanup_all] run from the state that [stop_playback] leaves: the
    stop requests all come first, the cleanup that follows finds nothing
    to stop and makes no stop request, and the event is accepted
    exactly when that cleanup returns; when it raises, the exception
    leaves [closeEvent] before the event is accepted. *)
Theorem closeEvent_stops_once (E : Env) (w : World) :
  let w1 := snd (VirtualMicManager.stop_playback E w) in
  Window.closeEvent E w = VirtualMicManager.cleanup_all E w1 /\
  new_events w (snd (Window.closeEvent E w))
  = (stop_events E w ++ new_events w1 (snd (VirtualMicManager.cleanup_all E w1)))%list /\
  Forall (fun ev => is_stop_call (call_of ev) = false)
    (new_events w1 (snd (VirtualMicManager.cleanup_all E w1))) /\
  vlc_player (self (snd (Window.closeEvent E w))) = None.
Proof.
  intros w1.
  assert (Hce : Window.closeEvent E w = VirtualMicManager.cleanup_all E w1).
  { unfold Window.closeEvent, bind. subst w1.
    destruct (VirtualMicManager.stop_playback E w) as [[[]|e] w'] eqn:Hs.
    - simpl. destruct (VirtualMicManager.cleanup_all E w') as [[[]|e] w'']; reflexivity.
    - rewrite stop_playback_eq in Hs. discriminate. }
  rewrite Hce. split; [reflexivity|].
  assert (Hnone : stop_events E (extend w1 [Done (CPrint "Cleaning up virtual audio devices...")])
                  = []).
  { apply stop_events_none; subst w1; now rewrite stop_playback_eq. }
  rewrite cleanup_all_new_events, cleanup_all_run.
  split; [|split].
  - apply new_events_app. subst w1. rewrite stop_playback_eq. simpl.
    now rewrite <- app_assoc.
  - apply Forall_app; split.
    + unfold listing_events, cleanup_prefix. rewrite Hnone.
      repeat constructor. now rewrite call_of_run_cmd_event.
    + eapply Forall_impl; [|apply purge_events_shape]. now intros ev [H _].
  - reflexivity.
Qed.

(** ** The file list *)

Lemma existing_spec file_path l :
  Window.existing file_path l = true <-> In file_path (map Window.data l).
Proof.
  unfold Window.existing. rewrite existsb_exists, in_map_iff. split.
  - intros (item & Hin & Heq). apply String.eqb_eq in Heq. now exists item.
  - intros (item & Heq & Hin). exists item. split; [exact Hin|].
    now apply String.eqb_eq.
Qed.

Lemma existing_false file_path l :
  Window.existing file_path l = false <-> ~ In file_path (map Window.data l).
Proof.
  rewrite <- existing_spec. destruct (Window.existing file_path l); split;
    congruence.
Qed.

Lemma grows_refl win : grows win win [].
Proof. unfold grows. now rewrite app_nil_r, Nat.add_0_r. Qed.

Lemma grows_trans a b c x y : grows a b x -> grows b c y -> grows a c (x ++ y).
Proof.
  intros (Hl & Hn & Hc & Hlab) (Hl' & Hn' & Hc' & Hlab'). unfold grows.
  rewrite Hl', Hl, Hn', Hn, Hc', Hc, Hlab', Hlab, length_app, app_assoc.
  repeat split. lia.
Qed.

Lemma add_item_grows item_text file_path win :
  grows win (Window.add_item item_text file_path win)
    [{| Window.item_id := Window.next_item win;
        Window.text := item_text; Window.data := file_path |}].
Proof.
  unfold grows. destruct win as [a cf pb sb sty tm fl ni fc fcl td sl]; simpl.
  repeat split. lia.
Qed.

Lemma add_item_list_inv item_text file_path win :
  list_inv win -> Window.existing file_path (Window.file_list win) = false ->
  list_inv (Window.add_item item_text file_path win).
Proof.
  intros (Hd & Hi & Hb) Hex. apply existing_false in Hex.
  destruct win as [a cf pb sb sty tm fl ni fc fcl td sl]; simpl in *.
  unfold list_inv; simpl. rewrite !map_app. simpl. split; [|split].
  - apply NoDup_app; [exact Hd | repeat constructor; intros [] |].
    intros x Hx [<-|[]]. contradiction.
  - apply NoDup_app; [exact Hi | repeat constructor; intros [] |].
    intros x Hx [<-|[]]. apply in_map_iff in Hx as (item & Heq & Hin).
    rewrite Forall_forall in Hb. specialize (Hb item Hin). simpl in *. lia.
  - apply Forall_app; split.
    + eapply Forall_impl; [|exact Hb]. intros item Hlt. simpl in *. lia.
    + repeat constructor.
Qed.

Lemma add_item_data item_text file_path win p :
  In p (map Window.data (Window.file_list (Window.add_item item_text file_path win)))
  <-> In p (map Window.data (Window.file_list win)) \/ p = file_path.
Proof.
  destruct win as [a cf pb sb sty tm fl ni fc fcl td sl]; simpl.
  rewrite map_app, in_app_iff. simpl. intuition.
Qed.

Lemma browse_files_ok root files win n :
  (exists added,
      grows win (fst (Window.browse_files root files (win, n))) added /\
      snd (Window.browse_files root files (win, n)) = (n + length added)%nat) /\
  (list_inv win -> list_inv (fst (Window.browse_files root files (win, n)))) /\
  (forall p,
      In p (map Window.data
              (Window.file_list (fst (Window.browse_files root files (win, n)))))
      <-> In p (map Window.data (Window.file_list win))
          \/ exists file,
               In file files /\ Window.is_audio_file file = true
               /\ p = Window.join root file).
Proof.
  revert win n; induction files as [|file rest IH]; intros win n; simpl.
  - split; [exists []; split; [apply grows_refl | simpl; lia]|].
    split; [tauto|]. intros p. split; [now left | intros [H|(f & [] & _)]; exact H].
  - destruct (Window.is_audio_file file) eqn:Ha.
    + destruct (Window.existing (Window.join root file) (Window.file_list win)) eqn:Hex.
      * destruct (IH win n) as (Hg & Hinv & Hmem).
        split; [exact Hg|]. split; [exact Hinv|].
        intros p. rewrite Hmem. apply existing_spec in Hex. split.
        -- intros [H|(f & Hin & Hf & ->)]; [now left|]. right. exists f. tauto.
        -- intros [H|(f & [<-|Hin] & Hf & ->)]; [now left | now left |].
           right. now exists f.
      * destruct (IH (Window.add_item file (Window.join root file) win) (S n))
          as ((added & Hg & Hn) & Hinv & Hmem).
        split; [|split].
        -- eexists. split.
           ++ eapply grows_trans; [apply add_item_grows | exact Hg].
           ++ rewrite Hn. simpl. lia.
        -- intros Hi. apply Hinv. now apply add_item_list_inv.
        -- intros p. rewrite Hmem, add_item_data. split.
           ++ intros [[H| ->]|(f & Hin & Hf & ->)]; [now left | |].
              ** right. exists file. tauto.
              ** right. exists f. tauto.
           ++ intros [H|(f & [<-|Hin] & Hf & ->)].
              ** now left; left.
              ** now left; right.
              ** right. now exists f.
    + destruct (IH win n) as (Hg & Hinv & Hmem).
      split; [exact Hg|]. split; [exact Hinv|].
      intros p. rewrite Hmem. split.
      * intros [H|(f & Hin & Hf & ->)]; [now left|]. right. exists f. tauto.
      * intros [H|(f & [<-|Hin] & Hf & ->)]; [now left | congruence |].
        right. now exists f.
Qed.

Lemma browse_walk_ok walk win n :
  (exists added,
      grows win (fst (Window.browse_walk walk (win, n))) added /\
      snd (Window.browse_walk walk (win, n)) = (n + length added)%nat) /\
  (list_inv win -> list_inv (fst (Window.browse_walk walk (win, n)))) /\
  (forall p,
      In p (map Window.data (Window.file_list (fst (Window.browse_walk walk (win, n)))))
      <-> In p (map Window.data (Window.file_list win))
          \/ exists root dirs files file,
               In (root, dirs, files) walk /\ In file files
               /\ Window.is_audio_file file = true /\ p = Window.join root file).
Proof.
  revert win n; induction walk as [|[[root dirs] files] rest IH]; intros win n; simpl.
  - split; [exists []; split; [apply grows_refl | simpl; lia]|].
    split; [tauto|]. intros p.
    split; [now left | intros [H|(r & d & f & x & [] & _)]; exact H].
  - destruct (browse_files_ok root files win n) as ((a1 & Hg1 & Hn1) & Hinv1 & Hmem1).
    destruct (Window.browse_files root files (win, n)) as [win1 n1]. simpl in *.
    destruct (IH win1 n1) as ((a2 & Hg2 & Hn2) & Hinv2 & Hmem2).
    split; [|split].
    + exists (a1 ++ a2)%list. split; [now apply (grows_trans win win1)|].
      rewrite Hn2, Hn1, length_app. lia.
    + tauto.
    + intros p. rewrite Hmem2, Hmem1. split.
      * intros [[H|(file & Hin & Hf & ->)]|(r & d & f & x & Hin & Hx & Hf & ->)].
        -- now left.
        -- right. exists root, dirs, files, file. tauto.
        -- right. exists r, d, f, x. tauto.
      * intros [H|(r & d & f & x & [Heq|Hin] & Hx & Hf & ->)].
        -- now left; left.
        -- injection Heq as <- <- <-. left; right. now exists x.
        -- right. now exists r, d, f, x.
Qed.

Lemma list_inv_same win win' :
  Window.file_list win' = Window.file_list win ->
  Window.next_item win' = Window.next_item win ->
  list_inv win -> list_inv win'.
Proof. unfold list_inv. now intros -> ->. Qed.

Lemma log_to_terminal_files clock message win :
  grows win (Window.log_to_terminal clock message win) [].
Proof.
  unfold grows. destruct win as [a cf pb sb sty tm fl ni fc fcl td sl]; simpl.
  now rewrite app_nil_r, Nat.add_0_r.
Qed.

Lemma update_file_count_ok win :
  Window.file_list (Window.update_file_count win) = Window.file_list win /\
  Window.next_item (Window.update_file_count win) = Window.next_item win /\
  count_inv (Window.update_file_count win).
Proof.
  destruct win as [a cf pb sb sty tm fl ni fc fcl td sl]. now repeat split.
Qed.

(** The end of [browse_folder] and [add_files]: the counter is refreshed
    when something was added, and is still right when nothing was. *)
Lemma refreshed_files_inv clock message win win' added :
  files_inv win -> grows win win' added -> list_inv win' ->
  files_inv (if (0 <? length added)%nat
             then Window.update_file_count (Window.log_to_terminal clock message win')
             else win').
Proof.
  intros [_ Hc] Hg Hl.
  destruct added as [|x added]; cbn [length Nat.ltb Nat.leb].
  - destruct Hg as (Hfl & Hn & Hfc & Hlab). rewrite app_nil_r in Hfl.
    split; [exact Hl|]. unfold count_inv. now rewrite Hfc, Hlab, Hfl.
  - destruct (update_file_count_ok (Window.log_to_terminal clock message win'))
      as (Hfl & Hn & Hcount).
    destruct (log_to_terminal_files clock message win') as (Hfl' & Hn' & _).
    rewrite app_nil_r in Hfl'. rewrite Nat.add_0_r in Hn'.
    split; [|exact Hcount].
    eapply list_inv_same; [| |exact Hl]; congruence.
Qed.

Lemma browse_folder_files_inv clock folder walk win :
  files_inv win -> files_inv (Window.browse_folder clock folder walk win).
Proof.
  intros Hinv. unfold Window.browse_folder.
  destruct (PyStr.is_empty folder); [exact Hinv|].
  destruct (browse_walk_ok walk win 0) as ((added & Hg & Hn) & Hl & _).
  destruct (Window.browse_walk walk (win, 0%nat)) as [win' n].
  cbn [fst snd] in Hg, Hn, Hl. change (0 + length added)%nat with (length added) in Hn.
  subst n. specialize (Hl (proj1 Hinv)).
  pose proof (refreshed_files_inv clock
                ("Listed " ++ Window.decimal (length added) ++ " audio files from folder")
                win win' added Hinv Hg Hl) as H.
  destruct (0 <? length added)%nat eqn:Hpos; [exact H|].
  destruct (log_to_terminal_files clock "No audio files found in selected folder" win')
    as (Hfl & Hnx & Hfc & Hlab).
  rewrite app_nil_r in Hfl. rewrite Nat.add_0_r in Hnx.
  destruct H as [Hl' Hc']. split.
  - eapply list_inv_same; [| |exact Hl']; assumption.
  - unfold count_inv in *. now rewrite Hfc, Hlab, Hfl.
Qed.

Lemma found_at_nil E w p : ~ found_at E w [] p.
Proof. intros (before & after & H & _). now destruct before. Qed.

Lemma found_at_cons E w file rest p :
  found_at E w (file :: rest) p
  <-> (p = file /\ os_path_exists E (trace w) file = true)
      \/ found_at E (extend w [Done (CExists file)]) rest p.
Proof.
  unfold found_at. split.
  - intros (before & after & Hf & Hx). destruct before as [|b before].
    + injection Hf as <- _. left. split; [reflexivity|].
      simpl in Hx. now rewrite app_nil_r in Hx.
    + injection Hf as <- ->. right. exists before, after. split; [reflexivity|].
      simpl in *. now rewrite <- app_assoc.
  - intros [[-> Hx]|(before & after & -> & Hx)].
    + exists [], rest. split; [reflexivity|]. simpl. now rewrite app_nil_r.
    + exists (file :: before), after. split; [reflexivity|].
      simpl in *. now rewrite <- app_assoc in Hx.
Qed.

Lemma add_files_loop_ok E files win n w :
  exists win' added,
    Window.add_files_loop E files (win, n) w
    = (Ret (win', (n + length added)%nat),
       extend w (map (fun file_path => Done (CExists file_path)) files)) /\
    grows win win' added /\
    (list_inv win -> list_inv win') /\
    Forall (fun item => Window.text item = PyStr.basename (Window.data item)) added /\
    forall p,
      In p (map Window.data (Window.file_list win'))
      <-> In p (map Window.data (Window.file_list win)) \/ found_at E w files p.
Proof.
  revert win n w; induction files as [|file rest IH]; intros win n w.
  - exists win, []. simpl. rewrite Nat.add_0_r, extend_nil.
    split; [reflexivity|]. split; [apply grows_refl|]. split; [tauto|].
    split; [constructor|].
    intros p. split; [now left | intros [H|H]; [exact H | now apply found_at_nil in H]].
  - simpl. unfold bind at 1. unfold path_exists, bind. rewrite log_extend.
    unfold ret at 1.
    set (w1 := extend w [Done (CExists file)]).
    assert (Hw : forall evs, extend w1 evs = extend w (Done (CExists file) :: evs))
      by (intros evs; unfold w1; now rewrite extend_extend).
    destruct (os_path_exists E (trace w) file) eqn:Hx;
      [destruct (Window.existing file (Window.file_list win)) eqn:Hex|].
    + destruct (IH win n w1) as (win' & added & Hr & Hg & Hl & Ht & Hmem).
      exists win', added. rewrite Hr, Hw.
      split; [reflexivity|]. split; [exact Hg|]. split; [exact Hl|].
      split; [exact Ht|].
      intros p. rewrite Hmem, found_at_cons. fold w1. apply existing_spec in Hex.
      split.
      * intros [H|H]; [now left | right; now right].
      * intros [H|[[-> _]|H]]; [now left | now left | now right].
    + destruct (IH (Window.add_item (PyStr.basename file) file win) (S n) w1)
        as (win' & added & Hr & Hg & Hl & Ht & Hmem).
      pose proof (add_item_grows (PyStr.basename file) file win) as Hg0.
      exists win', ({| Window.item_id := Window.next_item win;
                       Window.text := PyStr.basename file;
                       Window.data := file |} :: added).
      rewrite Hr, Hw. simpl length. rewrite Nat.add_succ_r.
      split; [reflexivity|].
      split; [exact (grows_trans _ _ _ _ _ Hg0 Hg)|].
      split; [intros H; apply Hl, add_item_list_inv; [exact H | exact Hex]|].
      split; [constructor; [reflexivity | exact Ht]|].
      intros p. rewrite Hmem, add_item_data, found_at_cons. fold w1. split.
      * intros [[H| ->]|H];
          [now left | right; left; now split | right; now right].
      * intros [H|[[-> _]|H]]; [left; now left | left; now right | now right].
    + destruct (IH win n w1) as (win' & added & Hr & Hg & Hl & Ht & Hmem).
      exists win', added. rewrite Hr, Hw.
      split; [reflexivity|]. split; [exact Hg|]. split; [exact Hl|].
      split; [exact Ht|].
      intros p. rewrite Hmem, found_at_cons. fold w1. split.
      * intros [H|H]; [now left | right; now right].
      * intros [H|[[-> Hy]|H]]; [now left | congruence | now right].
Qed.

Lemma refreshed_file_list clock message win (b : bool) :
  Window.file_list
    (if b then Window.update_file_count (Window.log_to_terminal clock message win)
     else win)
  = Window.file_list win.
Proof. destruct b; [|reflexivity]. now destruct win. Qed.

Lemma add_files_run E clock files win w :
  exists win' added,
    Window.add_files E clock files win w
    = (Ret win', extend w (map (fun file_path => Done (CExists file_path)) files)) /\
    Window.file_list win' = (Window.file_list win ++ added)%list /\
    Forall (fun item => Window.text item = PyStr.basename (Window.data item)) added /\
    (files_inv win -> files_inv win') /\
    forall p,
      In p (map Window.data (Window.file_list win'))
      <-> In p (map Window.data (Window.file_list win)) \/ found_at E w files p.
Proof.
  destruct (add_files_loop_ok E files win 0 w) as (win' & added & Hr & Hg & Hl & Ht & Hmem).
  change (0 + length added)%nat with (length added) in Hr.
  unfold Window.add_files, bind. rewrite Hr.
  set (message := ("Added " ++ Window.decimal (length added) ++ " audio files")%string).
  exists (if (0 <? length added)%nat
          then Window.update_file_count (Window.log_to_terminal clock message win')
          else win'), added.
  split; [now destruct (0 <? length added)%nat|].
  rewrite refreshed_file_list.
  split; [exact (proj1 Hg)|]. split; [exact Ht|]. split; [|exact Hmem].
  intros Hinv. apply (refreshed_files_inv clock message win win' added Hinv Hg).
  exact (Hl (proj1 Hinv)).
Qed.

Lemma NoDup_map_filter {A B} (f : A -> B) (keep : A -> bool) l :
  NoDup (map f l) -> NoDup (map f (filter keep l)).
Proof.
  induction l as [|x l IH]; simpl; intros H; [constructor|].
  inversion H as [|? ? Hx Hl]; subst.
  destruct (keep x); [|now apply IH].
  simpl. constructor; [|now apply IH].
  intros Hin. apply Hx. apply in_map_iff in Hin as (y & Hy & Hin).
  apply filter_In in Hin as [Hin _]. apply in_map_iff. now exists y.
Qed.

Lemma filter_twice {A} (f g : A -> bool) l :
  filter f (filter g l) = filter (fun x => g x && f x) l.
Proof.
  induction l as [|x l IH]; simpl; [reflexivity|].
  destruct (g x); simpl; [destruct (f x)|]; now rewrite IH.
Qed.

Lemma take_item_filter item l :
  NoDup (map Window.item_id l) ->
  Window.take_item item l
  = filter (fun x => negb (Window.item_id x =? Window.item_id item)%nat) l.
Proof.
  induction l as [|x l IH]; simpl; intros H; [reflexivity|].
  inversion H as [|? ? Hx Hl]; subst.
  destruct (Window.item_id x =? Window.item_id item)%nat eqn:Hid; simpl.
  - apply Nat.eqb_eq in Hid. symmetry. apply forallb_filter_id.
    apply forallb_forall. intros y Hy.
    destruct (Window.item_id y =? Window.item_id item)%nat eqn:Hy'; [|reflexivity].
    apply Nat.eqb_eq in Hy'. exfalso. apply Hx. rewrite Hid, <- Hy'. now apply in_map.
  - now rewrite IH.
Qed.

Lemma remove_each_ok clock items win :
  NoDup (map Window.item_id (Window.file_list win)) ->
  Window.file_list (Window.remove_each clock items win)
  = filter (not_selected items) (Window.file_list win) /\
  Window.next_item (Window.remove_each clock items win) = Window.next_item win.
Proof.
  revert win; induction items as [|item rest IH]; intros win Hnd; simpl.
  - split; [|reflexivity]. symmetry. apply forallb_filter_id.
    apply forallb_forall. reflexivity.
  - set (win1 := Window.log_to_terminal clock _ _).
    assert (Hfl : Window.file_list win1
                  = filter (fun x => negb (Window.item_id x =? Window.item_id item)%nat)
                      (Window.file_list win)).
    { unfold win1. rewrite <- (take_item_filter item _ Hnd). now destruct win. }
    assert (Hn : Window.next_item win1 = Window.next_item win)
      by (unfold win1; now destruct win).
    destruct (IH win1) as [H1 H2].
    { rewrite Hfl. now apply NoDup_map_filter. }
    rewrite H1, H2, Hfl, filter_twice. split; [|exact Hn].
    apply filter_ext. intros x. unfold not_selected. simpl.
    now rewrite negb_orb.
Qed.

Lemma filter_list_inv keep win win' :
  Window.file_list win' = filter keep (Window.file_list win) ->
  Window.next_item win' = Window.next_item win ->
  list_inv win -> list_inv win'.
Proof.
  unfold list_inv. intros -> -> (Hd & Hi & Hlt).
  split; [now apply NoDup_map_filter|]. split; [now apply NoDup_map_filter|].
  rewrite Forall_forall in *. intros x Hx. apply filter_In in Hx as [Hx _]. now apply Hlt.
Qed.

Lemma remove_files_files_inv clock items win :
  files_inv win -> files_inv (Window.remove_files clock items win).
Proof.
  intros Hinv. destruct items as [|item rest]; [exact Hinv|].
  unfold Window.remove_files.
  destruct (remove_each_ok clock (item :: rest) win) as [Hfl Hn];
    [exact (proj1 (proj2 (proj1 Hinv)))|].
  destruct (update_file_count_ok (Window.remove_each clock (item :: rest) win))
    as (Hfl' & Hn' & Hc).
  split; [|exact Hc].
  apply (filter_list_inv (not_selected (item :: rest)) win); [congruence|congruence|].
  exact (proj1 Hinv).
Qed.

Lemma clear_files_files_inv clock win :
  files_inv win -> files_inv (Window.clear_files clock win).
Proof.
  intros Hinv. unfold Window.clear_files.
  destruct (0 <? length (Window.file_list win))%nat; [|exact Hinv].
  destruct win as [a cf pb sb sty tm fl ni fc fcl td sl].
  split; [|split; reflexivity].
  split; [constructor|]. split; constructor.
Qed.

(** X16.  The four slots that edit the file list ([add_files],
    [browse_folder], [remove_files], [clear_files]), fired in any order
    with any dialog answers and selections, keep the list well formed: no
    path is listed twice, no item occurs twice, and the counter and its
    label "Files: n" show the length of the list. *)
Theorem file_list_stays_consistent E clock ops win w :
  files_inv win -> files_inv (fst (run_file_ops E clock ops (win, w))).
Proof.
  unfold run_file_ops. revert win w; induction ops as [|op ops IH]; intros win w Hinv;
    [exact Hinv|].
  cbn [fold_left].
  destruct (run_file_op E clock op (win, w)) as [win' w'] eqn:Hop.
  apply IH. destruct op as [files|folder walk|items|]; simpl in Hop.
  - destruct (add_files_run E clock files win w) as (win1 & added & Hr & _ & _ & Hf & _).
    rewrite Hr in Hop. injection Hop as <- _. now apply Hf.
  - injection Hop as <- _. now apply browse_folder_files_inv.
  - injection Hop as <- _. now apply remove_files_files_inv.
  - injection Hop as <- _. now apply clear_files_files_inv.
Qed.

Lemma file_list_stays_consistent_witness :
  files_inv ready_window /\
  files_inv
    (fst (run_file_ops sample_env noon
            [FAdd ["/music/clip.wav"; "/tmp/missing.mp3"];
             FBrowse "/music" sample_walk;
             FRemove [{| Window.item_id := 0; Window.text := "clip.wav";
                         Window.data := "/music/clip.wav" |}];
             FBrowse "/music" sample_walk;
             FClear]
            (ready_window, initial_world))).
Proof.
  assert (H : files_inv ready_window).
  { split; [split; [constructor | split; constructor] | split; reflexivity]. }
  split; [exact H|]. apply file_list_stays_consistent. exact H.
Defined.

(** X17.  [add_files] never raises and asks [os.path.exists] once about
    each chosen file, in order.  Afterwards a path is listed exactly when
    it was listed before or it is a chosen file that existed when it was
    asked about; the old entries keep their places, and every new entry is
    labelled with the base name of its path. *)
Theorem add_files_lists_existing E clock files win w :
  exists win' added,
    Window.add_files E clock files win w
    = (Ret win', extend w (map (fun file_path => Done (CExists file_path)) files)) /\
    Window.file_list win' = (Window.file_list win ++ added)%list /\
    Forall (fun item => Window.text item = PyStr.basename (Window.data item)) added /\
    forall p,
      In p (map Window.data (Window.file_list win'))
      <-> In p (map Window.data (Window.file_list win)) \/ found_at E w files p.
Proof.
  destruct (add_files_run E clock files win w) as (win' & added & Hr & Hfl & Ht & _ & Hmem).
  exists win', added. auto.
Qed.

(** X18.  When the directory dialog was not cancelled, [browse_folder]
    lists exactly the old paths and the joined paths of the walked files
    whose extension, lower-cased, is an audio or video extension; the old
    entries keep their places. *)
Theorem browse_folder_lists_audio clock folder walk win :
  PyStr.is_empty folder = false ->
  (exists added,
     Window.file_list (Window.browse_folder clock folder walk win)
     = (Window.file_list win ++ added)%list) /\
  forall p,
    In p (map Window.data (Window.file_list (Window.browse_folder clock folder walk win)))
    <-> In p (map Window.data (Window.file_list win))
        \/ exists root dirs files file,
             In (root, dirs, files) walk /\ In file files /\
             Window.is_audio_file file = true /\ p = Window.join root file.
Proof.
  intros Hfolder. unfold Window.browse_folder. rewrite Hfolder.
  destruct (browse_walk_ok walk win 0) as ((added & Hg & _) & _ & Hmem).
  destruct (Window.browse_walk walk (win, 0%nat)) as [win' n]. cbn [fst snd] in Hg, Hmem.
  assert (Hfl : forall m1 m2 (b : bool),
             Window.file_list
               (if b then Window.update_file_count (Window.log_to_terminal clock m1 win')
                else Window.log_to_terminal clock m2 win')
             = Window.file_list win')
    by (intros m1 m2 [|]; now destruct win').
  rewrite Hfl. split; [exists added; exact (proj1 Hg) | exact Hmem].
Qed.

Lemma browse_folder_lists_audio_witness :
  PyStr.is_empty "/music" = false /\
  map Window.data (Window.file_list (Window.browse_folder noon "/music" sample_walk ready_window))
  = ["/music/clip.wav"; "/music/Song.MP3"; "/music/old/clip.wav"; "/music/old/tape.ogg"] /\
  forall p,
    In p (map Window.data
            (Window.file_list (Window.browse_folder noon "/music" sample_walk ready_window)))
    <-> In p (map Window.data (Window.file_list ready_window))
        \/ exists root dirs files file,
             In (root, dirs, files) sample_walk /\ In file files /\
             Window.is_audio_file file = true /\ p = Window.join root file.
Proof.
  split; [reflexivity|]. split; [vm_compute; reflexivity|].
  apply (browse_folder_lists_audio noon "/music" sample_walk ready_window). reflexivity.
Defined.

(** X19.  [remove_files] takes exactly the selected items out of the list
    and leaves the others in their order, provided no item occurs twice
    in the list. *)
Theorem remove_files_takes_selected clock items win :
  NoDup (map Window.item_id (Window.file_list win)) ->
  Window.file_list (Window.remove_files clock items win)
  = filter (not_selected items) (Window.file_list win).
Proof.
  intros Hnd. destruct (remove_each_ok clock items win Hnd) as [Hfl _].
  destruct items as [|item rest]; [exact Hfl|].
  unfold Window.remove_files.
  now rewrite (proj1 (update_file_count_ok _)).
Qed.

Lemma remove_files_takes_selected_witness :
  let win := Window.browse_folder noon "/music" sample_walk ready_window in
  let picked := {| Window.item_id := 1; Window.text := "Song.MP3";
                   Window.data := "/music/Song.MP3" |} in
  NoDup (map Window.item_id (Window.file_list win)) /\
  map Window.data (Window.file_list (Window.remove_files noon [picked] win))
  = ["/music/clip.wav"; "/music/old/clip.wav"; "/music/old/tape.ogg"] /\
  Window.file_list (Window.remove_files noon [picked] win)
  = filter (not_selected [picked]) (Window.file_list win).
Proof.
  intros win picked.
  assert (H : NoDup (map Window.item_id (Window.file_list win))).
  { vm_compute. repeat constructor; simpl; intuition discriminate. }
  split; [exact H|]. split; [vm_compute; reflexivity|].
  apply remove_files_takes_selected. exact H.
Defined.

(** The path functions on a few inputs, as the interpreter answers. *)
Example splitext_samples :
  map Window.splitext
    ["a.tar.gz"; ".bashrc"; "..mp3"; "/x.y/file"; "/music/Song.MP3";
     "dir/.hidden.wav"; "a."; "x/.mp3"]
  = [("a.tar", ".gz"); (".bashrc", ""); ("..mp3", ""); ("/x.y/file", "");
     ("/music/Song", ".MP3"); ("dir/.hidden", ".wav"); ("a", "."); ("x/.mp3", "")].
Proof. vm_compute. reflexivity. Qed.

Example join_samples :
  [Window.join "/music" "clip.wav"; Window.join "/music/" "clip.wav";
   Window.join "/music" "/abs/x.ogg"; Window.join "" "x.ogg"]
  = ["/music/clip.wav"; "/music/clip.wav"; "/abs/x.ogg"; "x.ogg"].
Proof. vm_compute. reflexivity. Qed.

Example browse_then_add :
  let st := run_file_ops sample_env noon
              [FBrowse "/music" sample_walk; FAdd ["/music/clip.wav"]]
              (ready_window, initial_world) in
  map Window.text (Window.file_list (fst st))
  = ["clip.wav"; "Song.MP3"; "clip.wav"; "tape.ogg"] /\
  Window.file_count_label (fst st) = "Files: 4" /\
  Window.status_label (fst st) = "Listed 4 audio files from folder".
Proof. vm_compute. repeat split. Qed.
